(** * farcaster-auto: the orchestration engine of [main.py]

    A shallow embedding of [SecureFarcasterBot] (retrying request client,
    feed fetcher, action executor, focused-action runner, batch loop of
    focus mode, cycle body of continuous mode) and the properties of the
    specification checked against it, followed by the rest of the file as
    far as it computes: token encryption and decryption, the loaders of
    accounts and messages, [setup_accounts], the prompts that build a plan,
    the fields of the countdown, and the statistics of a run.

    Conventions of the embedding.
    - Python [int] is [Z]; Python [str] is [string], one [ascii] per
      character; a parsed JSON document is [JSON] (numbers with a fraction
      or an exponent are not represented: the identifiers and counts of
      this API are integers).  Operations on values of the wrong type raise
      as they do in Python.
    - The outside world is explicit: the outcomes of the HTTP requests still
      to come, the random draws still to come, and the log of what the
      program did (requests sent, sleeps, progress lines).  Every effectful
      method is a function in the monad [M], which threads the world and
      propagates Python exceptions.
    - [print] calls are kept only where a property reads them (the header
      line of a focused run, the per-target progress line, the
      "successful" or "failed" line, the "already followed" line, the batch
      line); the user-agent rotation of
      [make_request] changes no modelled outcome and is left out. *)

From Stdlib Require Import ZArith Lia.
From stdpp Require Import gmap sets list strings pretty.

Local Open Scope Z_scope.
Set Warnings "-register-all,-clear-no-such-hyp".

(** ** Python values and outcomes *)

Inductive PyExc : Type :=
  | ValueError
  | TypeError
  | AttributeError
  | KeyError
  | JSONDecodeError.

(** The outcome of a call: a value, a propagated exception, or a loop that
    was cut off by the fuel of the model ([while] loops only). *)
Inductive Res (A : Type) : Type :=
  | Ok (a : A)
  | Raise (e : PyExc)
  | OutOfFuel.
Arguments Ok {A} a.
Arguments Raise {A} e.
Arguments OutOfFuel {A}.

Inductive JSON : Type :=
  | JNull
  | JBool (b : bool)
  | JInt (z : Z)
  | JStr (s : string)
  | JArr (l : list JSON)
  | JObj (kvs : list (string * JSON)).

(** Truth value of a Python object, as [if x] and [x and y] read it. *)
Definition py_truthy (v : JSON) : bool :=
  match v with
  | JNull => false
  | JBool b => b
  | JInt z => negb (z =? 0)
  | JStr s => negb (String.eqb s "")
  | JArr l => match l with [] => false | _ => true end
  | JObj kvs => match kvs with [] => false | _ => true end
  end.

(** [x[:n]] on a list: a negative [n] counts from the end, out-of-range
    bounds are clamped. *)
Definition py_take {A : Type} (n : Z) (l : list A) : list A :=
  if 0 <=? n then take (Z.to_nat n) l
  else take (length l - Z.to_nat (- n))%nat l.

Definition py_take_str (n : Z) (s : string) : string :=
  if 0 <=? n then String.substring 0 (Z.to_nat n) s
  else String.substring 0 (String.length s - Z.to_nat (- n))%nat s.

Definition str_contains (sub s : string) : bool :=
  match String.index 0 sub s with Some _ => true | None => false end.

Fixpoint dict_lookup (key : string) (kvs : list (string * JSON)) : option JSON :=
  match kvs with
  | [] => None
  | (k, v) :: rest => if String.eqb k key then Some v else dict_lookup key rest
  end.

Definition is_str (key : string) (v : JSON) : bool :=
  match v with JStr s => String.eqb s key | _ => false end.

(** [key in v] for a string [key]. *)
Definition py_contains (key : string) (v : JSON) : Res bool :=
  match v with
  | JObj kvs => Ok (match dict_lookup key kvs with Some _ => true | None => false end)
  | JArr l => Ok (existsb (is_str key) l)
  | JStr s => Ok (str_contains key s)
  | JNull | JBool _ | JInt _ => Raise TypeError
  end.

(** [v[key]] for a string [key]. *)
Definition py_getitem (key : string) (v : JSON) : Res JSON :=
  match v with
  | JObj kvs => match dict_lookup key kvs with Some x => Ok x | None => Raise KeyError end
  | _ => Raise TypeError
  end.

(** [v.get(key, default)]: only a dict has the method. *)
Definition py_get (key : string) (default : JSON) (v : JSON) : Res JSON :=
  match v with
  | JObj kvs => Ok (match dict_lookup key kvs with Some x => x | None => default end)
  | _ => Raise AttributeError
  end.

Fixpoint chars (s : string) : list JSON :=
  match s with
  | EmptyString => []
  | String c rest => JStr (String c EmptyString) :: chars rest
  end.

(** The elements that [for item in v[:limit]] visits. *)
Definition py_slice_iter (limit : Z) (v : JSON) : Res (list JSON) :=
  match v with
  | JArr l => Ok (py_take limit l)
  | JStr s => Ok (chars (py_take_str limit s))
  | _ => Raise TypeError
  end.

(** [v[:n] + suffix] on a string; any other operand raises. *)
Definition py_slice_concat (n : Z) (suffix : string) (v : JSON) : Res string :=
  match v with
  | JStr s => Ok (py_take_str n s ++ suffix)%string
  | _ => Raise TypeError
  end.

(** Keys of a Python [set]: [True == 1] and [False == 0] hash alike, lists
    and dicts are unhashable. *)
Inductive PyKey : Type :=
  | KNone
  | KInt (z : Z)
  | KStr (s : string).

Definition py_hash_key (v : JSON) : Res PyKey :=
  match v with
  | JNull => Ok KNone
  | JBool b => Ok (KInt (if b then 1 else 0))
  | JInt z => Ok (KInt z)
  | JStr s => Ok (KStr s)
  | JArr _ | JObj _ => Raise TypeError
  end.

#[global] Instance PyKey_eq_dec : EqDecision PyKey.
Proof. solve_decision. Defined.

Definition PyKey_enc (k : PyKey) : unit + (Z + string) :=
  match k with KNone => inl tt | KInt z => inr (inl z) | KStr s => inr (inr s) end.

Definition PyKey_dec (x : unit + (Z + string)) : PyKey :=
  match x with inl _ => KNone | inr (inl z) => KInt z | inr (inr s) => KStr s end.

#[global] Instance PyKey_countable : Countable PyKey.
Proof.
  apply (inj_countable' PyKey_enc PyKey_dec).
  intros []; reflexivity.
Defined.

(** ** The world *)

(** [int(response.headers.get('Retry-After', 60))] sees the header through
    what [int()] makes of it: no header, an integer, or text that [int()]
    rejects. *)
Inductive Header : Type :=
  | HAbsent
  | HInt (z : Z)
  | HInvalid.

(** [body] is what [response.json()] returns; [None] when the body does not
    parse ([json()] raises). *)
Record Response : Type := mkResponse {
  status_code : Z;
  retry_after : Header;
  body : option JSON
}.

(** What [session.request] does: a response, or a [RequestException]
    (connection error, timeout). *)
Inductive NetEvent : Type :=
  | NetResponse (r : Response)
  | NetError.

Inductive Payload : Type :=
  | PFeed (feedKey feedType : string)
  | PCastHash (cast_hash : JSON)
  | PTargetFid (target_fid : JSON)
  | PText (text : string).

Record Request : Type := mkRequest {
  method : string;
  url : string;
  bearer : string;
  payload : Payload
}.

Inductive Event : Type :=
  | EvRequest (rq : Request)
  | EvSleep (secs : Z)
  | EvJitter (lo hi : Z)
  | EvFocus (account_idx : Z) (action_type : string) (target_count : Z)
  | EvProgress (idx target_count : Z) (short_hash : string) (author_fid : JSON)
  | EvResult (success : bool)
  | EvAlreadyFollowed (author_fid : JSON)
  | EvBatch (batch_count current_batch : Z)
  | EvCountdown (secs : Z).

(** [net]: outcomes of the requests still to be sent, in order (when the
    script is used up every further request fails at the transport level);
    [rnd]: the draws of the random generator still to come (0 when used
    up); [trace]: what the program did so far, oldest first. *)
Record World : Type := mkWorld {
  net : list NetEvent;
  rnd : list nat;
  trace : list Event
}.

Definition M (A : Type) : Type := World -> Res A * World.

Definition ret {A : Type} (a : A) : M A := fun w => (Ok a, w).

Definition bind {A B : Type} (m : M A) (k : A -> M B) : M B :=
  fun w =>
    match m w with
    | (Ok a, w') => k a w'
    | (Raise e, w') => (Raise e, w')
    | (OutOfFuel, w') => (OutOfFuel, w')
    end.

Definition lift {A : Type} (r : Res A) : M A := fun w => (r, w).

Declare Scope py_scope.
Delimit Scope py_scope with py.
Notation "x <- m ;; k" := (bind m (fun x => k))
  (at level 100, m at next level, right associativity) : py_scope.
Notation "m ;;; k" := (bind m (fun _ => k))
  (at level 100, right associativity) : py_scope.
Local Open Scope py_scope.

Definition bindR {A B : Type} (r : Res A) (k : A -> Res B) : Res B :=
  match r with
  | Ok a => k a
  | Raise e => Raise e
  | OutOfFuel => OutOfFuel
  end.

Definition log (e : Event) : M unit :=
  fun w => (Ok tt, mkWorld (net w) (rnd w) (trace w ++ [e])).

(** [time.sleep(secs)]: a negative length raises [ValueError]. *)
Definition sleep (secs : Z) : M unit :=
  if secs <? 0 then lift (Raise ValueError) else log (EvSleep secs).

(** [time.sleep(random.uniform(lo, hi))]: the drawn length is a float and
    is not represented, only its range. *)
Definition sleep_uniform (lo hi : Z) : M unit := log (EvJitter lo hi).

(** [self.session.request(...)]: the request goes out and the next outcome
    of the script comes back. *)
Definition session_request (rq : Request) : M NetEvent :=
  fun w =>
    match net w with
    | [] => (Ok NetError, mkWorld [] (rnd w) (trace w ++ [EvRequest rq]))
    | ev :: rest => (Ok ev, mkWorld rest (rnd w) (trace w ++ [EvRequest rq]))
    end.

(** [random._randbelow(n)] for [n > 0]. *)
Definition randbelow (n : nat) : M nat :=
  fun w =>
    match rnd w with
    | [] => (Ok 0%nat, w)
    | r :: rest => (Ok (r mod n)%nat, mkWorld (net w) rest (trace w))
    end.

(** ** Configuration *)

Record RateLimitDelay : Type := mkDelay {
  delay_min : Z;
  delay_max : Z;
  follow_min : Z;
  follow_max : Z
}.

Record Config : Type := mkConfig {
  api_url : string;
  feed_key : string;
  feed_type : string;
  rate_limit_delay : RateLimitDelay;
  batch_size : Z;
  max_retries : Z
}.

Definition default_config : Config :=
  mkConfig "https://farcaster.xyz/~api/v2" "home" "default"
           (mkDelay 3 8 8 15) 50 3.

(** ** make_request *)

Definition int_retry_after (h : Header) : Res Z :=
  match h with
  | HAbsent => Ok 60
  | HInt z => Ok z
  | HInvalid => Raise ValueError
  end.

(** The body of [for attempt in range(self.max_retries)], over the attempt
    numbers still to run.  Leaving the loop without a [return] yields
    [None]. *)
Fixpoint request_loop (cfg : Config) (rq : Request) (attempts : list Z)
  : M (option Response) :=
  match attempts with
  | [] => ret None
  | attempt :: rest =>
      ev <- session_request rq ;;
      match ev with
      | NetResponse response =>
          if status_code response =? 429 then
            retry_after <- lift (int_retry_after (retry_after response)) ;;
            sleep retry_after ;;;
            request_loop cfg rq rest
          else ret (Some response)
      | NetError =>
          if attempt <? max_retries cfg - 1 then
            sleep (2 ^ attempt) ;;;
            request_loop cfg rq rest
          else ret None
      end
  end.

Definition make_request (cfg : Config) (method endpoint bearer_token : string)
    (payload : Payload) : M (option Response) :=
  let url := (api_url cfg ++ "/" ++ endpoint)%string in
  request_loop cfg (mkRequest method url bearer_token payload)
               (seqZ 0 (max_retries cfg)).

(** ** get_feed *)

(** One entry of [cast_data]: the dict with keys ['hash'], ['fid'] and
    ['text']. *)
Record Target : Type := mkTarget {
  c_hash : JSON;
  c_fid : JSON;
  c_text : string
}.

(** Truth value of a [requests.Response]: its [ok] flag, false for the
    status codes 400 to 599. *)
Definition response_ok (r : Response) : bool :=
  negb ((400 <=? status_code r) && (status_code r <? 600)).

(** [item['cast'].get('text', '')[:100] + '...' if item['cast'].get('text')
    else ''] *)
Definition feed_text (cast : JSON) : Res string :=
  bindR (py_get "text" JNull cast) (fun t =>
  if py_truthy t then
    bindR (py_get "text" (JStr "") cast) (py_slice_concat 100 "...")
  else Ok ""%string).

(** The body of the loop over the items: [Some] target when one is
    appended. *)
Definition feed_item (item : JSON) : Res (option Target) :=
  bindR (py_contains "cast" item) (fun has_cast =>
  if has_cast : bool then
    bindR (py_getitem "cast" item) (fun cast =>
    bindR (py_get "hash" JNull cast) (fun cast_hash =>
    bindR (py_get "author" (JObj []) cast) (fun author =>
    bindR (py_get "fid" JNull author) (fun author_fid =>
    if py_truthy cast_hash && py_truthy author_fid then
      bindR (feed_text cast) (fun text =>
      Ok (Some (mkTarget cast_hash author_fid text)))
    else Ok None))))
  else Ok None).

Fixpoint feed_items (items : list JSON) (cast_data : list Target)
  : Res (list Target) :=
  match items with
  | [] => Ok cast_data
  | item :: rest =>
      bindR (feed_item item) (fun o =>
      feed_items rest
        (match o with Some t => cast_data ++ [t] | None => cast_data end))
  end.

Definition feed_cast_data (limit : Z) (data : JSON) : Res (list Target) :=
  bindR (py_contains "result" data) (fun has_result =>
  if has_result : bool then
    bindR (py_getitem "result" data) (fun result =>
    bindR (py_contains "items" result) (fun has_items =>
    if has_items : bool then
      bindR (py_getitem "items" result) (fun items =>
      bindR (py_slice_iter limit items) (fun sliced =>
      feed_items sliced []))
    else Ok []))
  else Ok []).

Definition get_feed (cfg : Config) (bearer_token : string) (limit : Z)
  : M (bool * list Target) :=
  response <- make_request cfg "POST" "feed-items" bearer_token
                (PFeed (feed_key cfg) (feed_type cfg)) ;;
  match response with
  | Some r =>
      if response_ok r && (status_code r =? 200) then
        match body r with
        | None => lift (Raise JSONDecodeError)
        | Some data =>
            cast_data <- lift (feed_cast_data limit data) ;;
            ret (true, cast_data)
        end
      else ret (false, [])
  | None => ret (false, [])
  end.

(** ** like_cast, recast, follow_user, post_cast *)

(** [response.status_code == code if response else False] *)
Definition status_is (code : Z) (response : option Response) : bool :=
  match response with
  | Some r => if response_ok r then status_code r =? code else false
  | None => false
  end.

Definition like_cast (cfg : Config) (bearer_token : string) (cast_hash : JSON)
  : M bool :=
  response <- make_request cfg "PUT" "cast-likes" bearer_token
                (PCastHash cast_hash) ;;
  ret (status_is 200 response).

Definition recast (cfg : Config) (bearer_token : string) (cast_hash : JSON)
  : M bool :=
  response <- make_request cfg "PUT" "recasts" bearer_token
                (PCastHash cast_hash) ;;
  ret (status_is 200 response).

Definition follow_user (cfg : Config) (bearer_token : string) (target_fid : JSON)
  : M bool :=
  response <- make_request cfg "PUT" "follows" bearer_token
                (PTargetFid target_fid) ;;
  ret (status_is 200 response).

Definition post_cast (cfg : Config) (bearer_token : string) (text : string)
  : M bool :=
  response <- make_request cfg "POST" "casts" bearer_token (PText text) ;;
  ret (status_is 201 response).

(** ** execute_focused_action *)

(** [x[i], x[j] = x[j], x[i]] *)
Definition swap {A : Type} (i j : nat) (x : list A) : list A :=
  match x !! i, x !! j with
  | Some a, Some b => <[j := a]> (<[i := b]> x)
  | _, _ => x
  end.

(** [random.shuffle]: for [i] from [len(x) - 1] down to 1, swap [x[i]] with
    [x[j]] for a drawn [j] below [i + 1]. *)
Fixpoint shuffle_from {A : Type} (i : nat) (x : list A) : M (list A) :=
  match i with
  | O => ret x
  | S i' =>
      j <- randbelow (S i) ;;
      shuffle_from i' (swap i j x)
  end.

Definition shuffle {A : Type} (x : list A) : M (list A) :=
  shuffle_from (length x - 1)%nat x.

(** The state of the loop over [selected_casts]. *)
Record RunState : Type := mkRun {
  success_count : Z;
  followed_fids : gset PyKey
}.

Definition count_success (st : RunState) : RunState :=
  mkRun (success_count st + 1) (followed_fids st).

Definition jitter_delay (cfg : Config) (action_type : string) : M unit :=
  let d := rate_limit_delay cfg in
  if String.eqb action_type "follow"
  then sleep_uniform (follow_min d) (follow_max d)
  else sleep_uniform (delay_min d) (delay_max d).

(** The end of an iteration that did not [continue]: report and count the
    outcome, then wait unless this was the last target. *)
Definition action_tail (cfg : Config) (action_type : string)
    (target_count idx : Z) (success : bool) (st : RunState) : M RunState :=
  let st' := if success then count_success st else st in
  log (EvResult success) ;;;
  (if idx <? target_count then jitter_delay cfg action_type else ret tt) ;;;
  ret st'.

Definition action_step (cfg : Config) (bearer_token action_type : string)
    (target_count : Z) (st : RunState) (idx : Z) (cast_info : Target)
  : M RunState :=
  let cast_hash := c_hash cast_info in
  let author_fid := c_fid cast_info in
  short_hash <- lift (py_slice_concat 10 "..." cast_hash) ;;
  log (EvProgress idx target_count short_hash author_fid) ;;;
  if String.eqb action_type "like" then
    success <- like_cast cfg bearer_token cast_hash ;;
    action_tail cfg action_type target_count idx success st
  else if String.eqb action_type "recast" then
    success <- recast cfg bearer_token cast_hash ;;
    action_tail cfg action_type target_count idx success st
  else if String.eqb action_type "follow" then
    key <- lift (py_hash_key author_fid) ;;
    if bool_decide (key ∈ followed_fids st) then
      log (EvAlreadyFollowed author_fid) ;;;
      ret (count_success st)
    else
      success <- follow_user cfg bearer_token author_fid ;;
      let st1 := if success
                 then mkRun (success_count st) ({[key]} ∪ followed_fids st)
                 else st in
      action_tail cfg action_type target_count idx success st1
  else action_tail cfg action_type target_count idx false st.

(** [for idx, cast_info in enumerate(selected_casts, 1)] *)
Fixpoint action_loop (cfg : Config) (bearer_token action_type : string)
    (target_count : Z) (idx : Z) (selected_casts : list Target)
    (st : RunState) : M RunState :=
  match selected_casts with
  | [] => ret st
  | cast_info :: rest =>
      st' <- action_step cfg bearer_token action_type target_count st idx
               cast_info ;;
      action_loop cfg bearer_token action_type target_count (idx + 1) rest st'
  end.

Definition len {A : Type} (l : list A) : Z := Z.of_nat (length l).

(** The opening of [execute_focused_action]: the header line and the
    fetch of the feed. *)
Definition focused_fetch (cfg : Config) (bearer_token : string)
    (account_idx : Z) (action_type : string) (target_count : Z)
  : M (bool * list Target) :=
  log (EvFocus account_idx action_type target_count) ;;;
  get_feed cfg bearer_token (Z.max 100 (target_count * 2)).

Definition execute_focused_action (cfg : Config) (bearer_token : string)
    (account_idx : Z) (action_type : string) (target_count : Z) : M Z :=
  feed <- focused_fetch cfg bearer_token account_idx action_type
            target_count ;;
  let '(success, cast_data) := feed in
  if negb success || match cast_data with [] => true | _ => false end
  then ret 0
  else
    let target_count :=
      if len cast_data <? target_count then len cast_data else target_count in
    shuffled <- shuffle cast_data ;;
    let selected_casts := py_take target_count shuffled in
    st <- action_loop cfg bearer_token action_type target_count 1
            selected_casts (mkRun 0 ∅) ;;
    ret (success_count st).

(** ** run_focused_mode and run_continuous_mode

    Both are modelled from the point where the operator's choices are
    resolved: [selected_actions], [action_targets] and [post_cast]. *)

(** [total_stats[key] += n] *)
Definition stats_add (key : string) (n : Z) (total_stats : gmap string Z)
  : Res (gmap string Z) :=
  match total_stats !! key with
  | Some v => Ok (<[key := v + n]> total_stats)
  | None => Raise KeyError
  end.

(** [{action: 0 for action in selected_actions}], plus ['posts'] when
    posting is on. *)
Definition init_stats (selected_actions : list string) (post_cast : bool)
  : gmap string Z :=
  let base := foldl (fun m action => <[action := 0]> m) ∅ selected_actions in
  if post_cast then <["posts"%string := 0]> base else base.

(** [random.choice(seq)] on a non-empty sequence. *)
Definition choice (seq : list string) : M string :=
  j <- randbelow (length seq) ;;
  ret (default ""%string (seq !! j)).

(** The sequence of [current_batch] values of the loop
    [while remaining > 0: current_batch = min(batch_size, remaining); ...;
    remaining -= current_batch], [None] when the fuel does not reach the end
    of the loop. *)
Fixpoint batch_sizes (fuel : nat) (batch_size remaining : Z) : option (list Z) :=
  if 0 <? remaining then
    match fuel with
    | O => None
    | S fuel' =>
        let current_batch := Z.min batch_size remaining in
        match batch_sizes fuel' batch_size (remaining - current_batch) with
        | Some rest => Some (current_batch :: rest)
        | None => None
        end
    end
  else Some [].

(** The target counts that focus mode passes to [execute_focused_action]
    for one action of the plan. *)
Definition schedule (fuel : nat) (target batch_size : Z) : option (list Z) :=
  if batch_size <? target
  then batch_sizes fuel (Z.min batch_size target) target
  else Some [target].

(** The [while remaining > 0] loop of focus mode itself. *)
Fixpoint batch_loop (fuel : nat) (cfg : Config) (bearer_token : string)
    (idx : Z) (action : string) (batch_size remaining batch_count : Z)
    (total_stats : gmap string Z) : M (gmap string Z) :=
  if 0 <? remaining then
    match fuel with
    | O => lift OutOfFuel
    | S fuel' =>
        let current_batch := Z.min batch_size remaining in
        let batch_count := batch_count + 1 in
        log (EvBatch batch_count current_batch) ;;;
        success <- execute_focused_action cfg bearer_token idx action
                     current_batch ;;
        total_stats <- lift (stats_add action success total_stats) ;;
        let remaining := remaining - current_batch in
        (if 0 <? remaining then sleep_uniform 30 60 else ret tt) ;;;
        batch_loop fuel' cfg bearer_token idx action batch_size remaining
                   batch_count total_stats
    end
  else ret total_stats.

Definition lookup_target (action : string) (action_targets : gmap string Z)
  : Res Z :=
  match action_targets !! action with
  | Some target => Ok target
  | None => Raise KeyError
  end.

(** The body of [for action in selected_actions] in focus mode. *)
Definition focused_action (fuel : nat) (cfg : Config) (bearer_token : string)
    (idx : Z) (action_targets : gmap string Z) (action : string)
    (total_stats : gmap string Z) : M (gmap string Z) :=
  target <- lift (lookup_target action action_targets) ;;
  if batch_size cfg <? target then
    let batch_size := Z.min (batch_size cfg) target in
    batch_loop fuel cfg bearer_token idx action batch_size target 0 total_stats
  else
    success <- execute_focused_action cfg bearer_token idx action target ;;
    lift (stats_add action success total_stats).

(** The body of [for action in selected_actions] in continuous mode. *)
Definition continuous_action (cfg : Config) (bearer_token : string)
    (idx : Z) (action_targets : gmap string Z) (action : string)
    (total_stats : gmap string Z) : M (gmap string Z) :=
  target <- lift (lookup_target action action_targets) ;;
  success <- execute_focused_action cfg bearer_token idx action target ;;
  lift (stats_add action success total_stats).

Fixpoint for_actions (body : string -> gmap string Z -> M (gmap string Z))
    (selected_actions : list string) (total_stats : gmap string Z)
  : M (gmap string Z) :=
  match selected_actions with
  | [] => ret total_stats
  | action :: rest =>
      total_stats' <- body action total_stats ;;
      for_actions body rest total_stats'
  end.

(** The posting step of focus mode:
    [total_stats['posts'] = total_stats.get('posts', 0) + 1] on success. *)
Definition focused_post (cfg : Config) (messages : list string)
    (bearer_token : string) (total_stats : gmap string Z)
  : M (gmap string Z) :=
  message <- choice messages ;;
  ok <- post_cast cfg bearer_token message ;;
  let total_stats' :=
    if ok : bool
    then <["posts"%string := default 0 (total_stats !! "posts"%string) + 1]> total_stats
    else total_stats in
  sleep_uniform 5 10 ;;;
  ret total_stats'.

(** The posting step of continuous mode: [total_stats['posts'] += 1] on
    success. *)
Definition continuous_post (cfg : Config) (messages : list string)
    (bearer_token : string) (total_stats : gmap string Z)
  : M (gmap string Z) :=
  message <- choice messages ;;
  ok <- post_cast cfg bearer_token message ;;
  total_stats' <- (if ok : bool then lift (stats_add "posts" 1 total_stats)
                   else ret total_stats) ;;
  sleep_uniform 5 10 ;;;
  ret total_stats'.

Definition nonempty {A : Type} (l : list A) : bool :=
  match l with [] => false | _ => true end.

(** One account of focus mode: the body of
    [for idx, bearer_token in enumerate(self.accounts, 1)]. *)
Definition focused_account (fuel : nat) (cfg : Config)
    (messages selected_actions : list string)
    (action_targets : gmap string Z) (post_cast : bool) (n_accounts : Z)
    (idx : Z) (bearer_token : string) (total_stats : gmap string Z)
  : M (gmap string Z) :=
  total_stats1 <- (if post_cast && nonempty messages
                   then focused_post cfg messages bearer_token total_stats
                   else ret total_stats) ;;
  total_stats2 <- for_actions
                    (focused_action fuel cfg bearer_token idx action_targets)
                    selected_actions total_stats1 ;;
  (if idx <? n_accounts then sleep_uniform 15 30 else ret tt) ;;;
  ret total_stats2.

(** One account of a cycle of continuous mode. *)
Definition continuous_account (cfg : Config)
    (messages selected_actions : list string)
    (action_targets : gmap string Z) (post_cast : bool) (n_accounts : Z)
    (idx : Z) (bearer_token : string) (total_stats : gmap string Z)
  : M (gmap string Z) :=
  total_stats1 <- (if post_cast && nonempty messages
                   then continuous_post cfg messages bearer_token total_stats
                   else ret total_stats) ;;
  total_stats2 <- for_actions
                    (continuous_action cfg bearer_token idx action_targets)
                    selected_actions total_stats1 ;;
  (if idx <? n_accounts then sleep_uniform 15 30 else ret tt) ;;;
  ret total_stats2.

Fixpoint for_accounts
    (body : Z -> string -> gmap string Z -> M (gmap string Z))
    (idx : Z) (accounts : list string) (total_stats : gmap string Z)
  : M (gmap string Z) :=
  match accounts with
  | [] => ret total_stats
  | bearer_token :: rest =>
      total_stats' <- body idx bearer_token total_stats ;;
      for_accounts body (idx + 1) rest total_stats'
  end.

(** [run_focused_mode], returning the statistics it reports; with no
    account loaded it returns at once. *)
Definition run_focused_mode (fuel : nat) (cfg : Config)
    (accounts messages selected_actions : list string)
    (action_targets : gmap string Z) (post_cast : bool)
  : M (gmap string Z) :=
  if nonempty accounts then
    for_accounts
      (focused_account fuel cfg messages selected_actions action_targets
                       post_cast (len accounts))
      1 accounts (init_stats selected_actions post_cast)
  else ret ∅.

(** One pass of the [while True] loop of [run_continuous_mode], up to the
    report of the cycle. *)
Definition continuous_cycle (cfg : Config)
    (accounts messages selected_actions : list string)
    (action_targets : gmap string Z) (post_cast : bool)
  : M (gmap string Z) :=
  for_accounts
    (continuous_account cfg messages selected_actions action_targets
                        post_cast (len accounts))
    1 accounts (init_stats selected_actions post_cast).

(** [run_continuous_mode]: the loop has no exit, so every bound on the
    number of cycles is reached. *)
Fixpoint run_continuous_mode (cycles : nat) (cfg : Config)
    (accounts messages selected_actions : list string)
    (action_targets : gmap string Z) (post_cast : bool)
    (interval_hours : Z) : M unit :=
  match cycles with
  | O => lift OutOfFuel
  | S cycles' =>
      continuous_cycle cfg accounts messages selected_actions action_targets
                       post_cast ;;;
      log (EvCountdown (interval_hours * 3600)) ;;;
      run_continuous_mode cycles' cfg accounts messages selected_actions
                          action_targets post_cast interval_hours
  end.

(** ** Vocabulary of the properties *)

(** A scripted outcome that no call of [make_request] turns into an
    exception: a 429 response carries no [Retry-After] header or a
    non-negative integer one. *)
Definition tame_event (ev : NetEvent) : bool :=
  match ev with
  | NetError => true
  | NetResponse r =>
      if status_code r =? 429 then
        match retry_after r with
        | HAbsent => true
        | HInt z => 0 <=? z
        | HInvalid => false
        end
      else true
  end.

Definition tame (script : list NetEvent) : Prop :=
  forallb tame_event script = true.

(** A 429 response whose [Retry-After] reads as [secs] seconds. *)
Definition rate_limited (secs : Z) (ev : NetEvent) : Prop :=
  exists r, ev = NetResponse r /\ status_code r = 429 /\
            int_retry_after (retry_after r) = Ok secs /\ 0 <= secs.

(** What [make_request] logs when every attempt is answered by a 429:
    one request and one wait per attempt. *)
Definition rate_limit_trace (rq : Request) (waits : list Z) : list Event :=
  flat_map (fun secs => [EvRequest rq; EvSleep secs]) waits.

Definition the_request (cfg : Config) (method endpoint bearer_token : string)
    (payload : Payload) : Request :=
  mkRequest method (api_url cfg ++ "/" ++ endpoint)%string bearer_token payload.

Definition sum_Z (l : list Z) : Z := foldr Z.add 0 l.

(** What a call of [make_request] for the request [rq] may log. *)
Definition io_event (rq : Request) (e : Event) : Prop :=
  e = EvRequest rq \/ exists secs, e = EvSleep secs.

(** Readings of a log. *)
Definition progress_line (e : Event) : option (Z * Z) :=
  match e with EvProgress idx total _ _ => Some (idx, total) | _ => None end.

Definition progress_fid (e : Event) : option JSON :=
  match e with EvProgress _ _ _ fid => Some fid | _ => None end.

Definition follow_request (e : Event) : option JSON :=
  match e with
  | EvRequest rq =>
      match payload rq with PTargetFid fid => Some fid | _ => None end
  | _ => None
  end.

Definition is_success (e : Event) : bool :=
  match e with EvResult true => true | _ => false end.

Definition is_skip (e : Event) : bool :=
  match e with EvAlreadyFollowed _ => true | _ => false end.

Definition is_jitter (e : Event) : bool :=
  match e with EvJitter _ _ => true | _ => false end.

Definition count_events (f : Event -> bool) (evs : list Event) : Z :=
  len (List.filter f evs).

(** Author ids as the followed-set tells them apart. *)
Definition key_of (fid : JSON) : option PyKey :=
  match py_hash_key fid with Ok k => Some k | _ => None end.

Definition key_set (fids : list JSON) : gset PyKey :=
  list_to_set (omap key_of fids).

Definition distinct_authors (fids : list JSON) : nat := size (key_set fids).

(** The wait that closes an iteration of the loop over the targets. *)
Definition jitter_events (cfg : Config) (action_type : string)
    (target_count idx : Z) : list Event :=
  if idx <? target_count then
    [if String.eqb action_type "follow"
     then EvJitter (follow_min (rate_limit_delay cfg)) (follow_max (rate_limit_delay cfg))
     else EvJitter (delay_min (rate_limit_delay cfg)) (delay_max (rate_limit_delay cfg))]
  else [].

(** A target as the API documents it: the post id is a string and the
    author id can be put in a set. *)
Definition well_typed (c : Target) : bool :=
  match c_hash c, py_hash_key (c_fid c) with
  | JStr _, Ok _ => true
  | _, _ => false
  end.

Definition feed_request (cfg : Config) (bearer_token : string) : Request :=
  the_request cfg "POST" "feed-items" bearer_token
              (PFeed (feed_key cfg) (feed_type cfg)).

Definition b2z (b : bool) : Z := if b then 1 else 0.

(** What a completed run of the loop leaves behind, in follow mode. *)
Definition follow_facts (cfg : Config) (sel : list Target) (st st' : RunState)
    (evs : list Event) : Prop :=
  Forall (fun c => is_Some (key_of (c_fid c))) sel
  /\ followed_fids st ⊆ followed_fids st'
  /\ followed_fids st' ⊆ key_set (c_fid <$> sel) ∪ followed_fids st
  /\ Z.of_nat (size (followed_fids st')) =
     Z.of_nat (size (followed_fids st)) + count_events is_success evs
  /\ key_set (omap follow_request evs) ⊆ key_set (c_fid <$> sel)
  /\ (0 < max_retries cfg ->
      key_set (c_fid <$> sel) ⊆ key_set (omap follow_request evs) ∪ followed_fids st).

(** The target that the fetcher makes of a raw feed item, if any. *)
Definition usable (item : JSON) : option Target :=
  match feed_item item with Ok (Some t) => Some t | _ => None end.

(** Running the batches of a schedule one after the other, with the pause
    between two batches. *)
Fixpoint run_batches (cfg : Config) (bearer_token : string) (idx : Z)
    (action : string) (sizes : list Z) (batch_count : Z)
    (total_stats : gmap string Z) : M (gmap string Z) :=
  match sizes with
  | [] => ret total_stats
  | current_batch :: rest =>
      log (EvBatch (batch_count + 1) current_batch) ;;;
      success <- execute_focused_action cfg bearer_token idx action
                   current_batch ;;
      total_stats' <- lift (stats_add action success total_stats) ;;
      (if nonempty rest then sleep_uniform 30 60 else ret tt) ;;;
      run_batches cfg bearer_token idx action rest (batch_count + 1)
                  total_stats'
  end.

Definition focus_target (e : Event) : option Z :=
  match e with EvFocus _ _ target_count => Some target_count | _ => None end.

Definition is_batch_pause (e : Event) : bool :=
  match e with EvJitter 30 60 => true | _ => false end.

(** The outcome [r] in the world [w'] of a computation started in [w] that
    only talked to the network with the request [rq]. *)
Definition io_run {A : Type} (rq : Request) (w : World) (r : Res A) (w' : World)
  : Prop :=
  exists evs,
    trace w' = trace w ++ evs
    /\ Forall (io_event rq) evs
    /\ rnd w' = rnd w
    /\ net w' `suffix_of` net w
    /\ r <> OutOfFuel
    /\ (tame (net w) -> exists a, r = Ok a).

(** ** Worlds and values of the examples *)

Definition like_payload : Payload := PCastHash (JStr "0x1f").

Definition like_request : Request :=
  the_request default_config "PUT" "cast-likes" "token" like_payload.

Definition ok_response : Response := mkResponse 200 HAbsent None.

Definition limited (h : Header) : Response := mkResponse 429 h None.

(** A feed item as the API sends it, and a 200 response carrying a feed. *)
Definition feed_entry (cast_hash : string) (fid : Z) : JSON :=
  JObj [("cast"%string,
         JObj [("hash"%string, JStr cast_hash);
               ("author"%string, JObj [("fid"%string, JInt fid)]);
               ("text"%string, JStr "gm")])].

Definition feed_body (items : list JSON) : JSON :=
  JObj [("result"%string, JObj [("items"%string, JArr items)])].

Definition feed_response (items : list JSON) : Response :=
  mkResponse 200 HAbsent (Some (feed_body items)).

(** Two posts of the same author, and a 200 for the first follow. *)
Definition same_author_world : World :=
  mkWorld [NetResponse (feed_response [feed_entry "0xa1" 7; feed_entry "0xb2" 7]);
           NetResponse ok_response] [] [].

(** Three posts of two authors; the follows are answered by 200. *)
Definition two_authors_world : World :=
  mkWorld [NetResponse (feed_response [feed_entry "0xa1" 7; feed_entry "0xb2" 7;
                                       feed_entry "0xc3" 9]);
           NetResponse ok_response; NetResponse ok_response] [] [].

(** Two posts of the same author; the first follow is refused with a 500,
    the second is accepted. *)
Definition refused_follow_world : World :=
  mkWorld [NetResponse (feed_response [feed_entry "0xa1" 7; feed_entry "0xb2" 7]);
           NetResponse (mkResponse 500 HAbsent None);
           NetResponse ok_response] [] [].

(** A feed item without a post id, and a feed of two such items followed by
    two complete ones. *)
Definition entry_without_hash (fid : Z) : JSON :=
  JObj [("cast"%string,
         JObj [("author"%string, JObj [("fid"%string, JInt fid)]);
               ("text"%string, JStr "gm")])].

Definition late_usable_feed : list JSON :=
  [entry_without_hash 3; entry_without_hash 4;
   feed_entry "0xa1" 7; feed_entry "0xb2" 9].

(** A feed of [n] posts by [n] authors, and a network that answers every
    request with a 200 carrying this feed. *)
Definition unique_feed (n : nat) : list JSON :=
  (fun i => feed_entry ("0x" ++ pretty i) (Z.of_nat i)) <$> seq 1 n.

Definition generous_world (n requests : nat) : World :=
  mkWorld (replicate requests (NetResponse (feed_response (unique_feed n)))) [] [].

Definition like_120 : gmap string Z := {[ "like"%string := 120 ]}.

(** ** encrypt_token and decrypt_token

    Bytes are [Ascii.ascii].  The functions of the Python library that the two
    methods call are taken as they are documented: [pbkdf2_hmac] with the
    fixed password, iteration count and digest of the source (a function of
    the salt alone), [base64.b64encode] and [b64decode], [str.encode] and
    [bytes.decode]; [None] stands for the exception of the decoders. *)

(** [str.isspace] on the characters below 256. *)
Definition is_space (c : Ascii.ascii) : bool :=
  let n := Ascii.nat_of_ascii c in
  ((9 <=? n) && (n <=? 13) || (28 <=? n) && (n <=? 32)
   || (n =? 133) || (n =? 160))%nat.

Record Library : Type := mkLibrary {
  pbkdf2_hmac : list Ascii.ascii -> list Ascii.ascii;
  b64encode : list Ascii.ascii -> string;
  b64decode : string -> option (list Ascii.ascii);
  str_encode : string -> list Ascii.ascii;
  bytes_decode : list Ascii.ascii -> option string
}.

(** What the documentation of the library promises: a SHA-256 key has 32
    bytes, the decoders undo the encoders, and base64 text has no white
    space and is empty for no bytes. *)
Record lawful (L : Library) : Prop := mkLawful {
  key_length : forall salt, length (pbkdf2_hmac L salt) = 32%nat;
  b64_round_trip : forall data, b64decode L (b64encode L data) = Some data;
  b64_empty : b64encode L [] = ""%string;
  str_round_trip : forall s, bytes_decode L (str_encode L s) = Some s;
  bytes_round_trip : forall data s,
    bytes_decode L data = Some s -> str_encode L s = data;
  b64_alphabet : forall data,
    Forall (fun c => is_space c = false)
           (String.list_ascii_of_string (b64encode L data))
}.

(** [a ^ b] on bytes. *)
Definition xor_ascii (a b : Ascii.ascii) : Ascii.ascii :=
  match a, b with
  | Ascii.Ascii a0 a1 a2 a3 a4 a5 a6 a7, Ascii.Ascii b0 b1 b2 b3 b4 b5 b6 b7 =>
      Ascii.Ascii (xorb a0 b0) (xorb a1 b1) (xorb a2 b2) (xorb a3 b3)
            (xorb a4 b4) (xorb a5 b5) (xorb a6 b6) (xorb a7 b7)
  end.

(** [bytes(a ^ b for a, b in zip(data, key[:len(data)]))] *)
Definition xor_with_key (data key : list Ascii.ascii) : list Ascii.ascii :=
  zip_with xor_ascii data (take (length data) key).

(** [encrypt_token]; [salt] is what [os.urandom(16)] returns. *)
Definition encrypt_token (L : Library) (salt : list Ascii.ascii) (token : string)
  : string :=
  let key := pbkdf2_hmac L salt in
  let token_bytes := str_encode L token in
  let encrypted := xor_with_key token_bytes key in
  b64encode L (salt ++ encrypted).

(** [decrypt_token]: the bare [except] turns every exception into [None]. *)
Definition decrypt_token (L : Library) (encrypted_token : string)
  : option string :=
  match b64decode L encrypted_token with
  | None => None
  | Some data =>
      let salt := take 16 data in
      let encrypted := drop 16 data in
      let key := pbkdf2_hmac L salt in
      let token_bytes := xor_with_key encrypted key in
      bytes_decode L token_bytes
  end.

(** ** load_accounts and load_messages *)

Fixpoint lstrip (l : list Ascii.ascii) : list Ascii.ascii :=
  match l with
  | [] => []
  | c :: rest => if is_space c then lstrip rest else l
  end.

Fixpoint rstrip (l : list Ascii.ascii) : list Ascii.ascii :=
  match l with
  | [] => []
  | c :: rest =>
      match rstrip rest with
      | [] => if is_space c then [] else [c]
      | kept => c :: kept
      end
  end.

(** [s.strip()] *)
Definition py_strip (s : string) : string :=
  String.string_of_list_ascii (rstrip (lstrip (String.list_ascii_of_string s))).

(** [s.startswith('#')] *)
Definition starts_with_hash (s : string) : bool :=
  match s with
  | String c _ => String.eqb (String c EmptyString) "#"
  | EmptyString => false
  end.

Definition nonempty_str (s : string) : bool :=
  match s with EmptyString => false | _ => true end.

(** The loop [for encrypted_token in encrypted_tokens] of [load_accounts]. *)
Fixpoint append_decrypted (L : Library) (encrypted_tokens : list string)
    (accounts : list string) : list string :=
  match encrypted_tokens with
  | [] => accounts
  | encrypted_token :: rest =>
      match decrypt_token L encrypted_token with
      | Some token =>
          if nonempty_str token
          then append_decrypted L rest (accounts ++ [token])
          else append_decrypted L rest accounts
      | None => append_decrypted L rest accounts
      end
  end.

(** [load_accounts]: [file] holds the lines of the account file, [None]
    when the file does not exist; [accounts] is [self.accounts] before the
    call.  Returns the result and [self.accounts] after the call. *)
Definition load_accounts (L : Library) (file : option (list string))
    (accounts : list string) : bool * list string :=
  match file with
  | Some lines =>
      let encrypted_tokens :=
        py_strip <$> List.filter (fun line => nonempty_str (py_strip line)) lines in
      let accounts' := append_decrypted L encrypted_tokens accounts in
      (nonempty accounts', accounts')
  | None => (false, accounts)
  end.

(** [load_messages]: returns the result and [self.messages] after the
    call. *)
Definition load_messages (file : option (list string))
    (messages : list string) : bool * list string :=
  match file with
  | Some lines =>
      (true,
       py_strip <$>
         List.filter (fun line => nonempty_str (py_strip line)
                                  && negb (starts_with_hash line)) lines)
  | None => (false, messages)
  end.

(** ** countdown_timer: the fields of the display *)

(** [hours], [minutes] and [secs] of one tick, from [remaining]. *)
Definition countdown_fields (remaining : Z) : Z * Z * Z :=
  (remaining / 3600, (remaining mod 3600) / 60, remaining mod 60).

(** ** setup_accounts *)

(** [c.lower()] on the characters below 256. *)
Definition lower_ascii (c : Ascii.ascii) : Ascii.ascii :=
  let n := Ascii.nat_of_ascii c in
  if ((65 <=? n) && (n <=? 90) || (192 <=? n) && (n <=? 222) && negb (n =? 215))%nat
  then Ascii.ascii_of_nat (n + 32)
  else c.

Definition py_lower (s : string) : string :=
  String.string_of_list_ascii (lower_ascii <$> String.list_ascii_of_string s).

(** The prompt loop of [setup_accounts] over the lines still to be typed;
    [None] when the input ends before ['done'] ([input] raises). *)
Fixpoint read_tokens (inputs : list string) (accounts : list string)
  : option (list string) :=
  match inputs with
  | [] => None
  | line :: rest =>
      let token := py_strip line in
      if String.eqb (py_lower token) "done" then Some accounts
      else if nonempty_str token then read_tokens rest (accounts ++ [token])
      else read_tokens rest accounts
  end.

(** The lines that [setup_accounts] writes for [accounts]; [urandom i] is
    the salt drawn for the token at position [i]. *)
Definition account_lines (L : Library) (urandom : nat -> list Ascii.ascii)
    (accounts : list string) : list string :=
  imap (fun i token => (encrypt_token L (urandom i) token ++ String.String (Ascii.ascii_of_nat 10) EmptyString)%string)
       accounts.

(** [setup_accounts]: the account file afterwards ([file] before), [None]
    when the input ends early. *)
Definition setup_accounts (L : Library) (urandom : nat -> list Ascii.ascii)
    (inputs : list string) (file : option (list string))
  : option (option (list string)) :=
  match read_tokens inputs [] with
  | None => None
  | Some accounts =>
      if nonempty accounts
      then Some (Some (account_lines L urandom accounts))
      else Some file
  end.

(** A stand-in for the library, to run the models on: the key does not
    depend on the salt, a string is its own encoding, and the transfer
    encoding writes every byte as eight characters 0 or 1. *)
Definition bit_char (b : bool) : Ascii.ascii :=
  Ascii.ascii_of_nat (if b then 49 else 48).

Definition char_bit (c : Ascii.ascii) : bool :=
  Ascii.eqb c (Ascii.ascii_of_nat 49).

Definition byte_chars (a : Ascii.ascii) : list Ascii.ascii :=
  match a with
  | Ascii.Ascii b0 b1 b2 b3 b4 b5 b6 b7 =>
      bit_char <$> [b0; b1; b2; b3; b4; b5; b6; b7]
  end.

Fixpoint chars_bytes (l : list Ascii.ascii) : list Ascii.ascii :=
  match l with
  | c0 :: c1 :: c2 :: c3 :: c4 :: c5 :: c6 :: c7 :: rest =>
      Ascii.Ascii (char_bit c0) (char_bit c1) (char_bit c2) (char_bit c3)
                  (char_bit c4) (char_bit c5) (char_bit c6) (char_bit c7)
      :: chars_bytes rest
  | _ => []
  end.

Definition bit_library : Library :=
  mkLibrary (fun _ => replicate 32 (Ascii.ascii_of_nat 90))
            (fun data => String.string_of_list_ascii (data ≫= byte_chars))
            (fun s => Some (chars_bytes (String.list_ascii_of_string s)))
            String.list_ascii_of_string
            (fun data => Some (String.string_of_list_ascii data)).

Definition salt_a : list Ascii.ascii := replicate 16 (Ascii.ascii_of_nat 7).

(** ** The prompts of run_focused_mode and run_continuous_mode

    [inputs] are the lines still to be typed; [parse_int] is [int()] on a
    line, [None] for its [ValueError]. *)

Definition action_map (choice : string) : option (list string) :=
  if String.eqb choice "1" then Some ["like"%string]
  else if String.eqb choice "2" then Some ["recast"%string]
  else if String.eqb choice "3" then Some ["follow"%string]
  else if String.eqb choice "4" then Some ["like"; "recast"]%string
  else if String.eqb choice "5" then Some ["like"; "follow"]%string
  else if String.eqb choice "6" then Some ["recast"; "follow"]%string
  else if String.eqb choice "7" then Some ["like"; "recast"; "follow"]%string
  else None.

(** The loop [while True: try: target = int(input(...)) ...] for one action:
    the accepted target and the lines left, [None] when the input ends
    first ([input] raises). *)
Fixpoint read_target (parse_int : string -> option Z) (inputs : list string)
  : option (Z * list string) :=
  match inputs with
  | [] => None
  | line :: rest =>
      match parse_int line with
      | Some target =>
          if 0 <? target then Some (target, rest)
          else read_target parse_int rest
      | None => read_target parse_int rest
      end
  end.

(** [for action in selected_actions] around it. *)
Fixpoint read_targets (parse_int : string -> option Z)
    (selected_actions : list string) (inputs : list string)
    (action_targets : gmap string Z) : option (gmap string Z * list string) :=
  match selected_actions with
  | [] => Some (action_targets, inputs)
  | action :: rest =>
      match read_target parse_int inputs with
      | None => None
      | Some (target, inputs') =>
          read_targets parse_int rest inputs' (<[action := target]> action_targets)
      end
  end.

Inductive Prompted : Type :=
  | EndOfInput
  | InvalidChoice
  | Plan (selected_actions : list string) (action_targets : gmap string Z)
         (post_cast : bool) (rest : list string).

(** The prompts up to the question about posting. *)
Definition read_plan (parse_int : string -> option Z) (inputs : list string)
  : Prompted :=
  match inputs with
  | [] => EndOfInput
  | choice :: inputs1 =>
      match action_map (py_strip choice) with
      | None => InvalidChoice
      | Some selected_actions =>
          match read_targets parse_int selected_actions inputs1 ∅ with
          | None => EndOfInput
          | Some (action_targets, inputs2) =>
              match inputs2 with
              | [] => EndOfInput
              | answer :: inputs3 =>
                  Plan selected_actions action_targets
                       (String.eqb (py_strip (py_lower answer)) "y") inputs3
              end
          end
      end
  end.

(** A stand-in for [int()] that reads the lines used in the examples. *)
Definition example_int (line : string) : option Z :=
  if String.eqb line "120" then Some 120
  else if String.eqb line "30" then Some 30
  else if String.eqb line "0" then Some 0
  else if String.eqb line "-5" then Some (-5)
  else None.

(** ** Vocabulary of the further properties *)

Definition is_request (e : Event) : bool :=
  match e with EvRequest _ => true | _ => false end.

(** An outcome after which [make_request] tries again: a transport failure,
    or a 429 with a readable [Retry-After]. *)
Definition retryable (ev : NetEvent) : Prop :=
  ev = NetError \/ exists secs, rate_limited secs ev.


(** The wait between two targets of a run of [action_type]. *)
Definition wait_of (cfg : Config) (action_type : string) : Event :=
  if String.eqb action_type "follow"
  then EvJitter (follow_min (rate_limit_delay cfg)) (follow_max (rate_limit_delay cfg))
  else EvJitter (delay_min (rate_limit_delay cfg)) (delay_max (rate_limit_delay cfg)).

(** The statistics [stats'] have the keys of [stats], and no counter went
    down or up by more than [bound] says. *)
Definition grows (bound : string -> Z) (stats stats' : gmap string Z) : Prop :=
  dom stats' = dom stats
  /\ forall key v, stats !! key = Some v ->
       exists v', stats' !! key = Some v' /\ v <= v' <= v + bound key.

(** What one account may add to the counter [key]: the target of [key] when
    it is a selected action, one post when posting is on. *)
Definition account_bound (selected_actions : list string)
    (action_targets : gmap string Z) (post_cast : bool) (key : string) : Z :=
  (if bool_decide (key ∈ selected_actions)
   then default 0 (action_targets !! key) else 0)
  + (if post_cast && String.eqb key "posts" then 1 else 0).

(** The default configuration with the batch size set to 0. *)
Definition zero_batch_config : Config :=
  mkConfig "https://farcaster.xyz/~api/v2" "home" "default"
           (mkDelay 3 8 8 15) 0 3.

(** * Properties *)

(** ** The monad *)

Lemma bind_ok {A B : Type} (m : M A) (k : A -> M B) (w w1 : World) (a : A) :
  m w = (Ok a, w1) -> bind m k w = k a w1.
Proof. intros H. unfold bind. rewrite H. reflexivity. Qed.

Lemma bind_inv_ok {A B : Type} (m : M A) (k : A -> M B) (w w' : World) (b : B) :
  bind m k w = (Ok b, w') ->
  exists a w1, m w = (Ok a, w1) /\ k a w1 = (Ok b, w').
Proof.
  unfold bind. destruct (m w) as [[a| |] w1]; intros H; try discriminate.
  exists a, w1. split; [reflexivity | exact H].
Qed.

Lemma sleep_ok (secs : Z) (w : World) :
  0 <= secs ->
  sleep secs w = (Ok tt, mkWorld (net w) (rnd w) (trace w ++ [EvSleep secs])).
Proof.
  intros H. unfold sleep. destruct (Z.ltb_spec secs 0); [lia | reflexivity].
Qed.

(** ** make_request *)

Section MakeRequest.
Variable cfg : Config.
Variable rq : Request.

Lemma request_loop_error_retry (attempt : Z) (rest : list Z) (w w1 : World) :
  session_request rq w = (Ok NetError, w1) ->
  attempt < max_retries cfg - 1 ->
  request_loop cfg rq (attempt :: rest) w =
  request_loop cfg rq rest
    (mkWorld (net w1) (rnd w1) (trace w1 ++ [EvSleep (2 ^ attempt)])).
Proof.
  intros Hreq Hlt. cbn [request_loop].
  rewrite (bind_ok _ _ _ _ _ Hreq).
  destruct (Z.ltb_spec attempt (max_retries cfg - 1)); [| lia].
  rewrite (bind_ok _ _ _ _ _ (sleep_ok (2 ^ attempt) w1 (Z.pow_nonneg 2 attempt ltac:(lia)))).
  reflexivity.
Qed.

Lemma request_loop_error_final (attempt : Z) (rest : list Z) (w w1 : World) :
  session_request rq w = (Ok NetError, w1) ->
  max_retries cfg - 1 <= attempt ->
  request_loop cfg rq (attempt :: rest) w = (Ok None, w1).
Proof.
  intros Hreq Hge. cbn [request_loop].
  rewrite (bind_ok _ _ _ _ _ Hreq).
  destruct (Z.ltb_spec attempt (max_retries cfg - 1)); [lia | reflexivity].
Qed.

Lemma request_loop_429 (attempt : Z) (rest : list Z) (w w1 : World)
    (response : Response) (secs : Z) :
  session_request rq w = (Ok (NetResponse response), w1) ->
  status_code response = 429 ->
  int_retry_after (retry_after response) = Ok secs ->
  0 <= secs ->
  request_loop cfg rq (attempt :: rest) w =
  request_loop cfg rq rest
    (mkWorld (net w1) (rnd w1) (trace w1 ++ [EvSleep secs])).
Proof.
  intros Hreq H429 Hint Hsecs. cbn [request_loop].
  rewrite (bind_ok _ _ _ _ _ Hreq). rewrite H429. cbn [Z.eqb Pos.eqb].
  unfold bind at 1. unfold lift. rewrite Hint.
  rewrite (bind_ok _ _ _ _ _ (sleep_ok secs w1 Hsecs)).
  reflexivity.
Qed.

Lemma session_request_cons (ev : NetEvent) (script : list NetEvent) (w : World) :
  net w = ev :: script ->
  session_request rq w =
  (Ok ev, mkWorld script (rnd w) (trace w ++ [EvRequest rq])).
Proof. intros H. unfold session_request. rewrite H. reflexivity. Qed.

(** As many consecutive 429 responses as there are attempts left use the
    attempts up: the loop ends and the call returns [None]. *)
Lemma request_loop_rate_limited (waits : list Z) :
  forall (script : list NetEvent) (attempts : list Z) (w : World)
         (net' : list NetEvent),
    Forall2 rate_limited waits script ->
    length attempts = length script ->
    net w = script ++ net' ->
    request_loop cfg rq attempts w =
    (Ok None, mkWorld net' (rnd w) (trace w ++ rate_limit_trace rq waits)).
Proof.
  induction waits as [|secs waits IH]; intros script attempts w net' HF Hlen Hnet.
  - inversion HF; subst. destruct attempts; [| discriminate].
    cbn. rewrite app_nil_r. destruct w; cbn in *; subst; reflexivity.
  - inversion HF as [|? ev ? script' (r & -> & H429 & Hint & Hsecs) HF']; subst.
    destruct attempts as [|attempt rest]; [discriminate |].
    cbn in Hnet.
    rewrite (request_loop_429 attempt rest w _ r secs
               (session_request_cons _ _ _ Hnet) H429 Hint Hsecs).
    cbn [net rnd trace].
    rewrite (IH script' rest _ net' HF'); [| cbn in Hlen; lia | reflexivity].
    cbn [net rnd trace rate_limit_trace flat_map].
    rewrite <- !app_assoc. reflexivity.
Qed.
End MakeRequest.

Lemma make_request_unfold (cfg : Config) (method endpoint bearer_token : string)
    (payload : Payload) :
  make_request cfg method endpoint bearer_token payload =
  request_loop cfg (the_request cfg method endpoint bearer_token payload)
               (seqZ 0 (max_retries cfg)).
Proof. reflexivity. Qed.

(** C9.  A transport failure (connection error, timeout) on an attempt that
    is not the last is followed by a sleep of [2 ^ attempt] seconds and the
    next attempt; on the last attempt the call returns [None] at once; and
    with [max_retries = 3], three transport failures in a row give exactly
    three requests, the waits 1 and 2 between them, and [None], leaving the
    rest of the network script untouched. *)
Theorem transport_failure_backoff (cfg : Config)
    (method endpoint bearer_token : string) (payload : Payload)
    (attempt : Z) (rest : list Z) (w w1 : World) :
  let rq := the_request cfg method endpoint bearer_token payload in
  session_request rq w = (Ok NetError, w1) ->
  (attempt < max_retries cfg - 1 ->
   request_loop cfg rq (attempt :: rest) w =
   request_loop cfg rq rest
     (mkWorld (net w1) (rnd w1) (trace w1 ++ [EvSleep (2 ^ attempt)])))
  /\ (max_retries cfg - 1 <= attempt ->
      request_loop cfg rq (attempt :: rest) w = (Ok None, w1))
  /\ (max_retries cfg = 3 ->
      forall (w3 : World) (net' : list NetEvent),
        net w3 = NetError :: NetError :: NetError :: net' ->
        make_request cfg method endpoint bearer_token payload w3 =
        (Ok None,
         mkWorld net' (rnd w3)
           (trace w3 ++ [EvRequest rq; EvSleep 1; EvRequest rq; EvSleep 2;
                         EvRequest rq]))).
Proof.
  intros rq Herr. split; [| split].
  - intros Hlt. exact (request_loop_error_retry cfg rq attempt rest w w1 Herr Hlt).
  - intros Hge. exact (request_loop_error_final cfg rq attempt rest w w1 Herr Hge).
  - intros H3 w3 net' Hnet. rewrite make_request_unfold. fold rq. rewrite H3.
    change (seqZ 0 3) with [0; 1; 2].
    destruct w3 as [script draws events]. cbn in Hnet. subst script.
    erewrite (request_loop_error_retry cfg rq 0 [1; 2]); [| reflexivity | lia].
    cbn [net rnd trace].
    erewrite (request_loop_error_retry cfg rq 1 [2]); [| reflexivity | lia].
    cbn [net rnd trace].
    erewrite (request_loop_error_final cfg rq 2 []); [| reflexivity | lia].
    cbn [net rnd trace]. rewrite <- !app_assoc. reflexivity.
Qed.

Lemma transport_failure_backoff_witness :
  let w := mkWorld [NetError; NetError; NetError; NetResponse ok_response] [] [] in
  request_loop default_config like_request [0; 1; 2] w =
  request_loop default_config like_request [1; 2]
    (mkWorld [NetError; NetError; NetResponse ok_response] []
             [EvRequest like_request; EvSleep 1])
  /\ request_loop default_config like_request [2] w =
     (Ok None,
      mkWorld [NetError; NetError; NetResponse ok_response] []
              [EvRequest like_request])
  /\ make_request default_config "PUT" "cast-likes" "token" like_payload w =
     (Ok None,
      mkWorld [NetResponse ok_response] []
        [EvRequest like_request; EvSleep 1; EvRequest like_request;
         EvSleep 2; EvRequest like_request]).
Proof.
  intros w.
  split; [| split].
  - apply (transport_failure_backoff default_config "PUT" "cast-likes" "token"
             like_payload 0 [1; 2] w
             (mkWorld [NetError; NetError; NetResponse ok_response] []
                      [EvRequest like_request])); [reflexivity | vm_compute; reflexivity].
  - apply (transport_failure_backoff default_config "PUT" "cast-likes" "token"
             like_payload 2 [] w
             (mkWorld [NetError; NetError; NetResponse ok_response] []
                      [EvRequest like_request])); [reflexivity | vm_compute; discriminate].
  - apply (transport_failure_backoff default_config "PUT" "cast-likes" "token"
             like_payload 0 [] w
             (mkWorld [NetError; NetError; NetResponse ok_response] []
                      [EvRequest like_request])); reflexivity.
Defined.

(** C1, as the code has it.  A 429 response makes the client sleep for the
    [Retry-After] duration (60 seconds when the header is absent) and go on
    to the next attempt of the loop over [range(max_retries)], so the retry
    does consume an attempt; when every one of the [max_retries] attempts is
    answered by a 429, the call sends [max_retries] requests, waits after
    each, and returns [None]. *)
Theorem rate_limit_consumes_attempt (cfg : Config)
    (method endpoint bearer_token : string) (payload : Payload)
    (attempt : Z) (rest : list Z) (w w1 : World) (response : Response)
    (secs : Z) :
  let rq := the_request cfg method endpoint bearer_token payload in
  session_request rq w = (Ok (NetResponse response), w1) ->
  status_code response = 429 ->
  int_retry_after (retry_after response) = Ok secs ->
  0 <= secs ->
  request_loop cfg rq (attempt :: rest) w =
  request_loop cfg rq rest
    (mkWorld (net w1) (rnd w1) (trace w1 ++ [EvSleep secs]))
  /\ (retry_after response = HAbsent -> secs = 60)
  /\ (forall (waits : list Z) (script net' : list NetEvent) (w0 : World),
        Forall2 rate_limited waits script ->
        Z.of_nat (length script) = max_retries cfg ->
        net w0 = script ++ net' ->
        make_request cfg method endpoint bearer_token payload w0 =
        (Ok None,
         mkWorld net' (rnd w0) (trace w0 ++ rate_limit_trace rq waits))).
Proof.
  intros rq Hreq H429 Hint Hsecs. split; [| split].
  - exact (request_loop_429 cfg rq attempt rest w w1 response secs
             Hreq H429 Hint Hsecs).
  - intros Habs. rewrite Habs in Hint. cbn in Hint. congruence.
  - intros waits script net' w0 HF Hlen Hnet. rewrite make_request_unfold. fold rq.
    apply (request_loop_rate_limited cfg rq waits script); [exact HF | | exact Hnet].
    rewrite length_seqZ. lia.
Qed.

Lemma rate_limit_consumes_attempt_witness :
  let w := mkWorld [NetResponse (limited (HInt 5)); NetResponse (limited HAbsent);
                    NetResponse (limited (HInt 5)); NetResponse ok_response] [] [] in
  request_loop default_config like_request [0; 1; 2] w =
  request_loop default_config like_request [1; 2]
    (mkWorld [NetResponse (limited HAbsent); NetResponse (limited (HInt 5));
              NetResponse ok_response] []
             [EvRequest like_request; EvSleep 5])
  /\ make_request default_config "PUT" "cast-likes" "token" like_payload w =
     (Ok None,
      mkWorld [NetResponse ok_response] []
        [EvRequest like_request; EvSleep 5; EvRequest like_request;
         EvSleep 60; EvRequest like_request; EvSleep 5]).
Proof.
  intros w.
  pose proof (rate_limit_consumes_attempt default_config "PUT" "cast-likes"
                "token" like_payload 0 [1; 2] w
                (mkWorld [NetResponse (limited HAbsent);
                          NetResponse (limited (HInt 5));
                          NetResponse ok_response] []
                         [EvRequest like_request])
                (limited (HInt 5)) 5 eq_refl eq_refl eq_refl ltac:(lia))
    as (Hstep & _ & Hall).
  split; [exact Hstep |].
  apply (Hall [5; 60; 5]
              [NetResponse (limited (HInt 5)); NetResponse (limited HAbsent);
               NetResponse (limited (HInt 5))]
              [NetResponse ok_response] w); [| reflexivity | reflexivity].
  repeat constructor;
    eexists; (split; [reflexivity |]); (split; [reflexivity |]);
    (split; [reflexivity | lia]).
Defined.

(** C1 as stated fails: with [max_retries = 3], three 429 responses in a row
    make the call return [None]; the 200 response that a fourth request
    would have received is never asked for. *)
Lemma rate_limit_retry_is_bounded :
  let w := mkWorld [NetResponse (limited (HInt 5)); NetResponse (limited (HInt 5));
                    NetResponse (limited (HInt 5)); NetResponse ok_response] [] [] in
  make_request default_config "PUT" "cast-likes" "token" like_payload w =
  (Ok None,
   mkWorld [NetResponse ok_response] []
     [EvRequest like_request; EvSleep 5; EvRequest like_request; EvSleep 5;
      EvRequest like_request; EvSleep 5])
  /\ fst (make_request default_config "PUT" "cast-likes" "token" like_payload w)
     <> Ok (Some ok_response).
Proof. split; [reflexivity | discriminate]. Qed.

(** A [Retry-After] header that [int()] rejects is not read as 60 seconds:
    the [ValueError] leaves [make_request]. *)
Lemma invalid_retry_after_raises :
  let w := mkWorld [NetResponse (limited HInvalid); NetResponse ok_response] [] [] in
  make_request default_config "PUT" "cast-likes" "token" like_payload w =
  (Raise ValueError, mkWorld [NetResponse ok_response] [] [EvRequest like_request]).
Proof. reflexivity. Qed.

(** ** like_cast, recast, follow_user, post_cast *)

Lemma status_is_true (code : Z) (resp : option Response) :
  code < 400 ->
  status_is code resp = true <-> exists r, resp = Some r /\ status_code r = code.
Proof.
  intros Hcode. unfold status_is, response_ok. split.
  - destruct resp as [r|]; [| discriminate].
    destruct (negb _); [| discriminate].
    intros H%Z.eqb_eq. eauto.
  - intros (r & -> & Hr). rewrite Hr.
    destruct (Z.leb_spec 400 code); [lia |]. cbn. apply Z.eqb_refl.
Qed.

Lemma classify_response (code : Z) (call : M (option Response)) (w w' : World)
    (resp : option Response) :
  call w = (Ok resp, w') ->
  bind call (fun response => ret (status_is code response)) w =
  (Ok (status_is code resp), w').
Proof. intros H. rewrite (bind_ok _ _ _ _ _ H). reflexivity. Qed.

(** C4.  Whatever the credential and the target: when the request behind
    the operation ends with the result [resp], [like_cast], [recast] and
    [follow_user] return whether [resp] is a response of status 200 and
    [post_cast] whether it is one of status 201.  So a post answered by a 200
    fails, and an absent response ([None], retries used up) makes each of the
    four return [False], as a value and not as an exception. *)
Theorem action_success_codes (cfg : Config) (bearer_token : string)
    (cast_hash target_fid : JSON) (text : string) (w w' : World)
    (resp : option Response) :
  (make_request cfg "PUT" "cast-likes" bearer_token (PCastHash cast_hash) w
     = (Ok resp, w') ->
   like_cast cfg bearer_token cast_hash w = (Ok (status_is 200 resp), w'))
  /\ (make_request cfg "PUT" "recasts" bearer_token (PCastHash cast_hash) w
        = (Ok resp, w') ->
      recast cfg bearer_token cast_hash w = (Ok (status_is 200 resp), w'))
  /\ (make_request cfg "PUT" "follows" bearer_token (PTargetFid target_fid) w
        = (Ok resp, w') ->
      follow_user cfg bearer_token target_fid w = (Ok (status_is 200 resp), w'))
  /\ (make_request cfg "POST" "casts" bearer_token (PText text) w
        = (Ok resp, w') ->
      post_cast cfg bearer_token text w = (Ok (status_is 201 resp), w'))
  /\ (status_is 200 resp = true <->
      exists r, resp = Some r /\ status_code r = 200)
  /\ (status_is 201 resp = true <->
      exists r, resp = Some r /\ status_code r = 201)
  /\ (forall r, resp = Some r -> status_code r = 200 ->
                status_is 201 resp = false)
  /\ (resp = None -> status_is 200 resp = false /\ status_is 201 resp = false).
Proof.
  repeat split.
  - apply classify_response.
  - apply classify_response.
  - apply classify_response.
  - apply classify_response.
  - apply status_is_true; lia.
  - intros H. apply status_is_true; [lia | exact H].
  - apply status_is_true; lia.
  - intros H. apply status_is_true; [lia | exact H].
  - intros r -> Hr. cbn. rewrite Hr. destruct (response_ok r); reflexivity.
  - subst. reflexivity.
  - subst. reflexivity.
Qed.

Lemma action_success_codes_witness :
  let w := mkWorld [NetResponse ok_response] [] [] in
  like_cast default_config "token" (JStr "0x1f") w =
    (Ok true, mkWorld [] [] [EvRequest like_request])
  /\ fst (recast default_config "token" (JStr "0x1f") w) = Ok true
  /\ fst (follow_user default_config "token" (JInt 7) w) = Ok true
  /\ fst (post_cast default_config "token" "gm" w) = Ok false
  /\ fst (post_cast default_config "token" "gm"
            (mkWorld [NetResponse (mkResponse 201 HAbsent None)] [] [])) = Ok true
  /\ fst (like_cast default_config "token" (JStr "0x1f") (mkWorld [] [] []))
     = Ok false.
Proof.
  intros w.
  pose proof (action_success_codes default_config "token" (JStr "0x1f") (JInt 7)
                "gm" w (mkWorld [] [] [EvRequest like_request])
                (Some ok_response)) as (Hlike & _).
  split; [exact (Hlike eq_refl) |].
  repeat split; reflexivity.
Defined.

(** ** The batch loop of focus mode *)

Lemma batch_sizes_spec (batch_size : Z) :
  0 < batch_size ->
  forall (fuel : nat) (remaining : Z),
    (Z.to_nat remaining <= fuel)%nat ->
    exists sizes,
      batch_sizes fuel batch_size remaining = Some sizes
      /\ sum_Z sizes = Z.max 0 remaining
      /\ Forall (fun b => 0 < b <= batch_size) sizes.
Proof.
  intros Hb. induction fuel as [|fuel IH]; intros remaining Hfuel.
  - cbn. destruct (Z.ltb_spec 0 remaining); [lia |].
    exists []. repeat split; [cbn; lia | constructor].
  - cbn [batch_sizes]. destruct (Z.ltb_spec 0 remaining) as [Hpos|Hnonpos].
    + destruct (IH (remaining - Z.min batch_size remaining)) as (rest & Hrest & Hsum & Hall);
        [lia |].
      rewrite Hrest. eexists. split; [reflexivity |]. split.
      * cbn [sum_Z foldr]. fold (sum_Z rest). rewrite Hsum. lia.
      * constructor; [lia | exact Hall].
    + exists []. repeat split; [cbn; lia | constructor].
Qed.

(** ** What a call of make_request does to the world *)

Lemma tame_app (l1 l2 : list NetEvent) : tame (l1 ++ l2) -> tame l1 /\ tame l2.
Proof.
  unfold tame. rewrite forallb_app. intros H%andb_prop. exact H.
Qed.

Lemma tame_suffix (l1 l2 : list NetEvent) : l1 `suffix_of` l2 -> tame l2 -> tame l1.
Proof. intros [k ->] H. apply (tame_app k l1 H). Qed.

Lemma request_loop_io (cfg : Config) (rq : Request) :
  forall (attempts : list Z) (w : World) (r : Res (option Response)) (w' : World),
    request_loop cfg rq attempts w = (r, w') ->
    io_run rq w r w'
    /\ (attempts <> [] -> exists evs, trace w' = trace w ++ EvRequest rq :: evs).
Proof.
  induction attempts as [|attempt rest IH]; intros w r w' Hrun.
  - cbn in Hrun. injection Hrun as <- <-.
    split; [| congruence]. exists []. rewrite app_nil_r.
    repeat split; [constructor | reflexivity | discriminate | eauto].
  - cbn [request_loop] in Hrun.
    set (w1 := mkWorld (tail (net w)) (rnd w) (trace w ++ [EvRequest rq])).
    assert (Hreq : exists ev, session_request rq w = (Ok ev, w1)
                   /\ (tame (net w) -> tame_event ev = true)).
    { unfold session_request, w1. destruct (net w) as [|ev script] eqn:E.
      - exists NetError. split; reflexivity.
      - exists ev. split; [reflexivity |].
        unfold tame. cbn. intros H%andb_prop. apply H. }
    destruct Hreq as (ev & Hreq & Hev).
    rewrite (bind_ok _ _ _ _ _ Hreq) in Hrun.
    assert (Hsuf : net w1 `suffix_of` net w).
    { unfold w1; cbn. destruct (net w); [reflexivity |]. apply suffix_cons_r. reflexivity. }
    (* the call ending right after the request *)
    assert (Hstop : forall x : Res (option Response),
      x <> OutOfFuel ->
      (tame (net w) -> exists a, x = Ok a) ->
      (x, w1) = (r, w') ->
      io_run rq w r w'
      /\ (attempt :: rest <> [] -> exists evs, trace w' = trace w ++ EvRequest rq :: evs)).
    { intros x Hx Hok [= <- <-]. split; [| intros _; exists []; reflexivity].
      exists [EvRequest rq]. split; [reflexivity |].
      split; [constructor; [left; reflexivity | constructor] |].
      split; [reflexivity |]. split; [exact Hsuf |].
      split; [exact Hx | exact Hok]. }
    (* the loop going on after a sleep of [secs] seconds *)
    assert (Hnext : forall secs,
      bind (sleep secs) (fun _ => request_loop cfg rq rest) w1 = (r, w') ->
      (tame (net w) -> 0 <= secs) ->
      io_run rq w r w'
      /\ (attempt :: rest <> [] -> exists evs, trace w' = trace w ++ EvRequest rq :: evs)).
    { intros secs Hgo Hsecs. destruct (Z.ltb_spec secs 0) as [Hneg|Hpos].
      { unfold bind, sleep in Hgo. destruct (Z.ltb_spec secs 0); [| lia].
        cbn in Hgo. apply (Hstop (Raise ValueError)); [discriminate | | exact Hgo].
        intros Hw. specialize (Hsecs Hw). lia. }
      rewrite (bind_ok _ _ _ _ _ (sleep_ok secs w1 Hpos)) in Hgo.
      destruct (IH _ _ _ Hgo) as [(evs & Htr & Hio & Hrnd & Hnet & Hfuel & Htame) _].
      split.
      - exists (EvRequest rq :: EvSleep secs :: evs).
        split.
        { rewrite Htr. unfold w1; cbn. rewrite <- !app_assoc. reflexivity. }
        split.
        { constructor; [left; reflexivity |].
          constructor; [right; eauto | exact Hio]. }
        split; [exact Hrnd |].
        split; [etrans; [exact Hnet | exact Hsuf] |].
        split; [exact Hfuel |].
        intros Hw. apply Htame. apply (tame_suffix _ _ Hsuf Hw).
      - intros _. exists (EvSleep secs :: evs). rewrite Htr. unfold w1; cbn.
        rewrite <- !app_assoc. reflexivity. }
    destruct ev as [response|].
    + destruct (status_code response =? 429) eqn:E429.
      * destruct (retry_after response) as [|secs|] eqn:Ehdr;
          cbn [int_retry_after] in Hrun; unfold bind at 1, lift in Hrun.
        -- apply (Hnext 60 Hrun). lia.
        -- apply (Hnext secs Hrun). intros Hw. specialize (Hev Hw).
           cbn in Hev. rewrite E429, Ehdr in Hev. apply Z.leb_le in Hev. exact Hev.
        -- apply (Hstop (Raise ValueError)); [discriminate | | exact Hrun].
           intros Hw. specialize (Hev Hw). cbn in Hev.
           rewrite E429, Ehdr in Hev. discriminate.
      * apply (Hstop (Ok (Some response))); [discriminate | eauto | exact Hrun].
    + destruct (attempt <? max_retries cfg - 1).
      * apply (Hnext (2 ^ attempt) Hrun). intros _. apply Z.pow_nonneg. lia.
      * apply (Hstop (Ok None)); [discriminate | eauto | exact Hrun].
Qed.

Lemma make_request_io (cfg : Config) (method endpoint bearer_token : string)
    (payload : Payload) (w : World) (r : Res (option Response)) (w' : World) :
  make_request cfg method endpoint bearer_token payload w = (r, w') ->
  let rq := the_request cfg method endpoint bearer_token payload in
  io_run rq w r w'
  /\ (0 < max_retries cfg -> exists evs, trace w' = trace w ++ EvRequest rq :: evs).
Proof.
  rewrite make_request_unfold. intros Hrun rq.
  destruct (request_loop_io cfg rq _ _ _ _ Hrun) as [Hio Hreq].
  split; [exact Hio |].
  intros Hpos. apply Hreq. intros Hnil.
  apply (f_equal length) in Hnil. rewrite length_seqZ in Hnil. cbn in Hnil. lia.
Qed.

(** ** Reading a log *)

Lemma count_events_app (f : Event -> bool) (l1 l2 : list Event) :
  count_events f (l1 ++ l2) = count_events f l1 + count_events f l2.
Proof.
  unfold count_events, len. rewrite List.filter_app, length_app. lia.
Qed.

Lemma count_events_nonneg (f : Event -> bool) (l : list Event) :
  0 <= count_events f l.
Proof. unfold count_events, len. lia. Qed.

Lemma io_events_silent (rq : Request) (evs : list Event) :
  Forall (io_event rq) evs ->
  omap progress_line evs = []
  /\ omap progress_fid evs = []
  /\ count_events is_success evs = 0
  /\ count_events is_skip evs = 0
  /\ count_events is_jitter evs = 0.
Proof.
  induction 1 as [|e evs He _ (IH1 & IH2 & IH3 & IH4 & IH5)];
    [repeat split; reflexivity |].
  unfold count_events in *.
  destruct He as [-> | [secs ->]]; cbn; rewrite ?IH1, ?IH2;
    repeat split; assumption.
Qed.

Lemma io_events_requests (rq : Request) (evs : list Event) :
  Forall (io_event rq) evs ->
  forall fid, fid ∈ omap follow_request evs -> payload rq = PTargetFid fid.
Proof.
  induction 1 as [|e evs He _ IH]; intros fid Hin.
  - cbn in Hin. inversion Hin.
  - destruct He as [-> | [secs ->]]; cbn in Hin.
    + destruct (payload rq) as [| |fid'|]; try (apply IH; exact Hin).
      apply elem_of_cons in Hin as [-> | Hin]; [reflexivity | apply IH; exact Hin].
    + apply IH; exact Hin.
Qed.

(** ** get_feed and shuffle *)

Lemma bindR_finite {A B : Type} (r : Res A) (k : A -> Res B) :
  r <> OutOfFuel -> (forall a, k a <> OutOfFuel) -> bindR r k <> OutOfFuel.
Proof. intros Hr Hk. destruct r; cbn; [apply Hk | discriminate | congruence]. Qed.

Lemma py_contains_finite (key : string) (v : JSON) : py_contains key v <> OutOfFuel.
Proof. destruct v; discriminate. Qed.

Lemma py_getitem_finite (key : string) (v : JSON) : py_getitem key v <> OutOfFuel.
Proof. destruct v; cbn; try discriminate. destruct (dict_lookup key kvs); discriminate. Qed.

Lemma py_get_finite (key : string) (d v : JSON) : py_get key d v <> OutOfFuel.
Proof. destruct v; discriminate. Qed.

Lemma py_slice_concat_finite (n : Z) (suffix : string) (v : JSON) :
  py_slice_concat n suffix v <> OutOfFuel.
Proof. destruct v; discriminate. Qed.

Lemma py_slice_iter_finite (n : Z) (v : JSON) : py_slice_iter n v <> OutOfFuel.
Proof. destruct v; discriminate. Qed.

Lemma feed_item_finite (item : JSON) : feed_item item <> OutOfFuel.
Proof.
  unfold feed_item, feed_text.
  apply bindR_finite; [apply py_contains_finite |]. intros [|]; [| discriminate].
  apply bindR_finite; [apply py_getitem_finite |]. intros cast.
  apply bindR_finite; [apply py_get_finite |]. intros cast_hash.
  apply bindR_finite; [apply py_get_finite |]. intros author.
  apply bindR_finite; [apply py_get_finite |]. intros author_fid.
  destruct (py_truthy cast_hash && py_truthy author_fid); [| discriminate].
  apply bindR_finite; [| discriminate].
  apply bindR_finite; [apply py_get_finite |]. intros t.
  destruct (py_truthy t); [| discriminate].
  apply bindR_finite; [apply py_get_finite | apply py_slice_concat_finite].
Qed.

Lemma feed_items_finite (items : list JSON) :
  forall acc, feed_items items acc <> OutOfFuel.
Proof.
  induction items as [|item items IH]; intros acc; [discriminate |].
  cbn [feed_items]. apply bindR_finite; [apply feed_item_finite |].
  intros o. apply IH.
Qed.

Lemma feed_cast_data_finite (limit : Z) (data : JSON) :
  feed_cast_data limit data <> OutOfFuel.
Proof.
  unfold feed_cast_data.
  apply bindR_finite; [apply py_contains_finite |]. intros [|]; [| discriminate].
  apply bindR_finite; [apply py_getitem_finite |]. intros result.
  apply bindR_finite; [apply py_contains_finite |]. intros [|]; [| discriminate].
  apply bindR_finite; [apply py_getitem_finite |]. intros items.
  apply bindR_finite; [apply py_slice_iter_finite |]. intros sliced.
  apply feed_items_finite.
Qed.

Lemma get_feed_io (cfg : Config) (bearer_token : string) (limit : Z)
    (w : World) (r : Res (bool * list Target)) (w' : World) :
  get_feed cfg bearer_token limit w = (r, w') ->
  exists evs,
    trace w' = trace w ++ evs
    /\ Forall (io_event (feed_request cfg bearer_token)) evs
    /\ net w' `suffix_of` net w
    /\ r <> OutOfFuel.
Proof.
  unfold get_feed, bind. intros Hrun.
  destruct (make_request cfg "POST" "feed-items" bearer_token _ w)
    as [resp w1] eqn:Hreq.
  destruct (make_request_io _ _ _ _ _ _ _ _ Hreq)
    as [(evs & Htr & Hio & _ & Hnet & Hfuel & _) _].
  assert (Hdone : forall x : Res (bool * list Target),
            x <> OutOfFuel -> (x, w1) = (r, w') ->
            exists evs, trace w' = trace w ++ evs
                        /\ Forall (io_event (feed_request cfg bearer_token)) evs
                        /\ net w' `suffix_of` net w /\ r <> OutOfFuel).
  { intros x Hx [= <- <-]. exists evs. repeat split; assumption. }
  destruct resp as [[response|] | e |].
  - destruct (response_ok response && (status_code response =? 200)).
    + destruct (body response) as [data|].
      * unfold lift in Hrun.
        destruct (feed_cast_data limit data) as [cast_data| e |] eqn:Hparse.
        -- apply (Hdone (Ok (true, cast_data))); [discriminate | exact Hrun].
        -- apply (Hdone (Raise e)); [discriminate | exact Hrun].
        -- exfalso. exact (feed_cast_data_finite limit data Hparse).
      * apply (Hdone (Raise JSONDecodeError)); [discriminate | exact Hrun].
    + apply (Hdone (Ok (false, []))); [discriminate | exact Hrun].
  - apply (Hdone (Ok (false, []))); [discriminate | exact Hrun].
  - apply (Hdone (Raise e)); [discriminate | exact Hrun].
  - congruence.
Qed.

Lemma swap_perm {A : Type} (i j : nat) (x : list A) : swap i j x ≡ₚ x.
Proof.
  unfold swap. destruct (x !! i) as [a|] eqn:Hi; [| reflexivity].
  destruct (x !! j) as [b|] eqn:Hj; [| reflexivity].
  exact (Permutation_insert_swap x i j a b Hi Hj).
Qed.

Lemma shuffle_from_spec {A : Type} :
  forall (i : nat) (x : list A) (w : World),
  exists x' draws,
    shuffle_from i x w = (Ok x', mkWorld (net w) draws (trace w)) /\ x' ≡ₚ x.
Proof.
  induction i as [|i IH]; intros x w.
  - exists x, (rnd w). split; [destruct w; reflexivity | reflexivity].
  - cbn [shuffle_from]. unfold bind at 1, randbelow.
    destruct (rnd w) as [|r rest] eqn:Hrnd.
    + destruct (IH (swap (S i) 0 x) w) as (x' & draws & Hrun & Hperm).
      exists x', draws. split; [exact Hrun |].
      etrans; [exact Hperm | apply swap_perm].
    + destruct (IH (swap (S i) (r mod S (S i)) x) (mkWorld (net w) rest (trace w)))
        as (x' & draws & Hrun & Hperm).
      exists x', draws. split; [exact Hrun |].
      etrans; [exact Hperm | apply swap_perm].
Qed.

(** [random.shuffle] returns a permutation of its argument and touches
    nothing but the random generator. *)
Lemma shuffle_spec {A : Type} (x : list A) (w : World) :
  exists x' draws,
    shuffle x w = (Ok x', mkWorld (net w) draws (trace w)) /\ x' ≡ₚ x.
Proof. apply shuffle_from_spec. Qed.

(** ** One iteration of the loop over the targets *)

Lemma executor_io (cfg : Config) (method endpoint bearer_token : string)
    (payload : Payload) (f : option Response -> bool) (w : World)
    (r : Res bool) (w' : World) :
  bind (make_request cfg method endpoint bearer_token payload)
       (fun response => ret (f response)) w = (r, w') ->
  let rq := the_request cfg method endpoint bearer_token payload in
  io_run rq w r w'
  /\ (0 < max_retries cfg -> exists evs, trace w' = trace w ++ EvRequest rq :: evs).
Proof.
  intros Hrun rq. unfold bind, ret in Hrun.
  destruct (make_request cfg method endpoint bearer_token payload w)
    as [resp w1] eqn:Hreq.
  destruct (make_request_io _ _ _ _ _ _ _ _ Hreq)
    as [(evs & Htr & Hio & Hrnd & Hnet & Hfuel & Htame) Hsent].
  assert (w1 = w') as <-.
  { destruct resp; congruence. }
  split; [| exact Hsent].
  exists evs. repeat split; try assumption.
  - destruct resp; congruence.
  - intros Hw. destruct (Htame Hw) as [a ->]. exists (f a). congruence.
Qed.

Lemma action_tail_run (cfg : Config) (action_type : string)
    (target_count idx : Z) (success : bool) (st : RunState) (w : World) :
  action_tail cfg action_type target_count idx success st w =
  (Ok (if success then count_success st else st),
   mkWorld (net w) (rnd w)
     (trace w ++ EvResult success :: jitter_events cfg action_type target_count idx)).
Proof.
  unfold action_tail, bind, log, jitter_events, jitter_delay, sleep_uniform, log, ret.
  destruct (idx <? target_count), (String.eqb action_type "follow");
    cbn; rewrite <- ?app_assoc; reflexivity.
Qed.

(** The log of an iteration that called the API with [rq]. *)
Lemma called_iteration_log (cfg : Config) (action_type : string)
    (target_count idx : Z) (short_hash : string) (fid : JSON) (rq : Request)
    (evs1 : list Event) (success : bool) :
  Forall (io_event rq) evs1 ->
  let evs := EvProgress idx target_count short_hash fid
             :: evs1 ++ EvResult success
             :: jitter_events cfg action_type target_count idx in
  omap progress_line evs = [(idx, target_count)]
  /\ omap progress_fid evs = [fid]
  /\ count_events is_success evs = b2z success
  /\ count_events is_skip evs = 0
  /\ omap follow_request evs = omap follow_request evs1.
Proof.
  intros Hio evs.
  destruct (io_events_silent rq evs1 Hio) as (H1 & H2 & H3 & H4 & _).
  assert (Hj : forall f, f = is_success \/ f = is_skip ->
                         count_events f (jitter_events cfg action_type target_count idx) = 0).
  { intros f Hf. unfold jitter_events.
    destruct (idx <? target_count); [| reflexivity].
    destruct (String.eqb action_type "follow"), Hf as [-> | ->]; reflexivity. }
  assert (Hj' : omap progress_line (jitter_events cfg action_type target_count idx) = []
                /\ omap progress_fid (jitter_events cfg action_type target_count idx) = []
                /\ omap follow_request (jitter_events cfg action_type target_count idx) = []).
  { unfold jitter_events. destruct (idx <? target_count); [| repeat split].
    destruct (String.eqb action_type "follow"); repeat split. }
  destruct Hj' as (J1 & J2 & J3).
  unfold evs. repeat split.
  - cbn. rewrite omap_app, H1. cbn. rewrite J1. reflexivity.
  - cbn. rewrite omap_app, H2. cbn. rewrite J2. reflexivity.
  - change (EvProgress idx target_count short_hash fid :: ?l)
      with ([EvProgress idx target_count short_hash fid] ++ l).
    rewrite !count_events_app, H3.
    change (EvResult success :: ?l) with ([EvResult success] ++ l).
    rewrite count_events_app, (Hj is_success) by auto.
    destruct success; reflexivity.
  - change (EvProgress idx target_count short_hash fid :: ?l)
      with ([EvProgress idx target_count short_hash fid] ++ l).
    rewrite !count_events_app, H4.
    change (EvResult success :: ?l) with ([EvResult success] ++ l).
    rewrite count_events_app, (Hj is_skip) by auto.
    reflexivity.
  - cbn. rewrite omap_app. cbn. rewrite J3, app_nil_r. reflexivity.
Qed.

Lemma lift_inv_ok {A : Type} (r : Res A) (w w' : World) (a : A) :
  lift r w = (Ok a, w') -> r = Ok a /\ w' = w.
Proof. unfold lift. intros [= -> ->]. split; reflexivity. Qed.

(** An iteration that calls the API through [op] and then reports. *)
Lemma called_iteration (cfg : Config) (action_type : string)
    (target_count idx : Z) (op : M bool) (rq : Request)
    (stf : bool -> RunState) (w1 : World) (st' : RunState) (w' : World) :
  (forall w r w2, op w = (r, w2) ->
     io_run rq w r w2
     /\ (0 < max_retries cfg -> exists evs, trace w2 = trace w ++ EvRequest rq :: evs)) ->
  bind op (fun success =>
             action_tail cfg action_type target_count idx success (stf success)) w1
    = (Ok st', w') ->
  exists success evs1,
    Forall (io_event rq) evs1
    /\ trace w' = trace w1 ++ evs1 ++ EvResult success
                  :: jitter_events cfg action_type target_count idx
    /\ net w' `suffix_of` net w1
    /\ st' = (if success then count_success (stf success) else stf success)
    /\ (0 < max_retries cfg -> EvRequest rq ∈ evs1).
Proof.
  intros Hop Hrun.
  apply bind_inv_ok in Hrun as (success & w2 & Hcall & Htail).
  rewrite action_tail_run in Htail. injection Htail as <- <-.
  destruct (Hop _ _ _ Hcall) as [(evs1 & Htr & Hio & _ & Hnet & _) Hsent].
  exists success, evs1. cbn [net trace]. rewrite Htr, <- app_assoc.
  repeat split; try assumption; try reflexivity.
  intros Hpos. destruct (Hsent Hpos) as (evs & Hevs).
  rewrite Htr in Hevs. apply app_inv_head in Hevs. subst evs1.
  apply elem_of_cons. left. reflexivity.
Qed.

Lemma action_step_ok (cfg : Config) (bearer_token action_type : string)
    (target_count : Z) (st : RunState) (idx : Z) (c : Target) (w : World)
    (st' : RunState) (w' : World) :
  action_step cfg bearer_token action_type target_count st idx c w = (Ok st', w') ->
  exists evs,
    trace w' = trace w ++ evs
    /\ net w' `suffix_of` net w
    /\ omap progress_line evs = [(idx, target_count)]
    /\ omap progress_fid evs = [c_fid c]
    /\ success_count st' =
       success_count st + count_events is_success evs + count_events is_skip evs
    /\ count_events is_success evs + count_events is_skip evs <= 1
    /\ (action_type = "follow"%string ->
        exists key,
          py_hash_key (c_fid c) = Ok key
          /\ (forall fid, fid ∈ omap follow_request evs -> fid = c_fid c)
          /\ (((key ∈ followed_fids st)
               /\ followed_fids st' = followed_fids st
               /\ count_events is_success evs = 0
               /\ omap follow_request evs = [])
              \/ ((key ∉ followed_fids st)
                  /\ (0 < max_retries cfg -> (c_fid c ∈ omap follow_request evs))
                  /\ count_events is_skip evs = 0
                  /\ exists success : bool,
                       count_events is_success evs = b2z success
                       /\ followed_fids st' =
                          if success then {[key]} ∪ followed_fids st
                          else followed_fids st))).
Proof.
  unfold action_step. intros Hrun.
  apply bind_inv_ok in Hrun as (short_hash & w0 & Hshort & Hrun).
  apply lift_inv_ok in Hshort as [Hshort ->].
  apply bind_inv_ok in Hrun as ([] & w1 & Hlog & Hrun).
  injection Hlog as <-.
  (* an iteration that calls the API and reports *)
  assert (Hcalled : forall rq evs1 success stf,
    Forall (io_event rq) evs1 ->
    trace w' = trace (mkWorld (net w) (rnd w)
                        (trace w ++ [EvProgress idx target_count short_hash (c_fid c)]))
               ++ evs1 ++ EvResult success
               :: jitter_events cfg action_type target_count idx ->
    st' = (if success then count_success (stf success) else stf success) ->
    success_count (stf success) = success_count st ->
    let evs := EvProgress idx target_count short_hash (c_fid c)
               :: evs1 ++ EvResult success
               :: jitter_events cfg action_type target_count idx in
    trace w' = trace w ++ evs
    /\ omap progress_line evs = [(idx, target_count)]
    /\ omap progress_fid evs = [c_fid c]
    /\ success_count st' =
       success_count st + count_events is_success evs + count_events is_skip evs
    /\ count_events is_success evs + count_events is_skip evs <= 1
    /\ count_events is_success evs = b2z success
    /\ count_events is_skip evs = 0
    /\ omap follow_request evs = omap follow_request evs1).
  { intros rq evs1 success stf Hio Htr Hst Hcount evs.
    destruct (called_iteration_log cfg action_type target_count idx short_hash
                (c_fid c) rq evs1 success Hio) as (P1 & P2 & P3 & P4 & P5).
    fold evs in P1, P2, P3, P4, P5.
    split; [rewrite Htr; cbn [trace]; rewrite <- app_assoc; reflexivity |].
    rewrite P3, P4.
    repeat split; try assumption.
    - subst st'. destruct success; cbn; lia.
    - destruct success; cbn; lia. }
  set (w1 := mkWorld (net w) (rnd w) _) in *.
  destruct (String.eqb action_type "like") eqn:Elike.
  { apply called_iteration with (rq := the_request cfg "PUT" "cast-likes" bearer_token
                                          (PCastHash (c_hash c))) in Hrun
      as (success & evs1 & Hio & Htr & Hnet & Hst & _);
      [| intros; eapply executor_io; eassumption].
    destruct (Hcalled _ evs1 success (fun _ => st) Hio Htr Hst eq_refl)
      as (Q1 & Q2 & Q3 & Q4 & Q5 & _).
    eexists. repeat split; try eassumption.
    apply String.eqb_eq in Elike. intros ->. discriminate. }
  destruct (String.eqb action_type "recast") eqn:Erecast.
  { apply called_iteration with (rq := the_request cfg "PUT" "recasts" bearer_token
                                          (PCastHash (c_hash c))) in Hrun
      as (success & evs1 & Hio & Htr & Hnet & Hst & _);
      [| intros; eapply executor_io; eassumption].
    destruct (Hcalled _ evs1 success (fun _ => st) Hio Htr Hst eq_refl)
      as (Q1 & Q2 & Q3 & Q4 & Q5 & _).
    eexists. repeat split; try eassumption.
    apply String.eqb_eq in Erecast. intros ->. discriminate. }
  destruct (String.eqb action_type "follow") eqn:Efollow.
  - apply bind_inv_ok in Hrun as (key & w2 & Hkey & Hrun).
    apply lift_inv_ok in Hkey as [Hkey ->].
    destruct (bool_decide (key ∈ followed_fids st)) eqn:Hmem.
    + apply bool_decide_eq_true in Hmem.
      apply bind_inv_ok in Hrun as ([] & w3 & Hlog & Hrun).
      injection Hlog as <-. injection Hrun as <- <-.
      exists [EvProgress idx target_count short_hash (c_fid c);
              EvAlreadyFollowed (c_fid c)].
      assert (Hs : count_events is_success
                     [EvProgress idx target_count short_hash (c_fid c);
                      EvAlreadyFollowed (c_fid c)] = 0) by reflexivity.
      assert (Hk : count_events is_skip
                     [EvProgress idx target_count short_hash (c_fid c);
                      EvAlreadyFollowed (c_fid c)] = 1) by reflexivity.
      rewrite Hs, Hk.
      cbn [trace net]. rewrite <- app_assoc.
      repeat split; try reflexivity.
      * cbn. lia.
      * intros _. exists key. split; [exact Hkey |]. split.
        -- cbn. intros fid Hin. inversion Hin.
        -- left. repeat split; try reflexivity. exact Hmem.
    + apply bool_decide_eq_false in Hmem.
      apply called_iteration with (rq := the_request cfg "PUT" "follows" bearer_token
                                            (PTargetFid (c_fid c))) in Hrun
        as (success & evs1 & Hio & Htr & Hnet & Hst & Hsent);
        [| intros; eapply executor_io; eassumption].
      destruct (Hcalled _ evs1 success
                  (fun success : bool =>
                     if success
                     then mkRun (success_count st) ({[key]} ∪ followed_fids st)
                     else st) Hio Htr Hst)
        as (Q1 & Q2 & Q3 & Q4 & Q5 & Q6 & Q7 & Q8);
        [destruct success; reflexivity |].
      eexists. repeat split; try eassumption.
      intros _. exists key. split; [exact Hkey |]. split.
      * rewrite Q8. intros fid Hin.
        pose proof (io_events_requests _ _ Hio fid Hin) as Hp.
        cbn in Hp. congruence.
      * right. split; [exact Hmem |]. split.
        -- intros Hpos. rewrite Q8. apply list_elem_of_omap.
           eexists. split; [exact (Hsent Hpos) | reflexivity].
        -- split; [exact Q7 |]. exists success. split; [exact Q6 |].
           subst st'. destruct success; reflexivity.
  - rewrite action_tail_run in Hrun. injection Hrun as <- <-.
    destruct (Hcalled like_request [] false (fun _ => st)) as (Q1 & Q2 & Q3 & Q4 & Q5 & _);
      [constructor | reflexivity | reflexivity | reflexivity |].
    eexists. repeat split; try eassumption.
    + reflexivity.
    + apply String.eqb_neq in Efollow. intros ->. congruence.
Qed.

(** ** The loop over the targets *)

Lemma key_set_elem (k : PyKey) (fids : list JSON) :
  k ∈ key_set fids <-> exists fid, fid ∈ fids /\ key_of fid = Some k.
Proof.
  unfold key_set. rewrite elem_of_list_to_set. apply list_elem_of_omap.
Qed.

Lemma key_set_app (l1 l2 : list JSON) :
  key_set (l1 ++ l2) = key_set l1 ∪ key_set l2.
Proof. unfold key_set. rewrite omap_app. apply list_to_set_app_L. Qed.

Lemma key_set_cons (fid : JSON) (k : PyKey) (l : list JSON) :
  key_of fid = Some k -> key_set (fid :: l) = {[k]} ∪ key_set l.
Proof. intros H. unfold key_set. cbn. rewrite H. reflexivity. Qed.

Lemma key_of_hash (fid : JSON) (k : PyKey) :
  py_hash_key fid = Ok k -> key_of fid = Some k.
Proof. unfold key_of. intros ->. reflexivity. Qed.

Lemma action_loop_ok (cfg : Config) (bearer_token action_type : string)
    (target_count : Z) :
  forall (sel : list Target) (idx : Z) (st : RunState) (w : World)
         (st' : RunState) (w' : World),
    action_loop cfg bearer_token action_type target_count idx sel st w
      = (Ok st', w') ->
    exists evs,
      trace w' = trace w ++ evs
      /\ net w' `suffix_of` net w
      /\ omap progress_line evs = (fun i => (i, target_count)) <$> seqZ idx (len sel)
      /\ omap progress_fid evs = c_fid <$> sel
      /\ success_count st' =
         success_count st + count_events is_success evs + count_events is_skip evs
      /\ count_events is_success evs + count_events is_skip evs <= len sel
      /\ (action_type = "follow"%string -> follow_facts cfg sel st st' evs).
Proof.
  induction sel as [|c rest IH]; intros idx st w st' w' Hrun.
  - cbn in Hrun. injection Hrun as <- <-. exists [].
    rewrite app_nil_r.
    change (count_events is_success []) with 0.
    change (count_events is_skip []) with 0.
    split; [reflexivity |]. split; [reflexivity |]. split; [reflexivity |].
    split; [reflexivity |]. split; [lia |]. split; [unfold len; cbn; lia |].
    intros _. unfold follow_facts.
    change (count_events is_success []) with 0.
    split; [constructor |]. split; [set_solver |]. split; [set_solver |].
    split; [lia |]. split; [set_solver |]. intros _. cbn. set_solver.
  - cbn [action_loop] in Hrun.
    apply bind_inv_ok in Hrun as (st1 & w1 & Hstep & Hrest).
    apply action_step_ok in Hstep
      as (evs1 & Htr1 & Hnet1 & Hline1 & Hfid1 & Hcount1 & Hle1 & Hfollow1).
    apply IH in Hrest
      as (evs2 & Htr2 & Hnet2 & Hline2 & Hfid2 & Hcount2 & Hle2 & Hfollow2).
    exists (evs1 ++ evs2).
    rewrite !omap_app, !count_events_app, Hline1, Hline2, Hfid1, Hfid2.
    assert (Hlen : len (c :: rest) = len rest + 1) by (unfold len; cbn; lia).
    split; [rewrite Htr2, Htr1, <- app_assoc; reflexivity |].
    split; [etrans; eassumption |].
    split.
    { rewrite Hlen, (seqZ_cons idx) by (unfold len; lia).
      cbn. do 3 f_equal; lia. }
    split; [reflexivity |].
    split; [lia |].
    split; [lia |].
    intros Hact.
    destruct (Hfollow1 Hact) as (key & Hkey & Hreq1 & Hcases).
    destruct (Hfollow2 Hact) as (F1 & F2 & F3 & F4 & F5 & F6).
    apply key_of_hash in Hkey.
    assert (Hreqs : key_set (omap follow_request evs1) ⊆ {[key]}).
    { intros k (fid & Hin & Hk)%key_set_elem.
      apply Hreq1 in Hin. subst fid. rewrite Hkey in Hk. set_solver. }
    unfold follow_facts.
    rewrite omap_app, fmap_cons, (key_set_cons _ _ _ Hkey), key_set_app, count_events_app.
    split; [constructor; [rewrite Hkey; eauto | exact F1] |].
    destruct Hcases as [(Hmem & Hsame & Hzero & Hnone)
                       | (Hnew & Hsent & Hskip & success & Hsucc & Hset)].
    + rewrite Hsame in F2, F3, F4, F6. rewrite Hzero, Hnone.
      split; [exact F2 |].
      split; [clear -F3 Hmem; set_solver |].
      split; [lia |].
      split; [clear -F5; set_solver |].
      intros Hpos. specialize (F6 Hpos). clear -F6 Hmem. set_solver.
    + assert (Hsize : Z.of_nat (size (followed_fids st1)) =
                      Z.of_nat (size (followed_fids st)) + b2z success).
      { rewrite Hset. destruct success; cbn; [| lia].
        rewrite size_union by (clear -Hnew; set_solver).
        rewrite size_singleton. lia. }
      assert (Hsub : followed_fids st ⊆ followed_fids st1).
      { rewrite Hset. destruct success; clear; set_solver. }
      assert (Hsup : followed_fids st1 ⊆ {[key]} ∪ followed_fids st).
      { rewrite Hset. destruct success; clear; set_solver. }
      split; [clear -Hsub F2; set_solver |].
      split; [clear -Hsup F3; set_solver |].
      split; [lia |].
      split; [clear -Hreqs F5; set_solver |].
      intros Hpos. specialize (F6 Hpos). specialize (Hsent Hpos).
      assert (Hin : key ∈ key_set (omap follow_request evs1)).
      { apply key_set_elem. exists (c_fid c). split; assumption. }
      clear -Hin F6 Hsup. set_solver.
Qed.

(** ** Runs that return *)

Lemma action_step_returns (cfg : Config) (bearer_token action_type : string)
    (target_count : Z) (st : RunState) (idx : Z) (c : Target) (w : World) :
  well_typed c = true ->
  tame (net w) ->
  exists st' w',
    action_step cfg bearer_token action_type target_count st idx c w = (Ok st', w')
    /\ tame (net w').
Proof.
  unfold well_typed. intros Hc Hw.
  destruct (c_hash c) as [| | |s| |] eqn:Hhash; try discriminate.
  destruct (py_hash_key (c_fid c)) as [key| |] eqn:Hkey; try discriminate.
  unfold action_step. rewrite Hhash, Hkey. cbn [py_slice_concat].
  unfold bind at 1, lift. unfold bind at 1, log.
  set (w1 := mkWorld (net w) (rnd w) _).
  assert (Hcall : forall (op : M bool) rq stf,
    (forall w0 r w2, op w0 = (r, w2) -> io_run rq w0 r w2) ->
    exists st' w',
      bind op (fun success =>
                 action_tail cfg action_type target_count idx success (stf success)) w1
        = (Ok st', w') /\ tame (net w')).
  { intros op rq stf Hop. destruct (op w1) as [r w2] eqn:Hrun.
    destruct (Hop _ _ _ Hrun) as (evs & _ & _ & _ & Hnet & _ & Hok).
    destruct (Hok Hw) as [success ->].
    rewrite (bind_ok _ _ _ _ _ Hrun), action_tail_run.
    eexists _, _. split; [reflexivity |]. cbn [net].
    exact (tame_suffix _ _ Hnet Hw). }
  destruct (String.eqb action_type "like").
  { apply (Hcall _ (the_request cfg "PUT" "cast-likes" bearer_token (PCastHash (JStr s)))).
    intros. eapply executor_io. eassumption. }
  destruct (String.eqb action_type "recast").
  { apply (Hcall _ (the_request cfg "PUT" "recasts" bearer_token (PCastHash (JStr s)))).
    intros. eapply executor_io. eassumption. }
  destruct (String.eqb action_type "follow").
  - unfold bind at 1. destruct (bool_decide (key ∈ followed_fids st)).
    + eexists _, _. split; [reflexivity |]. exact Hw.
    + apply (Hcall _ (the_request cfg "PUT" "follows" bearer_token (PTargetFid (c_fid c)))
                   (fun success : bool =>
                      if success
                      then mkRun (success_count st) ({[key]} ∪ followed_fids st)
                      else st)).
      intros. eapply executor_io. eassumption.
  - rewrite action_tail_run. eexists _, _. split; [reflexivity |]. exact Hw.
Qed.

Lemma action_loop_returns (cfg : Config) (bearer_token action_type : string)
    (target_count : Z) :
  forall (sel : list Target) (idx : Z) (st : RunState) (w : World),
    Forall (fun c => well_typed c = true) sel ->
    tame (net w) ->
    exists st' w',
      action_loop cfg bearer_token action_type target_count idx sel st w
        = (Ok st', w')
      /\ tame (net w').
Proof.
  induction sel as [|c rest IH]; intros idx st w Hsel Hw.
  - exists st, w. split; [reflexivity | exact Hw].
  - inversion Hsel as [|? ? Hc Hrest]; subst.
    destruct (action_step_returns cfg bearer_token action_type target_count
                st idx c w Hc Hw) as (st1 & w1 & Hstep & Hw1).
    destruct (IH (idx + 1) st1 w1 Hrest Hw1) as (st' & w' & Hloop & Hw').
    exists st', w'. split; [| exact Hw'].
    cbn [action_loop]. rewrite (bind_ok _ _ _ _ _ Hstep). exact Hloop.
Qed.

(** ** execute_focused_action, from the fetched feed on *)

(** The target count after the adjustment to the size of the feed. *)
Lemma execute_after_fetch (cfg : Config) (bearer_token : string)
    (account_idx : Z) (action_type : string) (target_count : Z)
    (w w1 : World) (cast_data : list Target) :
  focused_fetch cfg bearer_token account_idx action_type target_count w
    = (Ok (true, cast_data), w1) ->
  cast_data <> [] ->
  exists shuffled draws,
    shuffled ≡ₚ cast_data
    /\ execute_focused_action cfg bearer_token account_idx action_type
         target_count w =
       bind (action_loop cfg bearer_token action_type
               (if len cast_data <? target_count then len cast_data else target_count)
               1
               (py_take (if len cast_data <? target_count
                         then len cast_data else target_count) shuffled)
               (mkRun 0 ∅))
            (fun st => ret (success_count st))
            (mkWorld (net w1) draws (trace w1)).
Proof.
  intros Hfetch Hne.
  destruct (shuffle_spec cast_data w1) as (shuffled & draws & Hsh & Hperm).
  exists shuffled, draws. split; [exact Hperm |].
  unfold execute_focused_action. rewrite (bind_ok _ _ _ _ _ Hfetch).
  destruct cast_data as [|c rest]; [congruence |]. cbn [negb orb].
  rewrite (bind_ok _ _ _ _ _ Hsh). reflexivity.
Qed.

Lemma execute_nothing_fetched (cfg : Config) (bearer_token : string)
    (account_idx : Z) (action_type : string) (target_count : Z)
    (w w1 : World) (success : bool) (cast_data : list Target) :
  focused_fetch cfg bearer_token account_idx action_type target_count w
    = (Ok (success, cast_data), w1) ->
  success = false \/ cast_data = [] ->
  execute_focused_action cfg bearer_token account_idx action_type
    target_count w = (Ok 0, w1).
Proof.
  intros Hfetch Hnone.
  unfold execute_focused_action. rewrite (bind_ok _ _ _ _ _ Hfetch).
  destruct Hnone as [-> | ->]; [reflexivity |].
  destruct success; reflexivity.
Qed.

Lemma focused_fetch_log (cfg : Config) (bearer_token : string)
    (account_idx : Z) (action_type : string) (target_count : Z)
    (w : World) (r : Res (bool * list Target)) (w1 : World) :
  focused_fetch cfg bearer_token account_idx action_type target_count w = (r, w1) ->
  exists evs,
    trace w1 = trace w ++ evs
    /\ omap progress_line evs = []
    /\ omap progress_fid evs = []
    /\ omap follow_request evs = []
    /\ count_events is_success evs = 0
    /\ count_events is_skip evs = 0.
Proof.
  unfold focused_fetch. unfold bind at 1, log. intros Hrun.
  apply get_feed_io in Hrun as (evs & Htr & Hio & _).
  destruct (io_events_silent _ _ Hio) as (H1 & H2 & H3 & H4 & _).
  exists (EvFocus account_idx action_type target_count :: evs).
  cbn [trace] in Htr. rewrite Htr, <- app_assoc.
  split; [reflexivity |].
  change (EvFocus account_idx action_type target_count :: evs)
    with ([EvFocus account_idx action_type target_count] ++ evs).
  rewrite !omap_app, !count_events_app, H1, H2, H3, H4.
  repeat split; try reflexivity.
  cbn. destruct (omap follow_request evs) as [|fid l] eqn:E; [reflexivity |].
  assert (Hin : fid ∈ omap follow_request evs) by (rewrite E; left).
  apply (io_events_requests _ _ Hio) in Hin. discriminate.
Qed.

(** A completed run: what it logged after the fetch, and what it returned. *)
Lemma execute_ok (cfg : Config) (bearer_token : string)
    (account_idx : Z) (action_type : string) (target_count : Z)
    (w : World) (n : Z) (w' : World) :
  execute_focused_action cfg bearer_token account_idx action_type
    target_count w = (Ok n, w') ->
  exists (success : bool) (cast_data sel : list Target) (w1 : World)
         (evs : list Event) (st' : RunState),
    focused_fetch cfg bearer_token account_idx action_type target_count w
      = (Ok (success, cast_data), w1)
    /\ trace w' = trace w1 ++ evs
    /\ n = success_count st'
    /\ ((success = false \/ cast_data = []) /\ sel = [] /\ evs = [] /\ w' = w1
         /\ st' = mkRun 0 ∅
        \/ success = true /\ cast_data <> []
           /\ (exists shuffled,
                 shuffled ≡ₚ cast_data
                 /\ sel = py_take (if len cast_data <? target_count
                                   then len cast_data else target_count) shuffled)
           /\ omap progress_line evs =
              (fun i => (i, if len cast_data <? target_count
                            then len cast_data else target_count))
                <$> seqZ 1 (len sel)
           /\ omap progress_fid evs = c_fid <$> sel
           /\ success_count st' =
              count_events is_success evs + count_events is_skip evs
           /\ count_events is_success evs + count_events is_skip evs <= len sel
           /\ (action_type = "follow"%string ->
               follow_facts cfg sel (mkRun 0 ∅) st' evs)).
Proof.
  intros Hrun.
  destruct (focused_fetch cfg bearer_token account_idx action_type target_count w)
    as [r w1] eqn:Hfetch.
  destruct r as [[success cast_data]| e |];
    [| unfold execute_focused_action, bind in Hrun; rewrite Hfetch in Hrun;
       discriminate ..].
  assert (Hcases : (success = false \/ cast_data = [])
                   \/ (success = true /\ cast_data <> [])).
  { destruct success; [| left; left; reflexivity].
    destruct cast_data; [left; right; reflexivity | right; split; congruence]. }
  destruct Hcases as [Hnone | [-> Hne]].
  - rewrite (execute_nothing_fetched _ _ _ _ _ _ _ _ _ Hfetch Hnone) in Hrun.
    injection Hrun as <- <-.
    exists success, cast_data, [], w1, [], (mkRun 0 ∅).
    rewrite app_nil_r. repeat split. left. repeat split. exact Hnone.
  - destruct (execute_after_fetch _ _ _ _ _ _ _ _ Hfetch Hne)
      as (shuffled & draws & Hperm & Heq).
    rewrite Heq in Hrun.
    apply bind_inv_ok in Hrun as (st' & w2 & Hloop & Hret).
    injection Hret as <- <-.
    apply action_loop_ok in Hloop
      as (evs & Htr & _ & Hline & Hfid & Hcount & Hle & Hfollow).
    cbn [trace success_count] in Htr, Hcount.
    eexists true, cast_data, _, w1, evs, st'.
    split; [reflexivity |]. split; [exact Htr |]. split; [reflexivity |].
    right. split; [reflexivity |]. split; [exact Hne |].
    split; [exists shuffled; split; [exact Hperm | reflexivity] |].
    split; [exact Hline |]. split; [exact Hfid |].
    split; [lia |]. split; [exact Hle | exact Hfollow].
Qed.

Lemma py_take_all {A : Type} (n : Z) (l : list A) :
  len l <= n -> py_take n l = l.
Proof.
  unfold len, py_take. intros H.
  destruct (Z.leb_spec 0 n); [| lia]. apply take_ge. lia.
Qed.

Lemma len_perm {A : Type} (l1 l2 : list A) : l1 ≡ₚ l2 -> len l1 = len l2.
Proof. intros H. unfold len. rewrite H. reflexivity. Qed.

Lemma py_take_Forall {A : Type} (P : A -> Prop) (n : Z) (l : list A) :
  Forall P l -> Forall P (py_take n l).
Proof. unfold py_take. destruct (0 <=? n); apply Forall_take. Qed.

(** ** Feed scarcity *)

(** C7.  When the fetch gives [m] targets with [0 < m < target_count], the
    run works on [m] targets: it prints the progress lines [1/m] to [m/m],
    one per target, and the count it returns lies between 0 and [m]; such a
    run does return whenever the targets are well typed and no rate-limit
    header of the remaining responses is unreadable.  When the fetch fails
    or gives no target, the run returns 0 at once, in the world the fetch
    left. *)
Theorem feed_scarcity (cfg : Config) (bearer_token : string)
    (account_idx : Z) (action_type : string) (target_count : Z)
    (w w1 : World) (success : bool) (cast_data : list Target) :
  focused_fetch cfg bearer_token account_idx action_type target_count w
    = (Ok (success, cast_data), w1) ->
  (success = false \/ cast_data = [] ->
   execute_focused_action cfg bearer_token account_idx action_type
     target_count w = (Ok 0, w1))
  /\ (success = true ->
      0 < len cast_data < target_count ->
      (forall n w',
         execute_focused_action cfg bearer_token account_idx action_type
           target_count w = (Ok n, w') ->
         exists evs,
           trace w' = trace w1 ++ evs
           /\ omap progress_line evs =
              (fun i => (i, len cast_data)) <$> seqZ 1 (len cast_data)
           /\ 0 <= n <= len cast_data)
      /\ (Forall (fun c => well_typed c = true) cast_data ->
          tame (net w1) ->
          exists n w',
            execute_focused_action cfg bearer_token account_idx action_type
              target_count w = (Ok n, w'))).
Proof.
  intros Hfetch. split.
  - exact (execute_nothing_fetched _ _ _ _ _ _ _ _ _ Hfetch).
  - intros -> Hm.
    assert (Hne : cast_data <> []).
    { intros ->. unfold len in Hm. cbn in Hm. lia. }
    assert (Hadj : (if len cast_data <? target_count
                    then len cast_data else target_count) = len cast_data).
    { destruct (Z.ltb_spec (len cast_data) target_count); lia. }
    split.
    + intros n w' Hrun.
      apply execute_ok in Hrun
        as (success & cast_data' & sel & w1' & evs & st' & Hfetch' & Htr & Hn & Hcases).
      rewrite Hfetch in Hfetch'. injection Hfetch' as <- <- <-.
      destruct Hcases
        as [([? | ?] & _) | (_ & _ & (shuffled & Hperm & Hsel) & Hline & _ & Hcount & Hle & _)];
        [discriminate | congruence |].
      rewrite Hadj in Hsel, Hline.
      rewrite py_take_all in Hsel by (rewrite (len_perm _ _ Hperm); lia).
      subst sel. rewrite (len_perm _ _ Hperm) in Hline, Hle.
      exists evs. split; [exact Htr |]. split; [exact Hline |].
      pose proof (count_events_nonneg is_success evs).
      pose proof (count_events_nonneg is_skip evs). lia.
    + intros Htyped Htame.
      destruct (execute_after_fetch _ _ _ _ _ _ _ _ Hfetch Hne)
        as (shuffled & draws & Hperm & Heq).
      rewrite Heq, Hadj.
      destruct (action_loop_returns cfg bearer_token action_type (len cast_data)
                  (py_take (len cast_data) shuffled) 1 (mkRun 0 ∅)
                  (mkWorld (net w1) draws (trace w1)))
        as (st' & w' & Hloop & _); [| exact Htame |].
      { apply py_take_Forall. rewrite Hperm. exact Htyped. }
      exists (success_count st'), w'.
      rewrite (bind_ok _ _ _ _ _ Hloop). reflexivity.
Qed.

Lemma feed_scarcity_witness :
  let run := execute_focused_action default_config "token" 1 "like" 5
               two_authors_world in
  (exists evs,
     trace run.2 =
     [EvFocus 1 "like" 5; EvRequest (feed_request default_config "token")] ++ evs
     /\ omap progress_line evs = [(1, 3); (2, 3); (3, 3)]
     /\ 0 <= 2 <= 3)
  /\ run.1 = Ok 2
  /\ execute_focused_action default_config "token" 1 "like" 5
       (mkWorld [NetResponse (feed_response [])] [] [])
     = (Ok 0, mkWorld [] []
                [EvFocus 1 "like" 5; EvRequest (feed_request default_config "token")]).
Proof.
  intros run.
  pose proof (feed_scarcity default_config "token" 1 "like" 5 two_authors_world
                (mkWorld [NetResponse ok_response; NetResponse ok_response] []
                   [EvFocus 1 "like" 5;
                    EvRequest (feed_request default_config "token")])
                true
                [mkTarget (JStr "0xa1") (JInt 7) "gm...";
                 mkTarget (JStr "0xb2") (JInt 7) "gm...";
                 mkTarget (JStr "0xc3") (JInt 9) "gm..."]
                eq_refl) as [_ Hscarce].
  destruct (Hscarce eq_refl ltac:(vm_compute; split; reflexivity)) as [Hpart _].
  split; [| split].
  - exact (Hpart 2 run.2 ltac:(vm_compute; reflexivity)).
  - vm_compute. reflexivity.
  - apply (feed_scarcity default_config "token" 1 "like" 5
             (mkWorld [NetResponse (feed_response [])] [] []) _ true [] eq_refl).
    right. reflexivity.
Defined.

(** ** Follow mode *)

(** The whole log of a completed run in follow mode, read from the start
    of the run. *)
Lemma follow_run_log (cfg : Config) (bearer_token : string)
    (account_idx target_count : Z) (w : World) (n : Z) (w' : World) :
  execute_focused_action cfg bearer_token account_idx "follow" target_count w
    = (Ok n, w') ->
  exists (evs : list Event) (sel : list Target) (st' : RunState),
    trace w' = trace w ++ evs
    /\ omap progress_fid evs = c_fid <$> sel
    /\ n = count_events is_success evs + count_events is_skip evs
    /\ count_events is_success evs + count_events is_skip evs <= len sel
    /\ exists evs', omap follow_request evs = omap follow_request evs'
                    /\ count_events is_success evs = count_events is_success evs'
                    /\ follow_facts cfg sel (mkRun 0 ∅) st' evs'.
Proof.
  intros Hrun.
  apply execute_ok in Hrun
    as (success & cast_data & sel & w1 & evs & st' & Hfetch & Htr & Hn & Hcases).
  apply focused_fetch_log in Hfetch as (evs0 & Htr0 & L1 & L2 & L3 & L4 & L5).
  exists (evs0 ++ evs), sel, st'.
  rewrite !omap_app, !count_events_app, L2, L3, L4, L5, Htr, Htr0, <- app_assoc.
  split; [reflexivity |].
  destruct Hcases
    as [(_ & -> & -> & _ & ->) | (_ & _ & _ & _ & Hfid & Hcount & Hle & Hfollow)].
  - change (count_events is_success []) with 0.
    change (count_events is_skip []) with 0.
    change (len (@nil Target)) with 0.
    split; [reflexivity |]. split; [subst n; reflexivity |]. split; [lia |].
    exists []. split; [reflexivity |]. split; [reflexivity |].
    unfold follow_facts. change (count_events is_success []) with 0.
    split; [constructor |]. split; [set_solver |]. split; [set_solver |].
    split; [lia |]. split; [set_solver |]. intros _. cbn. set_solver.
  - split; [exact Hfid |]. split; [lia |]. split; [lia |].
    exists evs. split; [reflexivity |]. split; [reflexivity |].
    exact (Hfollow eq_refl).
Qed.

(** C3, as the code has it.  In a completed run in follow mode, the number
    of follow calls that succeeded (the iterations reported as successful)
    never exceeds the number of distinct author ids among the targets the
    run worked on.  The count the run returns adds one for every target
    whose author was already followed in the run, so it is bounded by the
    number of these targets. *)
Theorem follow_successes_bounded (cfg : Config) (bearer_token : string)
    (account_idx target_count : Z) (w : World) (n : Z) (w' : World) :
  execute_focused_action cfg bearer_token account_idx "follow" target_count w
    = (Ok n, w') ->
  exists evs,
    trace w' = trace w ++ evs
    /\ count_events is_success evs
       <= Z.of_nat (distinct_authors (omap progress_fid evs))
    /\ n = count_events is_success evs + count_events is_skip evs
    /\ n <= len (omap progress_fid evs).
Proof.
  intros Hrun.
  apply follow_run_log in Hrun
    as (evs & sel & st' & Htr & Hfid & Hn & Hle & evs' & _ & Hsucc & Hfacts).
  destruct Hfacts as (_ & _ & Hsub & Hsize & _).
  exists evs. split; [exact Htr |]. rewrite Hfid.
  split; [| split; [exact Hn |]].
  - cbn [followed_fids] in Hsub, Hsize. rewrite size_empty in Hsize.
    rewrite Hsucc. unfold distinct_authors.
    assert (size (followed_fids st') <= size (key_set (c_fid <$> sel)))%nat.
    { apply subseteq_size. set_solver. }
    lia.
  - unfold len. rewrite length_fmap. fold (len sel). lia.
Qed.

Lemma follow_successes_bounded_witness :
  let run := execute_focused_action default_config "token" 1 "follow" 2
               same_author_world in
  run.1 = Ok 2
  /\ exists evs,
       trace run.2 = [] ++ evs
       /\ count_events is_success evs
          <= Z.of_nat (distinct_authors (omap progress_fid evs))
       /\ 2 = count_events is_success evs + count_events is_skip evs
       /\ 2 <= len (omap progress_fid evs).
Proof.
  intros run. split; [vm_compute; reflexivity |].
  apply (follow_successes_bounded default_config "token" 1 2 same_author_world
           2 run.2).
  vm_compute. reflexivity.
Defined.

(** C3 as stated fails: two sampled posts of one author, the follow is
    accepted; the run returns 2 although the sampled targets have a single
    distinct author id. *)
Lemma follow_count_exceeds_distinct_authors :
  let run := execute_focused_action default_config "token" 1 "follow" 2
               same_author_world in
  run.1 = Ok 2
  /\ omap progress_fid (trace run.2) = [JInt 7; JInt 7]
  /\ distinct_authors (omap progress_fid (trace run.2)) = 1%nat
  /\ ~ (2 <= Z.of_nat (distinct_authors (omap progress_fid (trace run.2)))).
Proof.
  intros run.
  assert (H1 : run.1 = Ok 2) by (vm_compute; reflexivity).
  assert (H2 : omap progress_fid (trace run.2) = [JInt 7; JInt 7])
    by (vm_compute; reflexivity).
  assert (H3 : distinct_authors (omap progress_fid (trace run.2)) = 1%nat)
    by (vm_compute; reflexivity).
  repeat split; try assumption. rewrite H3. lia.
Qed.

Lemma follow_step_skip (cfg : Config) (bearer_token : string)
    (target_count : Z) (st : RunState) (idx : Z) (c : Target) (w : World)
    (short_hash : string) (key : PyKey) :
  py_slice_concat 10 "..." (c_hash c) = Ok short_hash ->
  py_hash_key (c_fid c) = Ok key ->
  key ∈ followed_fids st ->
  action_step cfg bearer_token "follow" target_count st idx c w =
  (Ok (count_success st),
   mkWorld (net w) (rnd w)
     (trace w ++ [EvProgress idx target_count short_hash (c_fid c);
                  EvAlreadyFollowed (c_fid c)])).
Proof.
  intros Hshort Hkey Hmem. unfold action_step. rewrite Hshort, Hkey.
  cbn [String.eqb Ascii.eqb Bool.eqb].
  unfold bind, lift, log, ret. cbn [net rnd trace].
  rewrite (bool_decide_eq_true_2 _ Hmem). cbn [net rnd trace].
  rewrite <- app_assoc. reflexivity.
Qed.

Lemma follow_step_call (cfg : Config) (bearer_token : string)
    (target_count : Z) (st : RunState) (idx : Z) (c : Target) (w : World)
    (short_hash : string) (key : PyKey) (st' : RunState) (w' : World) :
  py_slice_concat 10 "..." (c_hash c) = Ok short_hash ->
  py_hash_key (c_fid c) = Ok key ->
  key ∉ followed_fids st ->
  action_step cfg bearer_token "follow" target_count st idx c w = (Ok st', w') ->
  exists (success : bool) (w2 : World),
    follow_user cfg bearer_token (c_fid c)
      (mkWorld (net w) (rnd w)
         (trace w ++ [EvProgress idx target_count short_hash (c_fid c)]))
      = (Ok success, w2)
    /\ followed_fids st' =
       (if success then {[key]} ∪ followed_fids st else followed_fids st)
    /\ success_count st' = success_count st + b2z success.
Proof.
  intros Hshort Hkey Hnew. unfold action_step. rewrite Hshort, Hkey.
  cbn [String.eqb Ascii.eqb Bool.eqb].
  unfold bind at 1, lift. unfold bind at 1, log. unfold bind at 1.
  rewrite (bool_decide_eq_false_2 _ Hnew).
  intros Hrun. apply bind_inv_ok in Hrun as (success & w2 & Hcall & Htail).
  rewrite action_tail_run in Htail. injection Htail as <- <-.
  exists success, w2. split; [exact Hcall |].
  destruct success; cbn; split; try reflexivity; lia.
Qed.

(** C6.  In follow mode (with at least one attempt per request), a
    completed run sends follow requests for exactly the distinct author ids
    of the targets it worked on: as many distinct follow requests as
    distinct authors.  A target whose author is already in the followed-set
    counts as a success with no request and no delay; for any other target
    [follow_user] is called, and the author enters the followed-set exactly
    when that call returns [True]. *)
Theorem follow_deduplication (cfg : Config) (bearer_token : string)
    (target_count : Z) :
  0 < max_retries cfg ->
  (forall account_idx w n w',
     execute_focused_action cfg bearer_token account_idx "follow"
       target_count w = (Ok n, w') ->
     exists evs,
       trace w' = trace w ++ evs
       /\ key_set (omap follow_request evs) = key_set (omap progress_fid evs)
       /\ distinct_authors (omap follow_request evs)
          = distinct_authors (omap progress_fid evs))
  /\ (forall st idx c w short_hash key,
        py_slice_concat 10 "..." (c_hash c) = Ok short_hash ->
        py_hash_key (c_fid c) = Ok key ->
        key ∈ followed_fids st ->
        action_step cfg bearer_token "follow" target_count st idx c w =
        (Ok (count_success st),
         mkWorld (net w) (rnd w)
           (trace w ++ [EvProgress idx target_count short_hash (c_fid c);
                        EvAlreadyFollowed (c_fid c)])))
  /\ (forall st idx c w short_hash key st' w',
        py_slice_concat 10 "..." (c_hash c) = Ok short_hash ->
        py_hash_key (c_fid c) = Ok key ->
        key ∉ followed_fids st ->
        action_step cfg bearer_token "follow" target_count st idx c w
          = (Ok st', w') ->
        exists (success : bool) (w2 : World),
          follow_user cfg bearer_token (c_fid c)
            (mkWorld (net w) (rnd w)
               (trace w ++ [EvProgress idx target_count short_hash (c_fid c)]))
            = (Ok success, w2)
          /\ followed_fids st' =
             (if success then {[key]} ∪ followed_fids st else followed_fids st)
          /\ success_count st' = success_count st + b2z success).
Proof.
  intros Hpos. split; [| split].
  - intros account_idx w n w' Hrun.
    apply follow_run_log in Hrun
      as (evs & sel & st' & Htr & Hfid & _ & _ & evs' & Hreq & _ & Hfacts).
    destruct Hfacts as (_ & _ & _ & _ & Hsub & Hsup).
    specialize (Hsup Hpos). cbn [followed_fids] in Hsup.
    exists evs. split; [exact Htr |].
    assert (Heq : key_set (omap follow_request evs) = key_set (omap progress_fid evs)).
    { rewrite Hreq, Hfid. apply set_eq. intros k. split; intros Hk.
      - apply Hsub. exact Hk.
      - apply Hsup in Hk. set_solver. }
    split; [exact Heq |]. unfold distinct_authors. rewrite Heq. reflexivity.
  - intros. eapply follow_step_skip; eassumption.
  - intros. eapply follow_step_call; eassumption.
Qed.

Lemma follow_deduplication_witness :
  let run := execute_focused_action default_config "token" 1 "follow" 5
               two_authors_world in
  run.1 = Ok 3
  /\ omap progress_fid (trace run.2) = [JInt 7; JInt 9; JInt 7]
  /\ omap follow_request (trace run.2) = [JInt 7; JInt 9]
  /\ exists evs,
       trace run.2 = [] ++ evs
       /\ key_set (omap follow_request evs) = key_set (omap progress_fid evs)
       /\ distinct_authors (omap follow_request evs)
          = distinct_authors (omap progress_fid evs).
Proof.
  intros run.
  split; [vm_compute; reflexivity |].
  split; [vm_compute; reflexivity |].
  split; [vm_compute; reflexivity |].
  destruct (follow_deduplication default_config "token" 5 ltac:(vm_compute; reflexivity))
    as [Hrun _].
  apply (Hrun 1 two_authors_world 3 run.2).
  vm_compute. reflexivity.
Defined.

(** A follow that is refused leaves the author out of the followed-set, so
    the next post of the same author is followed again: two requests for
    one distinct author. *)
Example refused_follow_is_repeated :
  let run := execute_focused_action default_config "token" 1 "follow" 2
               refused_follow_world in
  run.1 = Ok 1
  /\ omap progress_fid (trace run.2) = [JInt 7; JInt 7]
  /\ omap follow_request (trace run.2) = [JInt 7; JInt 7].
Proof. repeat split; vm_compute; reflexivity. Qed.

(** ** get_feed *)

Lemma feed_item_truthy (item : JSON) (t : Target) :
  feed_item item = Ok (Some t) ->
  py_truthy (c_hash t) = true /\ py_truthy (c_fid t) = true.
Proof.
  unfold feed_item, bindR.
  destruct (py_contains "cast" item) as [[|]| |]; try discriminate.
  destruct (py_getitem "cast" item) as [cast| |]; try discriminate.
  destruct (py_get "hash" JNull cast) as [cast_hash| |]; try discriminate.
  destruct (py_get "author" (JObj []) cast) as [author| |]; try discriminate.
  destruct (py_get "fid" JNull author) as [author_fid| |]; try discriminate.
  destruct (py_truthy cast_hash && py_truthy author_fid) eqn:E; try discriminate.
  destruct (feed_text cast); try discriminate.
  intros [= <-]. cbn. apply andb_prop in E. exact E.
Qed.

Lemma feed_items_ok (items : list JSON) :
  forall acc cast_data,
    feed_items items acc = Ok cast_data ->
    cast_data = acc ++ omap usable items
    /\ Forall (fun item => exists o, feed_item item = Ok o) items.
Proof.
  induction items as [|item items IH]; intros acc cast_data Hrun.
  - cbn in Hrun. injection Hrun as <-. rewrite app_nil_r. split; constructor.
  - cbn [feed_items] in Hrun. unfold bindR in Hrun.
    destruct (feed_item item) as [o| |] eqn:Hitem; try discriminate.
    apply IH in Hrun as [-> Hall]. split.
    + cbn. unfold usable at 2. rewrite Hitem.
      destruct o; [rewrite <- app_assoc |]; reflexivity.
    + constructor; [eauto | exact Hall].
Qed.

Lemma feed_items_returns (items : list JSON) :
  Forall (fun item => exists o, feed_item item = Ok o) items ->
  forall acc, exists cast_data, feed_items items acc = Ok cast_data.
Proof.
  induction 1 as [|item items [o Ho] _ IH]; intros acc; [eexists; reflexivity |].
  cbn [feed_items]. rewrite Ho. cbn. apply IH.
Qed.

Lemma omap_usable_truthy (items : list JSON) :
  Forall (fun t => py_truthy (c_hash t) = true /\ py_truthy (c_fid t) = true)
         (omap usable items).
Proof.
  apply Forall_forall. intros t (item & _ & Hu)%list_elem_of_omap.
  unfold usable in Hu.
  destruct (feed_item item) as [[t'|]| |] eqn:E; try discriminate.
  injection Hu as ->. exact (feed_item_truthy _ _ E).
Qed.

Lemma length_omap_le {A B : Type} (f : A -> option B) (l : list A) :
  (length (omap f l) <= length l)%nat.
Proof. induction l as [|a l IH]; cbn; [lia |]. destruct (f a); cbn; lia. Qed.

Lemma py_getitem_contains (key : string) (v x : JSON) :
  py_getitem key v = Ok x -> py_contains key v = Ok true.
Proof.
  destruct v; cbn; try discriminate.
  destruct (dict_lookup key kvs); [reflexivity | discriminate].
Qed.

(** C10.  On a response of status 200 whose body carries the list
    [result.items], the fetcher first cuts the list down to its first
    [limit] items and only then keeps the usable ones: the targets returned
    are the usable items among the first [limit] raw items, in feed order,
    each with a true post id and author id, and there are at most [limit]
    of them.  The fetch does return when every one of these first items can
    be read.  The list can be shorter than [limit] although the whole
    response holds [limit] usable items: they lie behind the cut. *)
Theorem feed_truncated_before_filter (cfg : Config) (bearer_token : string)
    (limit : Z) (w w1 : World) (r : Response) (data result : JSON)
    (raw : list JSON) :
  make_request cfg "POST" "feed-items" bearer_token
    (PFeed (feed_key cfg) (feed_type cfg)) w = (Ok (Some r), w1) ->
  status_code r = 200 ->
  body r = Some data ->
  py_getitem "result" data = Ok result ->
  py_getitem "items" result = Ok (JArr raw) ->
  0 <= limit ->
  let first := take (Z.to_nat limit) raw in
  get_feed cfg bearer_token limit w =
    (bindR (feed_items first []) (fun cast_data => Ok (true, cast_data)), w1)
  /\ (forall cast_data,
        get_feed cfg bearer_token limit w = (Ok (true, cast_data), w1) ->
        cast_data = omap usable first
        /\ len cast_data <= limit
        /\ Forall (fun t => py_truthy (c_hash t) = true
                            /\ py_truthy (c_fid t) = true) cast_data)
  /\ (Forall (fun item => exists o, feed_item item = Ok o) first ->
      get_feed cfg bearer_token limit w = (Ok (true, omap usable first), w1))
  /\ (limit = 2 -> raw = late_usable_feed ->
      limit <= len (omap usable raw) /\ omap usable first = []).
Proof.
  intros Hreq H200 Hbody Hresult Hitems Hlimit first.
  assert (Heq : get_feed cfg bearer_token limit w =
                (bindR (feed_items first []) (fun cast_data => Ok (true, cast_data)), w1)).
  { unfold get_feed. rewrite (bind_ok _ _ _ _ _ Hreq).
    unfold response_ok. rewrite H200, Hbody. cbn [Z.leb Z.ltb Z.eqb Z.compare
      Pos.compare Pos.compare_cont Pos.eqb andb negb].
    unfold bind, lift, ret, feed_cast_data.
    rewrite (py_getitem_contains _ _ _ Hresult), Hresult.
    cbn [bindR]. rewrite (py_getitem_contains _ _ _ Hitems), Hitems.
    cbn [bindR py_slice_iter]. unfold py_take.
    destruct (Z.leb_spec 0 limit); [| lia]. fold first.
    destruct (feed_items first []); reflexivity. }
  split; [exact Heq |]. split; [| split].
  - intros cast_data Hrun. rewrite Heq in Hrun.
    destruct (feed_items first []) as [cd| |] eqn:Hfeed; try discriminate.
    cbn in Hrun. injection Hrun as <-.
    apply feed_items_ok in Hfeed as [-> _]. cbn [app].
    split; [reflexivity |]. split; [| apply omap_usable_truthy].
    unfold len. pose proof (length_omap_le usable first).
    unfold first in *. rewrite length_take in *. lia.
  - intros Hall. rewrite Heq.
    destruct (feed_items_returns first Hall []) as [cd Hcd].
    rewrite Hcd. apply feed_items_ok in Hcd as [-> _]. reflexivity.
  - intros -> ->. unfold first. split; vm_compute; [discriminate | reflexivity].
Qed.

Lemma feed_truncated_before_filter_witness :
  let w := mkWorld [NetResponse (feed_response late_usable_feed)] [] [] in
  get_feed default_config "token" 2 w =
    (Ok (true, []),
     mkWorld [] [] [EvRequest (feed_request default_config "token")])
  /\ 2 <= len (omap usable late_usable_feed)
  /\ get_feed default_config "token" 3 w =
     (Ok (true, [mkTarget (JStr "0xa1") (JInt 7) "gm..."]),
      mkWorld [] [] [EvRequest (feed_request default_config "token")]).
Proof.
  intros w.
  pose proof (feed_truncated_before_filter default_config "token" 2 w
                (mkWorld [] [] [EvRequest (feed_request default_config "token")])
                (feed_response late_usable_feed) (feed_body late_usable_feed)
                (JObj [("items"%string, JArr late_usable_feed)]) late_usable_feed
                eq_refl eq_refl eq_refl eq_refl eq_refl ltac:(lia))
    as (Hrun & _ & _ & Hshort).
  destruct (Hshort eq_refl eq_refl) as [Hfull _].
  split; [exact Hrun |]. split; [exact Hfull |].
  vm_compute. reflexivity.
Defined.

Lemma get_feed_failure (cfg : Config) (bearer_token : string) (limit : Z)
    (w w1 : World) (resp : option Response) :
  make_request cfg "POST" "feed-items" bearer_token
    (PFeed (feed_key cfg) (feed_type cfg)) w = (Ok resp, w1) ->
  (resp = None \/ exists r, resp = Some r /\ status_code r <> 200) ->
  get_feed cfg bearer_token limit w = (Ok (false, []), w1).
Proof.
  intros Hreq Hbad. unfold get_feed. rewrite (bind_ok _ _ _ _ _ Hreq).
  destruct Hbad as [-> | (r & -> & Hr)]; [reflexivity |].
  destruct (Z.eqb_spec (status_code r) 200); [congruence |].
  rewrite andb_false_r. reflexivity.
Qed.

Lemma get_feed_unparseable (cfg : Config) (bearer_token : string) (limit : Z)
    (w w1 : World) (r : Response) :
  make_request cfg "POST" "feed-items" bearer_token
    (PFeed (feed_key cfg) (feed_type cfg)) w = (Ok (Some r), w1) ->
  status_code r = 200 ->
  body r = None ->
  get_feed cfg bearer_token limit w = (Raise JSONDecodeError, w1).
Proof.
  intros Hreq H200 Hbody. unfold get_feed. rewrite (bind_ok _ _ _ _ _ Hreq).
  unfold response_ok. rewrite H200, Hbody. reflexivity.
Qed.

(** A 200 response with nothing usable in it is a success with an empty
    list; items without a post id, or with the author id 0, are dropped. *)
Example get_feed_nothing_usable :
  get_feed default_config "token" 100
    (mkWorld [NetResponse (feed_response [entry_without_hash 3; feed_entry "0xa1" 0])]
             [] [])
  = (Ok (true, []),
     mkWorld [] [] [EvRequest (feed_request default_config "token")]).
Proof. reflexivity. Qed.

(** C8, where the code departs from it: a 200 response whose body is not
    JSON does not make [get_feed] return the failure result [(False, [])];
    the exception of [response.json()] leaves [get_feed], and with it
    [execute_focused_action]. *)
Theorem unparseable_feed_body_raises :
  let w := mkWorld [NetResponse (mkResponse 200 HAbsent None)] [] [] in
  get_feed default_config "token" 100 w =
    (Raise JSONDecodeError,
     mkWorld [] [] [EvRequest (feed_request default_config "token")])
  /\ get_feed default_config "token" 100 w <>
     (Ok (false, []),
      mkWorld [] [] [EvRequest (feed_request default_config "token")])
  /\ (execute_focused_action default_config "token" 1 "like" 10 w).1
     = Raise JSONDecodeError.
Proof. split; [reflexivity | split; [discriminate | reflexivity]]. Qed.

(** An item whose ["cast"] is [null] is not dropped either: reading it
    raises. *)
Example null_cast_raises :
  feed_item (JObj [("cast"%string, JNull)]) = Raise AttributeError.
Proof. reflexivity. Qed.

(** ** Focus mode and continuous mode *)

Lemma bind_ext {A B : Type} (m : M A) (k k' : A -> M B) (w : World) :
  (forall a w1, k a w1 = k' a w1) -> bind m k w = bind m k' w.
Proof.
  intros H. unfold bind. destruct (m w) as [[a| |] w1]; [apply H | reflexivity ..].
Qed.

Lemma batch_sizes_nonempty (fuel : nat) (batch_size remaining : Z) (sizes : list Z) :
  batch_sizes fuel batch_size remaining = Some sizes ->
  (0 <? remaining) = nonempty sizes.
Proof.
  destruct fuel; cbn [batch_sizes]; destruct (0 <? remaining); try discriminate.
  - intros [= <-]. reflexivity.
  - destruct (batch_sizes fuel _ _); [| discriminate]. intros [= <-]. reflexivity.
  - intros [= <-]. reflexivity.
Qed.

(** The [while] loop of focus mode runs the batches of [batch_sizes]. *)
Lemma batch_loop_runs_schedule (cfg : Config) (bearer_token : string)
    (idx : Z) (action : string) (batch_size : Z) :
  forall (fuel : nat) (remaining batch_count : Z) (sizes : list Z)
         (total_stats : gmap string Z) (w : World),
    batch_sizes fuel batch_size remaining = Some sizes ->
    batch_loop fuel cfg bearer_token idx action batch_size remaining
               batch_count total_stats w
    = run_batches cfg bearer_token idx action sizes batch_count total_stats w.
Proof.
  induction fuel as [|fuel IH]; intros remaining batch_count sizes total_stats w Hs.
  - cbn in Hs |- *. destruct (0 <? remaining); [discriminate |].
    injection Hs as <-. reflexivity.
  - cbn [batch_sizes batch_loop] in Hs |- *.
    destruct (0 <? remaining).
    + destruct (batch_sizes fuel batch_size (remaining - Z.min batch_size remaining))
        as [rest|] eqn:Hrest; [| discriminate].
      injection Hs as <-. cbn [run_batches].
      apply bind_ext. intros _ w1. apply bind_ext. intros success w2.
      apply bind_ext. intros total_stats' w3.
      rewrite (batch_sizes_nonempty _ _ _ _ Hrest).
      apply bind_ext. intros _ w4. apply IH. exact Hrest.
    + injection Hs as <-. reflexivity.
Qed.

(** One action of focus mode runs [execute_focused_action] once per entry
    of [schedule], in order. *)
Lemma focused_action_runs_schedule (fuel : nat) (cfg : Config)
    (bearer_token : string) (idx : Z) (action_targets : gmap string Z)
    (action : string) (total_stats : gmap string Z) (target : Z)
    (sizes : list Z) (w : World) :
  action_targets !! action = Some target ->
  schedule fuel target (batch_size cfg) = Some sizes ->
  focused_action fuel cfg bearer_token idx action_targets action total_stats w =
  if batch_size cfg <? target
  then run_batches cfg bearer_token idx action sizes 0 total_stats w
  else bind (execute_focused_action cfg bearer_token idx action target)
            (fun success => lift (stats_add action success total_stats)) w.
Proof.
  intros Htarget Hsched. unfold focused_action, lookup_target.
  rewrite Htarget. unfold bind at 1, lift. unfold schedule in Hsched.
  destruct (batch_size cfg <? target); [| reflexivity].
  apply batch_loop_runs_schedule. exact Hsched.
Qed.

(** C5, where the code departs from it: with [batch_size = 50] and the
    plan "like: 120", on a feed of 150 posts, one account of focus mode
    runs three batches of 50, 50 and 20 targets with two pauses between
    them, while one account of a cycle of continuous mode runs the 120
    targets as a single focused run, with no batch and no pause. *)
Theorem continuous_mode_does_not_batch :
  let stats := init_stats ["like"%string] false in
  let focus := focused_account 120 default_config [] ["like"%string] like_120
                 false 1 1 "token" stats (generous_world 150 130) in
  let cycle := continuous_account default_config [] ["like"%string] like_120
                 false 1 1 "token" stats (generous_world 150 130) in
  omap focus_target (trace focus.2) = [50; 50; 20]
  /\ count_events is_batch_pause (trace focus.2) = 2
  /\ omap focus_target (trace cycle.2) = [120]
  /\ count_events is_batch_pause (trace cycle.2) = 0
  /\ schedule 120 120 (batch_size default_config) = Some [50; 50; 20].
Proof. repeat split; vm_compute; reflexivity. Qed.

(** C2.  For a positive target and a positive batch size, the batch sizes
    that focus mode runs ([min(batch_size, remaining)] until nothing remains,
    or the target itself when it does not exceed the batch size) are
    produced in finitely many steps, sum to the target, are all positive,
    and none exceeds the batch size; and these are the target counts that
    one action of focus mode hands to [execute_focused_action], in order. *)
Theorem schedule_partitions_target (target batch : Z) (fuel : nat) :
  0 < target ->
  0 < batch ->
  (Z.to_nat target <= fuel)%nat ->
  exists sizes,
    schedule fuel target batch = Some sizes
    /\ sum_Z sizes = target
    /\ Forall (fun b => 0 < b <= batch) sizes
    /\ forall (cfg : Config) (bearer_token : string) (idx : Z)
              (action_targets : gmap string Z) (action : string)
              (total_stats : gmap string Z) (w : World),
         batch_size cfg = batch ->
         action_targets !! action = Some target ->
         focused_action fuel cfg bearer_token idx action_targets action
                        total_stats w =
         if batch <? target
         then run_batches cfg bearer_token idx action sizes 0 total_stats w
         else bind (execute_focused_action cfg bearer_token idx action target)
                   (fun success => lift (stats_add action success total_stats))
                   w.
Proof.
  intros Ht Hb Hfuel.
  assert (Hsizes : exists sizes,
             schedule fuel target batch = Some sizes
             /\ sum_Z sizes = target
             /\ Forall (fun b => 0 < b <= batch) sizes).
  { unfold schedule. destruct (Z.ltb_spec batch target) as [Hlt|Hge].
    - rewrite Z.min_l by lia.
      destruct (batch_sizes_spec batch Hb fuel target Hfuel)
        as (sizes & Hs & Hsum & Hall).
      exists sizes. repeat split; [exact Hs | lia | exact Hall].
    - exists [target]. repeat split; [cbn; lia |].
      constructor; [lia | constructor]. }
  destruct Hsizes as (sizes & Hs & Hsum & Hall).
  exists sizes. repeat split; try assumption.
  intros cfg bearer_token idx action_targets action total_stats w <- Htarget.
  apply focused_action_runs_schedule; assumption.
Qed.

Lemma schedule_partitions_target_witness :
  exists sizes,
    schedule 120 120 50 = Some sizes
    /\ sum_Z sizes = 120
    /\ Forall (fun b => 0 < b <= 50) sizes
    /\ forall (w : World),
         focused_action 120 default_config "token" 1 like_120 "like"
                        (init_stats ["like"%string] false) w =
         run_batches default_config "token" 1 "like" sizes 0
                     (init_stats ["like"%string] false) w.
Proof.
  destruct (schedule_partitions_target 120 50 120)
    as (sizes & Hs & Hsum & Hall & Hrun); [lia | lia | vm_compute; lia |].
  exists sizes. repeat split; try assumption.
  intros w. exact (Hrun default_config "token" 1 like_120 "like" _ w eq_refl eq_refl).
Defined.

Example schedule_120_by_50 : schedule 120 120 50 = Some [50; 50; 20].
Proof. reflexivity. Qed.

(** * Further properties *)

(** ** encrypt_token and decrypt_token *)

Lemma xor_ascii_cancel (a b : Ascii.ascii) : xor_ascii (xor_ascii a b) b = a.
Proof.
  destruct a, b. cbn.
  rewrite !Bool.xorb_assoc, !Bool.xorb_nilpotent, !Bool.xorb_false_r.
  reflexivity.
Qed.

Lemma xor_with_key_zip (data key : list Ascii.ascii) :
  xor_with_key data key = zip_with xor_ascii data key.
Proof.
  unfold xor_with_key. revert key.
  induction data as [|a data IH]; intros [|k key]; cbn; try reflexivity.
  rewrite IH. reflexivity.
Qed.

Lemma xor_with_key_twice (key : list Ascii.ascii) :
  forall data,
    xor_with_key (xor_with_key data key) key = take (length key) data.
Proof.
  intros data. rewrite !xor_with_key_zip. revert data.
  induction key as [|k key IH]; intros [|a data]; cbn; try reflexivity.
  rewrite xor_ascii_cancel, IH. reflexivity.
Qed.

(** What comes back from an encrypted token: the first 32 bytes of it. *)
Lemma decrypt_encrypt (L : Library) (salt : list Ascii.ascii) (token : string) :
  lawful L ->
  length salt = 16%nat ->
  decrypt_token L (encrypt_token L salt token) =
  bytes_decode L (take 32 (str_encode L token)).
Proof.
  intros HL Hsalt. unfold decrypt_token, encrypt_token.
  rewrite (b64_round_trip L HL).
  rewrite <- Hsalt at 1 2.
  rewrite take_app_length, drop_app_length, xor_with_key_twice.
  rewrite (key_length L HL). reflexivity.
Qed.

Lemma decrypt_encrypt_short (L : Library) (salt : list Ascii.ascii)
    (token : string) :
  lawful L ->
  length salt = 16%nat ->
  (length (str_encode L token) <= 32)%nat ->
  decrypt_token L (encrypt_token L salt token) = Some token.
Proof.
  intros HL Hsalt Hlen. rewrite (decrypt_encrypt L salt token HL Hsalt).
  rewrite take_ge by exact Hlen. apply (str_round_trip L HL).
Qed.

(** [decrypt_token] undoes [encrypt_token] on every token of at most 32
    bytes. *)
Theorem token_round_trip (L : Library) (salt : list Ascii.ascii)
    (token : string) :
  lawful L ->
  length salt = 16%nat ->
  (length (str_encode L token) <= 32)%nat ->
  decrypt_token L (encrypt_token L salt token) = Some token.
Proof. apply decrypt_encrypt_short. Qed.

(** A token of more than 32 bytes does not survive: the key has 32 bytes
    and [zip] stops there, so only the first 32 bytes are encrypted, and
    decryption gives back what these decode to, never the token. *)
Theorem long_token_is_cut (L : Library) (salt : list Ascii.ascii)
    (token : string) :
  lawful L ->
  length salt = 16%nat ->
  (32 < length (str_encode L token))%nat ->
  decrypt_token L (encrypt_token L salt token) =
    bytes_decode L (take 32 (str_encode L token))
  /\ decrypt_token L (encrypt_token L salt token) <> Some token.
Proof.
  intros HL Hsalt Hlen.
  rewrite (decrypt_encrypt L salt token HL Hsalt). split; [reflexivity |].
  intros Hdec. apply (bytes_round_trip L HL) in Hdec.
  apply (f_equal length) in Hdec. rewrite length_take in Hdec. lia.
Qed.

Lemma char_bit_char (b : bool) : char_bit (bit_char b) = b.
Proof. destruct b; reflexivity. Qed.

Lemma chars_bytes_bytes (data rest : list Ascii.ascii) :
  chars_bytes ((data ≫= byte_chars) ++ rest) = data ++ chars_bytes rest.
Proof.
  induction data as [|a data IH]; [reflexivity |].
  destruct a as [b0 b1 b2 b3 b4 b5 b6 b7].
  cbn [mbind list_bind byte_chars fmap list_fmap app chars_bytes].
  rewrite !char_bit_char. rewrite <- IH. reflexivity.
Qed.

Lemma bit_library_lawful : lawful bit_library.
Proof.
  split; cbn.
  - intros _. reflexivity.
  - intros data. rewrite String.list_ascii_of_string_of_list_ascii.
    rewrite <- (app_nil_r (data ≫= byte_chars)), chars_bytes_bytes.
    cbn. rewrite app_nil_r. reflexivity.
  - reflexivity.
  - intros s. rewrite String.string_of_list_ascii_of_string. reflexivity.
  - intros data s [= <-]. apply String.list_ascii_of_string_of_list_ascii.
  - intros data. rewrite String.list_ascii_of_string_of_list_ascii.
    induction data as [|a data IH]; [constructor |].
    destruct a as [b0 b1 b2 b3 b4 b5 b6 b7].
    cbn [mbind list_bind byte_chars fmap list_fmap app].
    repeat (constructor; [match goal with |- is_space (bit_char ?b) = _ =>
                                            destruct b; reflexivity end |]).
    exact IH.
Qed.

Lemma token_round_trip_witness :
  decrypt_token bit_library (encrypt_token bit_library salt_a "MK-token-1")
  = Some "MK-token-1"%string.
Proof.
  apply (token_round_trip bit_library salt_a "MK-token-1" bit_library_lawful);
    [reflexivity | vm_compute; lia].
Defined.

Lemma long_token_is_cut_witness :
  let token := "0123456789abcdefghijklmnopqrstuvwxyz"%string in
  decrypt_token bit_library (encrypt_token bit_library salt_a token)
  = Some "0123456789abcdefghijklmnopqrstuv"%string
  /\ decrypt_token bit_library (encrypt_token bit_library salt_a token)
     <> Some token.
Proof.
  intros token.
  apply (long_token_is_cut bit_library salt_a token bit_library_lawful);
    [reflexivity | vm_compute; lia].
Defined.

(** ** load_messages, load_accounts and setup_accounts *)

Lemma rstrip_unfold (c : Ascii.ascii) (l : list Ascii.ascii) :
  rstrip (c :: l) =
  match rstrip l with
  | [] => if is_space c then [] else [c]
  | kept => c :: kept
  end.
Proof. reflexivity. Qed.

Lemma rstrip_idem (l : list Ascii.ascii) : rstrip (rstrip l) = rstrip l.
Proof.
  induction l as [|c l IH]; [reflexivity |].
  rewrite rstrip_unfold. destruct (rstrip l) as [|k kept] eqn:E.
  - destruct (is_space c) eqn:Ec; [reflexivity |].
    rewrite rstrip_unfold. cbn [rstrip]. rewrite Ec. reflexivity.
  - rewrite rstrip_unfold, IH. reflexivity.
Qed.

Lemma rstrip_cons (c : Ascii.ascii) (l : list Ascii.ascii) :
  is_space c = false -> rstrip (c :: l) = c :: rstrip l.
Proof. intros Hc. cbn. rewrite Hc. destruct (rstrip l); reflexivity. Qed.

Lemma lstrip_head (l : list Ascii.ascii) :
  lstrip l = [] \/ exists c rest, lstrip l = c :: rest /\ is_space c = false.
Proof.
  induction l as [|c l IH]; [left; reflexivity |].
  cbn. destruct (is_space c) eqn:Ec; [exact IH |]. right. eauto.
Qed.

Lemma strip_idem (l : list Ascii.ascii) :
  rstrip (lstrip (rstrip (lstrip l))) = rstrip (lstrip l).
Proof.
  destruct (lstrip_head l) as [-> | (c & rest & -> & Hc)]; [reflexivity |].
  rewrite (rstrip_cons c rest Hc). cbn [lstrip]. rewrite Hc.
  rewrite (rstrip_cons c _ Hc), rstrip_idem. reflexivity.
Qed.

Lemma py_strip_idem (s : string) : py_strip (py_strip s) = py_strip s.
Proof.
  unfold py_strip. rewrite String.list_ascii_of_string_of_list_ascii, strip_idem.
  reflexivity.
Qed.

Lemma nonempty_str_true (s : string) : nonempty_str s = true <-> s <> ""%string.
Proof. destruct s; cbn; split; congruence. Qed.

(** [load_messages] succeeds whenever the file exists, even with nothing in
    it, and replaces the messages: every message it leaves is a line of the
    file that does not begin with [#], with the white space around it
    removed, and is not empty. *)
Theorem loaded_messages_clean (lines messages : list string) :
  (load_messages (Some lines) messages).1 = true
  /\ Forall (fun m => m <> ""%string
                      /\ py_strip m = m
                      /\ exists line, line ∈ lines /\ m = py_strip line
                                      /\ starts_with_hash line = false)
            (load_messages (Some lines) messages).2.
Proof.
  split; [reflexivity |]. cbn [load_messages snd].
  apply Forall_forall. intros m (line & -> & Hin)%list_elem_of_fmap.
  apply list_elem_of_In, List.filter_In in Hin as [Hin Hkeep].
  apply andb_prop in Hkeep as [Hne Hhash].
  split; [apply nonempty_str_true; exact Hne |].
  split; [apply py_strip_idem |].
  exists line. split; [apply list_elem_of_In; exact Hin |].
  split; [reflexivity |]. apply negb_true_iff. exact Hhash.
Qed.

Lemma append_decrypted_spec (L : Library) (encrypted_tokens : list string) :
  forall accounts,
  exists new,
    append_decrypted L encrypted_tokens accounts = accounts ++ new
    /\ Forall (fun t => t <> ""%string
                        /\ exists e, e ∈ encrypted_tokens
                                     /\ decrypt_token L e = Some t) new.
Proof.
  induction encrypted_tokens as [|e rest IH]; intros accounts.
  - exists []. rewrite app_nil_r. split; [reflexivity | constructor].
  - assert (Hskip : exists new,
              append_decrypted L rest accounts = accounts ++ new
              /\ Forall (fun t => t <> ""%string
                                  /\ exists e', e' ∈ e :: rest
                                                /\ decrypt_token L e' = Some t) new).
    { destruct (IH accounts) as (new & Heq & Hall). exists new. split; [exact Heq |].
      eapply Forall_impl; [exact Hall |]. intros t (Ht & e' & He' & Hd).
      split; [exact Ht |]. exists e'. split; [right; exact He' | exact Hd]. }
    cbn [append_decrypted]. destruct (decrypt_token L e) as [token|] eqn:Hdec;
      [| exact Hskip].
    destruct (nonempty_str token) eqn:Hne; [| exact Hskip].
    destruct (IH (accounts ++ [token])) as (new & Heq & Hall).
    exists (token :: new). rewrite Heq, <- app_assoc. split; [reflexivity |].
    constructor.
    + split; [apply nonempty_str_true; exact Hne |]. exists e.
      split; [left | exact Hdec].
    + eapply Forall_impl; [exact Hall |]. intros t (Ht & e' & He' & Hd).
      split; [exact Ht |]. exists e'. split; [right; exact He' | exact Hd].
Qed.

(** [load_accounts] keeps the accounts already loaded and appends to them;
    every account it appends is the non-empty decryption of a line of the
    file; and it answers [True] exactly when the file exists and the account
    list is not empty afterwards. *)
Theorem loaded_accounts_nonempty (L : Library) (file : option (list string))
    (accounts : list string) :
  exists new,
    (load_accounts L file accounts).2 = accounts ++ new
    /\ Forall (fun t => t <> ""%string
                        /\ exists lines line,
                             file = Some lines /\ line ∈ lines
                             /\ decrypt_token L (py_strip line) = Some t) new
    /\ ((load_accounts L file accounts).1 = true <->
        file <> None /\ accounts ++ new <> []).
Proof.
  destruct file as [lines|]; cbn [load_accounts fst snd].
  - destruct (append_decrypted_spec L
                (py_strip <$> List.filter (fun line => nonempty_str (py_strip line)) lines)
                accounts) as (new & Heq & Hall).
    exists new. rewrite Heq. split; [reflexivity |]. split.
    + eapply Forall_impl; [exact Hall |].
      intros t (Ht & e & (line & -> & Hin)%list_elem_of_fmap & Hd).
      split; [exact Ht |]. exists lines, line. split; [reflexivity |].
      split; [| exact Hd].
      apply list_elem_of_In, List.filter_In in Hin as [Hin _].
      apply list_elem_of_In. exact Hin.
    + destruct (accounts ++ new); cbn; split.
      * discriminate.
      * intros [_ H]. congruence.
      * intros _. split; discriminate.
      * reflexivity.
  - exists []. rewrite app_nil_r. split; [reflexivity |].
    split; [constructor |]. split; [discriminate | intros [H _]; congruence].
Qed.

Lemma read_tokens_spec (inputs : list string) :
  forall accounts result,
    read_tokens inputs accounts = Some result ->
    exists new,
      result = accounts ++ new
      /\ Forall (fun t => t <> ""%string /\ py_strip t = t
                          /\ py_lower t <> "done"%string) new.
Proof.
  induction inputs as [|line rest IH]; intros accounts result Hrun; [discriminate |].
  cbn [read_tokens] in Hrun.
  destruct (String.eqb (py_lower (py_strip line)) "done") eqn:Hdone.
  - injection Hrun as <-. exists []. rewrite app_nil_r. split; [reflexivity | constructor].
  - destruct (nonempty_str (py_strip line)) eqn:Hne.
    + apply IH in Hrun as (new & -> & Hall). exists (py_strip line :: new).
      rewrite <- app_assoc. split; [reflexivity |]. constructor; [| exact Hall].
      split; [apply nonempty_str_true; exact Hne |].
      split; [apply py_strip_idem |]. apply String.eqb_neq. exact Hdone.
    + exact (IH _ _ Hrun).
Qed.

Lemma list_ascii_of_string_app (s1 s2 : string) :
  String.list_ascii_of_string (s1 ++ s2) =
  String.list_ascii_of_string s1 ++ String.list_ascii_of_string s2.
Proof.
  induction s1 as [|c s1 IH]; [reflexivity |].
  change (c :: String.list_ascii_of_string (s1 ++ s2)
          = c :: (String.list_ascii_of_string s1 ++ String.list_ascii_of_string s2)).
  f_equal. exact IH.
Qed.

Lemma rstrip_clean (l : list Ascii.ascii) :
  Forall (fun c => is_space c = false) l -> rstrip l = l.
Proof.
  induction 1 as [|c l Hc _ IH]; [reflexivity |].
  rewrite (rstrip_cons c l Hc), IH. reflexivity.
Qed.

Lemma rstrip_newline (l : list Ascii.ascii) :
  rstrip (l ++ [Ascii.ascii_of_nat 10]) = rstrip l.
Proof.
  induction l as [|c l IH]; [reflexivity |].
  cbn [app]. rewrite !rstrip_unfold, IH. reflexivity.
Qed.

Lemma lstrip_clean (l : list Ascii.ascii) :
  l <> [] ->
  Forall (fun c => is_space c = false) l ->
  lstrip (l ++ [Ascii.ascii_of_nat 10]) = l ++ [Ascii.ascii_of_nat 10].
Proof.
  intros Hne Hall. destruct Hall as [|c l Hc _]; [congruence |].
  cbn. rewrite Hc. reflexivity.
Qed.

(** A line written by [setup_accounts] is read back by [load_accounts] as
    the base64 text itself. *)
Lemma strip_account_line (L : Library) (data : list Ascii.ascii) :
  lawful L ->
  data <> [] ->
  py_strip (b64encode L data ++ String (Ascii.ascii_of_nat 10) EmptyString)
  = b64encode L data
  /\ b64encode L data <> ""%string.
Proof.
  intros HL Hdata.
  assert (Hne : b64encode L data <> ""%string).
  { intros Hempty. pose proof (b64_round_trip L HL data) as Hrt.
    rewrite Hempty, <- (b64_empty L HL), (b64_round_trip L HL) in Hrt.
    congruence. }
  split; [| exact Hne].
  unfold py_strip. rewrite list_ascii_of_string_app. cbn [String.list_ascii_of_string].
  pose proof (b64_alphabet L HL data) as Hclean.
  rewrite lstrip_clean; [| | exact Hclean].
  - rewrite rstrip_newline, (rstrip_clean _ Hclean).
    apply String.string_of_list_ascii_of_string.
  - intros Hnil. apply Hne.
    rewrite <- (String.string_of_list_ascii_of_string (b64encode L data)), Hnil.
    reflexivity.
Qed.

Lemma account_lines_load (L : Library) :
  lawful L ->
  forall (accounts : list string) (urandom : nat -> list Ascii.ascii)
         (loaded : list string),
    (forall i, length (urandom i) = 16%nat) ->
    Forall (fun t => t <> ""%string
                     /\ (length (str_encode L t) <= 32)%nat) accounts ->
    append_decrypted L
      (py_strip <$> List.filter (fun line => nonempty_str (py_strip line))
                                (account_lines L urandom accounts))
      loaded
    = loaded ++ accounts.
Proof.
  intros HL. induction accounts as [|t accounts IH]; intros urandom loaded Hsalt Hall.
  - cbn. rewrite app_nil_r. reflexivity.
  - inversion Hall as [|? ? [Hne Hlen] Hrest]; subst.
    unfold account_lines. rewrite imap_cons.
    change (imap _ accounts) with (account_lines L (urandom ∘ S) accounts).
    assert (Hdata : urandom 0%nat ++ xor_with_key (str_encode L t)
                                        (pbkdf2_hmac L (urandom 0%nat)) <> []).
    { intros Hnil. apply (f_equal length) in Hnil.
      rewrite length_app, Hsalt in Hnil. cbn in Hnil. lia. }
    destruct (strip_account_line L _ HL Hdata) as [Hstrip Hnonempty].
    unfold encrypt_token at 1. cbn [List.filter]. rewrite Hstrip.
    apply nonempty_str_true in Hnonempty. rewrite Hnonempty.
    rewrite fmap_cons, Hstrip. cbn [append_decrypted].
    fold (encrypt_token L (urandom 0%nat) t).
    rewrite (decrypt_encrypt_short L (urandom 0%nat) t HL (Hsalt 0%nat) Hlen).
    apply nonempty_str_true in Hne. rewrite Hne.
    rewrite (IH (urandom ∘ S) (loaded ++ [t])); [| intros i; apply Hsalt | exact Hrest].
    rewrite <- app_assoc. reflexivity.
Qed.

(** Accounts saved by [setup_accounts] come back from [load_accounts] as
    they were typed (stripped, in order), provided each has at most 32
    bytes: the file written for a non-empty list of tokens loads to exactly
    that list, with the answer [True]. *)
Theorem setup_then_load (L : Library) (urandom : nat -> list Ascii.ascii)
    (inputs : list string) (file : option (list string))
    (accounts : list string) :
  lawful L ->
  (forall i, length (urandom i) = 16%nat) ->
  read_tokens inputs [] = Some accounts ->
  accounts <> [] ->
  Forall (fun t => (length (str_encode L t) <= 32)%nat) accounts ->
  exists written,
    setup_accounts L urandom inputs file = Some (Some written)
    /\ load_accounts L (Some written) [] = (true, accounts).
Proof.
  intros HL Hsalt Hread Hne Hlen.
  exists (account_lines L urandom accounts). split.
  - unfold setup_accounts. rewrite Hread.
    destruct accounts; [congruence | reflexivity].
  - unfold load_accounts.
    apply read_tokens_spec in Hread as (new & Heq & Hclean). cbn in Heq. subst new.
    rewrite (account_lines_load L HL accounts urandom [] Hsalt).
    + cbn. destruct accounts; [congruence | reflexivity].
    + apply Forall_forall. intros t Ht.
      rewrite Forall_forall in Hclean, Hlen.
      split; [apply (Hclean t Ht) | apply (Hlen t Ht)].
Qed.

Lemma setup_then_load_witness :
  exists written,
    setup_accounts bit_library (fun _ => salt_a)
      ["  MK-token-1 "; ""; "MK-token-2"; "Done"]%string None
    = Some (Some written)
    /\ load_accounts bit_library (Some written) []
       = (true, ["MK-token-1"; "MK-token-2"]%string).
Proof.
  apply (setup_then_load bit_library (fun _ => salt_a) _ None
           ["MK-token-1"; "MK-token-2"]%string bit_library_lawful).
  - intros _. reflexivity.
  - vm_compute. reflexivity.
  - discriminate.
  - repeat constructor; vm_compute; lia.
Defined.

(** ** countdown_timer *)

(** The hours, minutes and seconds shown for [remaining] seconds add up to
    [remaining], with minutes and seconds below 60, and the hours are not
    negative when [remaining] is not. *)
Theorem countdown_fields_recompose (remaining : Z) :
  let '(hours, minutes, secs) := countdown_fields remaining in
  hours * 3600 + minutes * 60 + secs = remaining
  /\ 0 <= minutes < 60
  /\ 0 <= secs < 60
  /\ (0 <= remaining -> 0 <= hours).
Proof.
  unfold countdown_fields.
  pose proof (Z.div_mod remaining 3600 ltac:(lia)) as H1.
  pose proof (Z.mod_pos_bound remaining 3600 ltac:(lia)) as H2.
  pose proof (Z.div_mod (remaining mod 3600) 60 ltac:(lia)) as H3.
  pose proof (Z.mod_pos_bound (remaining mod 3600) 60 ltac:(lia)) as H4.
  pose proof (Z.mod_pos_bound remaining 60 ltac:(lia)) as H5.
  assert (H6 : (remaining mod 3600) mod 60 = remaining mod 60).
  { apply Z.mod_mod_divide. exists 60. reflexivity. }
  assert (H7 : 0 <= (remaining mod 3600) / 60 < 60).
  { split; [apply Z.div_pos; lia | apply Z.div_lt_upper_bound; lia]. }
  repeat split; lia.
Qed.

(** ** The prompts *)

Lemma action_map_plans (choice : string) (selected_actions : list string) :
  action_map choice = Some selected_actions ->
  selected_actions <> []
  /\ NoDup selected_actions
  /\ selected_actions ⊆ ["like"; "recast"; "follow"]%string.
Proof.
  unfold action_map.
  repeat (destruct (String.eqb choice _);
          [intros [= <-]; split; [discriminate |];
           split; [repeat constructor; set_solver | set_solver] |]).
  discriminate.
Qed.

Lemma read_target_positive (parse_int : string -> option Z) (inputs : list string) :
  forall target rest,
    read_target parse_int inputs = Some (target, rest) ->
    0 < target /\ rest `suffix_of` inputs.
Proof.
  induction inputs as [|line inputs IH]; intros target rest Hrun; [discriminate |].
  cbn [read_target] in Hrun.
  assert (Hnext : read_target parse_int inputs = Some (target, rest) ->
                  0 < target /\ rest `suffix_of` line :: inputs).
  { intros H. destruct (IH _ _ H) as [Hpos Hsuf]. split; [exact Hpos |].
    apply suffix_cons_r. exact Hsuf. }
  destruct (parse_int line) as [z|]; [| exact (Hnext Hrun)].
  destruct (Z.ltb_spec 0 z); [| exact (Hnext Hrun)].
  injection Hrun as <- <-. split; [lia |]. apply suffix_cons_r. reflexivity.
Qed.

Lemma read_targets_spec (parse_int : string -> option Z)
    (selected_actions : list string) :
  forall inputs action_targets result rest,
    read_targets parse_int selected_actions inputs action_targets
      = Some (result, rest) ->
    dom result = list_to_set selected_actions ∪ dom action_targets
    /\ (forall action target,
          result !! action = Some target ->
          0 < target \/ action_targets !! action = Some target).
Proof.
  induction selected_actions as [|action actions IH];
    intros inputs action_targets result rest Hrun.
  - injection Hrun as <- <-. split; [set_solver | auto].
  - cbn [read_targets] in Hrun.
    destruct (read_target parse_int inputs) as [[target inputs']|] eqn:Hread;
      [| discriminate].
    apply read_target_positive in Hread as [Hpos _].
    apply IH in Hrun as [Hdom Hvals]. split.
    + rewrite Hdom, dom_insert_L. set_solver.
    + intros a t Ha. destruct (Hvals a t Ha) as [Ht | Hold]; [left; exact Ht |].
      destruct (decide (action = a)) as [-> | Hne].
      * rewrite lookup_insert_eq in Hold. injection Hold as <-. left. exact Hpos.
      * rewrite lookup_insert_ne in Hold by exact Hne. right. exact Hold.
Qed.

(** Whatever is typed, a plan that comes out of the prompts is one of the
    seven combinations of like, recast and follow, without repetition, and
    gives every selected action, and nothing else, a target greater than 0:
    an entry that [int()] rejects or that is not positive is asked again,
    never accepted. *)
Theorem prompted_plan_is_valid (parse_int : string -> option Z)
    (inputs : list string) (selected_actions : list string)
    (action_targets : gmap string Z) (post_cast : bool) (rest : list string) :
  read_plan parse_int inputs
    = Plan selected_actions action_targets post_cast rest ->
  selected_actions <> []
  /\ NoDup selected_actions
  /\ selected_actions ⊆ ["like"; "recast"; "follow"]%string
  /\ dom action_targets = list_to_set selected_actions
  /\ (forall action, action ∈ selected_actions ->
        exists target, lookup_target action action_targets = Ok target
                       /\ 0 < target).
Proof.
  unfold read_plan. intros Hrun.
  destruct inputs as [|choice inputs1]; [discriminate |].
  destruct (action_map (py_strip choice)) as [selected|] eqn:Hmap; [| discriminate].
  destruct (read_targets parse_int selected inputs1 ∅) as [[targets inputs2]|] eqn:Hread;
    [| discriminate].
  destruct inputs2 as [|answer inputs3]; [discriminate |].
  injection Hrun as <- <- <- <-.
  apply action_map_plans in Hmap as (Hne & Hnodup & Hsub).
  apply read_targets_spec in Hread as [Hdom Hvals].
  rewrite dom_empty_L, (right_id_L ∅ (∪)) in Hdom.
  repeat split; try assumption.
  intros action Hin.
  assert (Hd : action ∈ dom targets) by (rewrite Hdom; set_solver).
  apply elem_of_dom in Hd as [target Ht]. exists target.
  unfold lookup_target. rewrite Ht. split; [reflexivity |].
  destruct (Hvals action target Ht) as [Hpos | Hold]; [exact Hpos |].
  rewrite lookup_empty in Hold. discriminate.
Qed.

Lemma prompted_plan_is_valid_witness :
  read_plan example_int [" 5 "; "abc"; "0"; "120"; "-5"; "30"; " Y"; "next"]%string
  = Plan ["like"; "follow"]%string
         (<["follow"%string := 30]> (<["like"%string := 120]> ∅)) true ["next"%string]
  /\ exists target,
       lookup_target "follow" (<["follow"%string := 30]> (<["like"%string := 120]> ∅))
       = Ok target /\ 0 < target.
Proof.
  split; [vm_compute; reflexivity |].
  apply (prompted_plan_is_valid example_int
           [" 5 "; "abc"; "0"; "120"; "-5"; "30"; " Y"; "next"]%string
           ["like"; "follow"]%string _ true ["next"%string]);
    [vm_compute; reflexivity | set_solver].
Defined.

(** ** make_request: bounds and recovery *)

Lemma request_loop_bounded (cfg : Config) (rq : Request) :
  forall (attempts : list Z) (w : World) (r : Res (option Response)) (w' : World),
    request_loop cfg rq attempts w = (r, w') ->
    exists evs,
      trace w' = trace w ++ evs
      /\ count_events is_request evs <= len attempts
      /\ (forall resp, r = Ok (Some resp) ->
            status_code resp <> 429 /\ NetResponse resp ∈ net w).
Proof.
  induction attempts as [|attempt rest IH]; intros w r w' Hrun.
  - cbn in Hrun. injection Hrun as <- <-. exists []. rewrite app_nil_r.
    split; [reflexivity |]. split; [unfold count_events, len; cbn; lia |].
    intros resp [=].
  - cbn [request_loop] in Hrun. unfold bind at 1, session_request in Hrun.
    set (w1 := mkWorld (tail (net w)) (rnd w) (trace w ++ [EvRequest rq])).
    assert (Hlen : len (attempt :: rest) = len rest + 1) by (unfold len; cbn; lia).
    assert (Hstop : forall x : Res (option Response),
      (forall resp, x = Ok (Some resp) ->
         status_code resp <> 429 /\ NetResponse resp ∈ net w) ->
      (x, w1) = (r, w') ->
      exists evs,
        trace w' = trace w ++ evs
        /\ count_events is_request evs <= len (attempt :: rest)
        /\ (forall resp, r = Ok (Some resp) ->
              status_code resp <> 429 /\ NetResponse resp ∈ net w)).
    { intros x Hx [= <- <-]. exists [EvRequest rq]. split; [reflexivity |].
      split; [| exact Hx]. rewrite Hlen. unfold count_events, len; cbn. lia. }
    assert (Hnext : forall secs,
      bind (sleep secs) (fun _ => request_loop cfg rq rest) w1 = (r, w') ->
      exists evs,
        trace w' = trace w ++ evs
        /\ count_events is_request evs <= len (attempt :: rest)
        /\ (forall resp, r = Ok (Some resp) ->
              status_code resp <> 429 /\ NetResponse resp ∈ net w)).
    { intros secs Hgo. unfold bind, sleep in Hgo.
      destruct (secs <? 0).
      { cbn in Hgo. apply (Hstop (Raise ValueError)); [intros ? [=] | exact Hgo]. }
      cbn in Hgo. apply IH in Hgo as (evs & Htr & Hcount & Hresp).
      cbn [trace net] in Htr, Hresp.
      exists (EvRequest rq :: EvSleep secs :: evs).
      split; [rewrite Htr, <- !app_assoc; reflexivity |]. split.
      - change (EvRequest rq :: EvSleep secs :: evs)
          with ([EvRequest rq; EvSleep secs] ++ evs).
        rewrite count_events_app, Hlen.
        change (count_events is_request [EvRequest rq; EvSleep secs]) with 1. lia.
      - intros resp Hr. destruct (Hresp resp Hr) as [Hs Hin]. split; [exact Hs |].
        destruct (net w); [inversion Hin | right; exact Hin]. }
    destruct (net w) as [|ev script] eqn:Hnet; cbn [tail] in *.
    + destruct (attempt <? max_retries cfg - 1);
        [exact (Hnext _ Hrun) | apply (Hstop (Ok None)); [intros ? [=] | exact Hrun]].
    + destruct ev as [response|].
      * destruct (status_code response =? 429) eqn:E429.
        -- unfold bind at 1, lift in Hrun.
           destruct (int_retry_after (retry_after response)) as [secs| e |];
             [exact (Hnext _ Hrun)
             | apply (Hstop (Raise e)); [intros ? [=] | exact Hrun]
             | apply (Hstop OutOfFuel); [intros ? [=] | exact Hrun]].
        -- apply (Hstop (Ok (Some response))); [| exact Hrun].
           intros resp [= <-]. split; [apply Z.eqb_neq; exact E429 | left].
      * destruct (attempt <? max_retries cfg - 1);
          [exact (Hnext _ Hrun) | apply (Hstop (Ok None)); [intros ? [=] | exact Hrun]].
Qed.

(** Whatever the network does, one call of [make_request] sends at most
    [max_retries] requests, and a response it returns is one the network
    sent and never a 429. *)
Theorem make_request_bounded (cfg : Config)
    (method endpoint bearer_token : string) (payload : Payload) (w : World) :
  let res := make_request cfg method endpoint bearer_token payload w in
  exists evs,
    trace res.2 = trace w ++ evs
    /\ count_events is_request evs <= Z.max 0 (max_retries cfg)
    /\ (forall resp, res.1 = Ok (Some resp) ->
          status_code resp <> 429 /\ NetResponse resp ∈ net w).
Proof.
  intros res.
  destruct (request_loop_bounded cfg
              (the_request cfg method endpoint bearer_token payload)
              (seqZ 0 (max_retries cfg)) w res.1 res.2)
    as (evs & Htr & Hcount & Hresp).
  { unfold res. rewrite make_request_unfold. apply surjective_pairing. }
  exists evs. split; [exact Htr |]. split; [| exact Hresp].
  unfold len in Hcount. rewrite length_seqZ in Hcount. lia.
Qed.

Lemma request_loop_recovers (cfg : Config) (rq : Request) (resp : Response)
    (rest : list NetEvent) :
  status_code resp <> 429 ->
  forall (before : list NetEvent) (first count : Z) (w : World),
    0 <= first ->
    first + count = max_retries cfg ->
    len before < count ->
    Forall retryable before ->
    net w = before ++ NetResponse resp :: rest ->
    exists evs,
      request_loop cfg rq (seqZ first count) w =
        (Ok (Some resp), mkWorld rest (rnd w) (trace w ++ evs))
      /\ count_events is_request evs = len before + 1.
Proof.
  intros Hresp. induction before as [|ev before IH];
    intros first count w Hfirst Hsum Hlen Hall Hnet.
  - unfold len in Hlen. cbn in Hlen. rewrite seqZ_cons by lia.
    cbn [request_loop]. cbn in Hnet.
    rewrite (bind_ok _ _ _ _ _ (session_request_cons rq _ _ _ Hnet)).
    destruct (Z.eqb_spec (status_code resp) 429); [congruence |].
    exists [EvRequest rq]. split; reflexivity.
  - assert (Hl : len (ev :: before) = len before + 1) by (unfold len; cbn; lia).
    rewrite Hl in *. rewrite seqZ_cons by (unfold len in *; lia).
    inversion Hall as [|? ? Hev Hrest]; subst. cbn in Hnet.
    assert (Hstep : exists secs,
              request_loop cfg rq (first :: seqZ (Z.succ first) (Z.pred count)) w =
              request_loop cfg rq (seqZ (Z.succ first) (Z.pred count))
                (mkWorld (before ++ NetResponse resp :: rest) (rnd w)
                         ((trace w ++ [EvRequest rq]) ++ [EvSleep secs]))).
    { destruct Hev as [-> | (secs & r & -> & H429 & Hint & Hsecs)].
      - exists (2 ^ first).
        rewrite (request_loop_error_retry cfg rq first _ w _
                   (session_request_cons rq _ _ _ Hnet))
          by (unfold len in *; lia).
        reflexivity.
      - exists secs.
        rewrite (request_loop_429 cfg rq first _ w _ r secs
                   (session_request_cons rq _ _ _ Hnet) H429 Hint Hsecs).
        reflexivity. }
    destruct Hstep as (secs & ->).
    destruct (IH (Z.succ first) (Z.pred count)
                 (mkWorld (before ++ NetResponse resp :: rest) (rnd w)
                          ((trace w ++ [EvRequest rq]) ++ [EvSleep secs])))
      as (evs & Hrun & Hcount); [lia | lia | lia | exact Hrest | reflexivity |].
    exists (EvRequest rq :: EvSleep secs :: evs).
    rewrite Hrun. cbn [rnd trace]. rewrite <- !app_assoc. split; [reflexivity |].
    change (EvRequest rq :: EvSleep secs :: evs)
      with ([EvRequest rq; EvSleep secs] ++ evs).
    rewrite count_events_app, Hcount.
    change (count_events is_request [EvRequest rq; EvSleep secs]) with 1. lia.
Qed.

(** The client recovers within its budget: when fewer than [max_retries]
    transport failures and rate-limit answers come before a response that
    is not a 429, [make_request] returns that response, unmodified whatever
    its status, after one request per outcome, and leaves the rest of the
    network script untouched. *)
Theorem make_request_recovers (cfg : Config)
    (method endpoint bearer_token : string) (payload : Payload) (w : World)
    (before : list NetEvent) (resp : Response) (rest : list NetEvent) :
  Forall retryable before ->
  len before < max_retries cfg ->
  status_code resp <> 429 ->
  net w = before ++ NetResponse resp :: rest ->
  exists evs,
    make_request cfg method endpoint bearer_token payload w =
      (Ok (Some resp), mkWorld rest (rnd w) (trace w ++ evs))
    /\ count_events is_request evs = len before + 1.
Proof.
  intros Hall Hlen Hresp Hnet. rewrite make_request_unfold.
  apply (request_loop_recovers cfg _ resp rest Hresp before 0 (max_retries cfg) w);
    try assumption; lia.
Qed.

Lemma make_request_recovers_witness :
  let w := mkWorld [NetError; NetResponse (limited (HInt 5));
                    NetResponse (mkResponse 500 HAbsent None);
                    NetResponse ok_response] [] [] in
  exists evs,
    make_request default_config "PUT" "cast-likes" "token" like_payload w =
      (Ok (Some (mkResponse 500 HAbsent None)),
       mkWorld [NetResponse ok_response] [] ([] ++ evs))
    /\ count_events is_request evs = 3.
Proof.
  intros w.
  apply (make_request_recovers default_config "PUT" "cast-likes" "token"
           like_payload w [NetError; NetResponse (limited (HInt 5))]).
  - constructor; [left; reflexivity |]. constructor; [| constructor].
    right. exists 5, (limited (HInt 5)). repeat split. lia.
  - vm_compute. reflexivity.
  - discriminate.
  - reflexivity.
Defined.

(** With [max_retries] at 0 or below nothing is ever sent: the loop over
    the attempts is empty, [make_request] returns [None] at once, and a
    focused run returns 0 after printing its header. *)
Theorem no_retries_no_requests (cfg : Config) (bearer_token : string)
    (method endpoint : string) (payload : Payload)
    (account_idx : Z) (action_type : string) (target_count : Z) (w : World) :
  max_retries cfg <= 0 ->
  make_request cfg method endpoint bearer_token payload w = (Ok None, w)
  /\ execute_focused_action cfg bearer_token account_idx action_type
       target_count w =
     (Ok 0, mkWorld (net w) (rnd w)
              (trace w ++ [EvFocus account_idx action_type target_count])).
Proof.
  intros Hmax.
  assert (Hreq : forall m e p w0, make_request cfg m e bearer_token p w0 = (Ok None, w0)).
  { intros m e p w0. rewrite make_request_unfold.
    assert (Hnil : seqZ 0 (max_retries cfg) = []).
    { apply length_zero_iff_nil. rewrite length_seqZ. lia. }
    rewrite Hnil. reflexivity. }
  split; [apply Hreq |].
  unfold execute_focused_action, focused_fetch, get_feed.
  unfold bind at 1. unfold bind at 1, log. unfold bind at 1.
  rewrite Hreq. reflexivity.
Qed.

Lemma no_retries_no_requests_witness :
  let cfg := mkConfig "https://farcaster.xyz/~api/v2" "home" "default"
               (mkDelay 3 8 8 15) 50 0 in
  make_request cfg "PUT" "cast-likes" "token" like_payload same_author_world
    = (Ok None, same_author_world)
  /\ execute_focused_action cfg "token" 1 "follow" 2 same_author_world =
     (Ok 0, mkWorld (net same_author_world) [] [EvFocus 1 "follow" 2]).
Proof.
  intros cfg.
  apply (no_retries_no_requests cfg "token" "PUT" "cast-likes" like_payload
           1 "follow" 2 same_author_world).
  vm_compute. discriminate.
Defined.

(** ** get_feed: what it returns *)








(** ** execute_focused_action: the targets and the waits *)

Lemma fmap_submseteq {A B : Type} (f : A -> B) (l1 l2 : list A) :
  l1 ⊆+ l2 -> f <$> l1 ⊆+ f <$> l2.
Proof.
  induction 1 as [| x l1 l2 _ IH | x y l | x l1 l2 _ IH | l1 l2 l3 _ IH1 _ IH2]; cbn.
  - constructor.
  - constructor. exact IH.
  - apply submseteq_swap.
  - apply submseteq_cons. exact IH.
  - etrans; eassumption.
Qed.

Lemma py_take_submseteq {A : Type} (n : Z) (l : list A) : py_take n l ⊆+ l.
Proof.
  unfold py_take. destruct (0 <=? n); apply sublist_submseteq, sublist_take.
Qed.

Lemma py_take_len {A : Type} (n : Z) (l : list A) :
  0 <= n -> len (py_take n l) = Z.min n (len l).
Proof.
  intros Hn. unfold py_take, len. destruct (Z.leb_spec 0 n); [| lia].
  rewrite length_take. lia.
Qed.

(** A completed run works on targets drawn from the feed it fetched, each
    entry of the feed at most once, on no more of them than asked for, and
    returns a count between 0 and the number of targets it worked on. *)
Theorem run_targets_from_feed (cfg : Config) (bearer_token : string)
    (account_idx : Z) (action_type : string) (target_count : Z)
    (w : World) (n : Z) (w' : World) :
  execute_focused_action cfg bearer_token account_idx action_type
    target_count w = (Ok n, w') ->
  exists (success : bool) (cast_data : list Target) (w1 : World)
         (evs : list Event),
    focused_fetch cfg bearer_token account_idx action_type target_count w
      = (Ok (success, cast_data), w1)
    /\ trace w' = trace w1 ++ evs
    /\ omap progress_fid evs ⊆+ (c_fid <$> cast_data)
    /\ (0 <= target_count -> len (omap progress_fid evs) <= target_count)
    /\ 0 <= n <= len (omap progress_fid evs).
Proof.
  intros Hrun.
  apply execute_ok in Hrun
    as (success & cast_data & sel & w1 & evs & st' & Hfetch & Htr & Hn & Hcases).
  exists success, cast_data, w1, evs.
  split; [exact Hfetch |]. split; [exact Htr |].
  destruct Hcases
    as [(_ & _ & -> & _ & ->)
       | (_ & _ & (shuffled & Hperm & Hsel) & _ & Hfid & Hcount & Hle & _)].
  - subst n. change (omap progress_fid []) with (@nil JSON).
    change (len (@nil JSON)) with 0. cbn [success_count].
    split; [apply submseteq_nil_l |]. split; lia.
  - rewrite Hfid. split.
    + apply fmap_submseteq. rewrite Hsel.
      etrans; [apply py_take_submseteq | apply Permutation_submseteq, Hperm].
    + assert (Hlen : len (c_fid <$> sel) = len sel)
        by (unfold len; rewrite length_fmap; reflexivity).
      rewrite Hlen. split.
      * intros Htc. rewrite Hsel, py_take_len, (len_perm _ _ Hperm)
          by (destruct (len cast_data <? target_count); unfold len; lia).
        destruct (len cast_data <? target_count) eqn:E; [apply Z.ltb_lt in E |]; lia.
      * pose proof (count_events_nonneg is_success evs).
        pose proof (count_events_nonneg is_skip evs). lia.
Qed.

Lemma run_targets_from_feed_witness :
  let run := execute_focused_action default_config "token" 1 "like" 2
               two_authors_world in
  exists (success : bool) (cast_data : list Target) (w1 : World)
         (evs : list Event),
    focused_fetch default_config "token" 1 "like" 2 two_authors_world
      = (Ok (success, cast_data), w1)
    /\ trace run.2 = trace w1 ++ evs
    /\ omap progress_fid evs ⊆+ (c_fid <$> cast_data)
    /\ (0 <= 2 -> len (omap progress_fid evs) <= 2)
    /\ 0 <= 2 <= len (omap progress_fid evs).
Proof.
  intros run.
  apply (run_targets_from_feed default_config "token" 1 "like" 2
           two_authors_world 2 run.2).
  vm_compute. reflexivity.
Defined.

Lemma io_events_no_wait (rq : Request) (evs : list Event) :
  Forall (io_event rq) evs -> List.filter is_jitter evs = [].
Proof.
  induction 1 as [|e evs He _ IH]; [reflexivity |].
  destruct He as [-> | [secs ->]]; cbn; exact IH.
Qed.

Lemma jitter_events_wait (cfg : Config) (action_type : string)
    (target_count idx : Z) :
  jitter_events cfg action_type target_count idx =
  if idx <? target_count then [wait_of cfg action_type] else [].
Proof. reflexivity. Qed.

Lemma filter_jitter_events (cfg : Config) (action_type : string)
    (target_count idx : Z) :
  List.filter is_jitter (jitter_events cfg action_type target_count idx)
  = jitter_events cfg action_type target_count idx.
Proof.
  rewrite jitter_events_wait. destruct (idx <? target_count); [| reflexivity].
  unfold wait_of. destruct (String.eqb action_type "follow"); reflexivity.
Qed.

(** The waits of one iteration: the one that closes it, or none when the
    author was already followed. *)
Lemma action_step_waits (cfg : Config) (bearer_token action_type : string)
    (target_count : Z) (st : RunState) (idx : Z) (c : Target) (w : World)
    (st' : RunState) (w' : World) :
  action_step cfg bearer_token action_type target_count st idx c w = (Ok st', w') ->
  exists evs,
    trace w' = trace w ++ evs
    /\ (List.filter is_jitter evs = jitter_events cfg action_type target_count idx
        \/ action_type = "follow"%string /\ List.filter is_jitter evs = []).
Proof.
  unfold action_step. intros Hrun.
  apply bind_inv_ok in Hrun as (short_hash & w0 & Hshort & Hrun).
  apply lift_inv_ok in Hshort as [Hshort ->].
  apply bind_inv_ok in Hrun as ([] & w1 & Hlog & Hrun).
  injection Hlog as <-.
  assert (Hcalled : forall rq evs1 success,
    Forall (io_event rq) evs1 ->
    trace w' = trace (mkWorld (net w) (rnd w)
                        (trace w ++ [EvProgress idx target_count short_hash (c_fid c)]))
               ++ evs1 ++ EvResult success
               :: jitter_events cfg action_type target_count idx ->
    exists evs,
      trace w' = trace w ++ evs
      /\ (List.filter is_jitter evs = jitter_events cfg action_type target_count idx
          \/ action_type = "follow"%string /\ List.filter is_jitter evs = [])).
  { intros rq evs1 success Hio Htr.
    exists (EvProgress idx target_count short_hash (c_fid c)
            :: evs1 ++ EvResult success
            :: jitter_events cfg action_type target_count idx).
    split; [rewrite Htr; cbn [trace]; rewrite <- app_assoc; reflexivity |].
    left. cbn [List.filter is_jitter]. rewrite List.filter_app.
    rewrite (io_events_no_wait rq evs1 Hio). cbn [List.filter is_jitter app].
    apply filter_jitter_events. }
  destruct (String.eqb action_type "like").
  { apply called_iteration with (rq := the_request cfg "PUT" "cast-likes" bearer_token
                                          (PCastHash (c_hash c))) in Hrun
      as (success & evs1 & Hio & Htr & _);
      [| intros; eapply executor_io; eassumption].
    exact (Hcalled _ evs1 success Hio Htr). }
  destruct (String.eqb action_type "recast").
  { apply called_iteration with (rq := the_request cfg "PUT" "recasts" bearer_token
                                          (PCastHash (c_hash c))) in Hrun
      as (success & evs1 & Hio & Htr & _);
      [| intros; eapply executor_io; eassumption].
    exact (Hcalled _ evs1 success Hio Htr). }
  destruct (String.eqb action_type "follow") eqn:Efollow.
  - apply bind_inv_ok in Hrun as (key & w2 & Hkey & Hrun).
    apply lift_inv_ok in Hkey as [Hkey ->].
    destruct (bool_decide (key ∈ followed_fids st)).
    + apply bind_inv_ok in Hrun as ([] & w3 & Hlog & Hrun).
      injection Hlog as <-. injection Hrun as <- <-.
      exists [EvProgress idx target_count short_hash (c_fid c);
              EvAlreadyFollowed (c_fid c)].
      cbn [trace]. rewrite <- app_assoc. split; [reflexivity |].
      right. split; [apply String.eqb_eq; exact Efollow | reflexivity].
    + apply called_iteration with (rq := the_request cfg "PUT" "follows" bearer_token
                                            (PTargetFid (c_fid c))) in Hrun
        as (success & evs1 & Hio & Htr & _);
        [| intros; eapply executor_io; eassumption].
      exact (Hcalled _ evs1 success Hio Htr).
  - rewrite action_tail_run in Hrun. injection Hrun as <- <-.
    apply (Hcalled like_request [] false); [constructor | reflexivity].
Qed.

Lemma action_loop_waits (cfg : Config) (bearer_token action_type : string)
    (target_count : Z) :
  forall (sel : list Target) (idx : Z) (st : RunState) (w : World)
         (st' : RunState) (w' : World),
    action_loop cfg bearer_token action_type target_count idx sel st w
      = (Ok st', w') ->
    idx + len sel = target_count + 1 ->
    exists evs,
      trace w' = trace w ++ evs
      /\ count_events is_jitter evs <= Z.max 0 (len sel - 1)
      /\ (action_type <> "follow"%string ->
          count_events is_jitter evs = Z.max 0 (len sel - 1))
      /\ Forall (fun e => e = wait_of cfg action_type) (List.filter is_jitter evs).
Proof.
  induction sel as [|c rest IH]; intros idx st w st' w' Hrun Hidx.
  - cbn in Hrun. injection Hrun as <- <-. exists []. rewrite app_nil_r.
    change (count_events is_jitter []) with 0. change (len (@nil Target)) with 0.
    repeat split; try lia. constructor.
  - cbn [action_loop] in Hrun.
    apply bind_inv_ok in Hrun as (st1 & w1 & Hstep & Hrest).
    assert (Hlen : len (c :: rest) = len rest + 1) by (unfold len; cbn; lia).
    rewrite Hlen in *.
    apply action_step_waits in Hstep as (evs1 & Htr1 & Hwait1).
    apply IH in Hrest as (evs2 & Htr2 & Hle2 & Heq2 & Hall2); [| lia].
    assert (Hj : jitter_events cfg action_type target_count idx =
                 if 0 <? len rest then [wait_of cfg action_type] else []).
    { rewrite jitter_events_wait.
      destruct (Z.ltb_spec idx target_count), (Z.ltb_spec 0 (len rest));
        try reflexivity; lia. }
    assert (Hrest_nonneg : 0 <= len rest) by (unfold len; lia).
    exists (evs1 ++ evs2).
    split; [rewrite Htr2, Htr1, <- app_assoc; reflexivity |].
    rewrite count_events_app, List.filter_app.
    unfold count_events at 1 3.
    destruct Hwait1 as [Hw | [Hact Hw]]; rewrite Hw.
    + rewrite Hj. destruct (Z.ltb_spec 0 (len rest)).
      * change (len [wait_of cfg action_type]) with 1.
        split; [lia |]. split; [intros Hne; specialize (Heq2 Hne); lia |].
        constructor; [reflexivity | exact Hall2].
      * change (len (@nil Event)) with 0.
        split; [lia |]. split; [intros Hne; specialize (Heq2 Hne); lia | exact Hall2].
    + change (len (@nil Event)) with 0.
      split; [lia |]. split; [congruence | exact Hall2].
Qed.

(** The waits of a run (for a target count that is not negative): between
    two targets and never after the last one.  A completed run in like or
    recast mode on [m] targets waits exactly [m - 1] times; in follow mode
    at most [m - 1] times, a target whose author is already followed adding
    no wait.  Every wait is drawn from the range of the action:
    [follow_min .. follow_max] for follow, [min .. max] otherwise. *)
Theorem waits_between_targets (cfg : Config) (bearer_token : string)
    (account_idx : Z) (action_type : string) (target_count : Z)
    (w : World) (n : Z) (w' : World) :
  0 <= target_count ->
  execute_focused_action cfg bearer_token account_idx action_type
    target_count w = (Ok n, w') ->
  exists evs,
    trace w' = trace w ++ evs
    /\ count_events is_jitter evs <= Z.max 0 (len (omap progress_fid evs) - 1)
    /\ (action_type <> "follow"%string ->
        count_events is_jitter evs = Z.max 0 (len (omap progress_fid evs) - 1))
    /\ Forall (fun e => e = wait_of cfg action_type) (List.filter is_jitter evs).
Proof.
  intros Htc Hrun.
  destruct (focused_fetch cfg bearer_token account_idx action_type target_count w)
    as [r w1] eqn:Hfetch.
  pose proof Hfetch as Hlog.
  apply focused_fetch_log in Hlog as (evs0 & Htr0 & _ & Lfid & _).
  assert (Hquiet : List.filter is_jitter evs0 = []).
  { unfold focused_fetch in Hfetch. unfold bind at 1, log in Hfetch.
    apply get_feed_io in Hfetch as (evs & Htr & Hio & _).
    cbn [trace] in Htr. rewrite Htr0, <- app_assoc in Htr.
    apply app_inv_head in Htr. subst evs0. cbn.
    exact (io_events_no_wait _ _ Hio). }
  assert (Hcount0 : count_events is_jitter evs0 = 0).
  { unfold count_events. rewrite Hquiet. reflexivity. }
  destruct r as [[success cast_data]| e |];
    [| unfold execute_focused_action, bind in Hrun; rewrite Hfetch in Hrun;
       discriminate ..].
  assert (Hcases : (success = false \/ cast_data = [])
                   \/ (success = true /\ cast_data <> [])).
  { destruct success; [| left; left; reflexivity].
    destruct cast_data; [left; right; reflexivity | right; split; congruence]. }
  destruct Hcases as [Hnone | [-> Hne]].
  - rewrite (execute_nothing_fetched _ _ _ _ _ _ _ _ _ Hfetch Hnone) in Hrun.
    injection Hrun as <- <-. exists evs0.
    rewrite Lfid, Hcount0, Hquiet. change (len (@nil JSON)) with 0.
    repeat split; try lia; try assumption. constructor.
  - destruct (execute_after_fetch _ _ _ _ _ _ _ _ Hfetch Hne)
      as (shuffled & draws & Hperm & Heq).
    rewrite Heq in Hrun.
    apply bind_inv_ok in Hrun as (st' & w2 & Hloop & Hret).
    injection Hret as <- <-.
    set (total := if len cast_data <? target_count
                  then len cast_data else target_count) in *.
    assert (Hsel : len (py_take total shuffled) = total).
    { rewrite py_take_len, (len_perm _ _ Hperm);
        unfold total; destruct (Z.ltb_spec (len cast_data) target_count);
        unfold len in *; lia. }
    pose proof Hloop as Hloop'.
    apply action_loop_ok in Hloop' as (evs & Htr & _ & _ & Hfid & _).
    apply action_loop_waits in Hloop as (evs' & Htr' & Hle & Hexact & Hall); [| lia].
    rewrite Htr in Htr'. apply app_inv_head in Htr'. subst evs'.
    cbn [trace] in Htr.
    exists (evs0 ++ evs).
    split; [rewrite Htr, Htr0, <- app_assoc; reflexivity |].
    rewrite omap_app, count_events_app, List.filter_app, Lfid, Hcount0, Hquiet, Hfid.
    cbn [app].
    assert (Hl : len (c_fid <$> py_take total shuffled) = len (py_take total shuffled))
      by (unfold len; rewrite length_fmap; reflexivity).
    rewrite Hl. split; [lia |]. split; [| exact Hall].
    intros Hact. specialize (Hexact Hact). lia.
Qed.

Lemma waits_between_targets_witness :
  let run := execute_focused_action default_config "token" 1 "like" 3
               two_authors_world in
  List.filter is_jitter (trace run.2) = [EvJitter 3 8; EvJitter 3 8]
  /\ exists evs,
       trace run.2 = [] ++ evs
       /\ count_events is_jitter evs <= Z.max 0 (len (omap progress_fid evs) - 1)
       /\ ("like"%string <> "follow"%string ->
           count_events is_jitter evs = Z.max 0 (len (omap progress_fid evs) - 1))
       /\ Forall (fun e => e = wait_of default_config "like")
                 (List.filter is_jitter evs).
Proof.
  intros run. split; [vm_compute; reflexivity |].
  apply (waits_between_targets default_config "token" 1 "like" 3
           two_authors_world 2 run.2); [lia | vm_compute; reflexivity].
Defined.

(** ** The statistics of a run *)

Lemma execute_count_bounds (cfg : Config) (bearer_token : string)
    (account_idx : Z) (action_type : string) (target_count : Z)
    (w : World) (n : Z) (w' : World) :
  execute_focused_action cfg bearer_token account_idx action_type
    target_count w = (Ok n, w') ->
  0 <= n /\ (0 <= target_count -> n <= target_count).
Proof.
  intros Hrun.
  apply execute_ok in Hrun
    as (success & cast_data & sel & w1 & evs & st' & _ & _ & Hn & Hcases).
  destruct Hcases
    as [(_ & _ & _ & _ & ->)
       | (_ & _ & (shuffled & Hperm & Hsel) & _ & _ & Hcount & Hle & _)].
  - subst n. cbn. split; lia.
  - pose proof (count_events_nonneg is_success evs).
    pose proof (count_events_nonneg is_skip evs).
    split; [lia |]. intros Htc.
    assert (len sel <= target_count); [| lia].
    rewrite Hsel, py_take_len, (len_perm _ _ Hperm)
      by (destruct (len cast_data <? target_count); unfold len; lia).
    destruct (len cast_data <? target_count) eqn:E; [apply Z.ltb_lt in E |]; lia.
Qed.

Lemma stats_add_inv (key : string) (n : Z) (stats stats' : gmap string Z) :
  stats_add key n stats = Ok stats' ->
  exists v, stats !! key = Some v /\ stats' = <[key := v + n]> stats.
Proof.
  unfold stats_add. destruct (stats !! key) as [v|]; [| discriminate].
  intros [= <-]. eauto.
Qed.

(** The loop over the batches adds between 0 and [remaining] to the counter
    of the action and touches no other counter. *)
Lemma batch_loop_delta (cfg : Config) (bearer_token : string) (idx : Z)
    (action : string) (batch_size : Z) :
  0 < batch_size ->
  forall (fuel : nat) (remaining batch_count : Z) (stats : gmap string Z)
         (w : World) (stats' : gmap string Z) (w' : World),
    batch_loop fuel cfg bearer_token idx action batch_size remaining
               batch_count stats w = (Ok stats', w') ->
    (remaining <= 0 /\ stats' = stats)
    \/ exists v d, stats !! action = Some v /\ 0 <= d <= remaining
                   /\ stats' = <[action := v + d]> stats.
Proof.
  intros Hb. induction fuel as [|fuel IH];
    intros remaining batch_count stats w stats' w' Hrun;
    cbn [batch_loop] in Hrun;
    destruct (Z.ltb_spec 0 remaining) as [Hpos | Hnonpos];
    try (injection Hrun as <- <-; left; split; [lia | reflexivity]);
    [discriminate |].
  apply bind_inv_ok in Hrun as ([] & w1 & _ & Hrun).
  apply bind_inv_ok in Hrun as (success & w2 & Hexec & Hrun).
  apply bind_inv_ok in Hrun as (stats1 & w3 & Hadd & Hrun).
  apply bind_inv_ok in Hrun as ([] & w4 & _ & Hrun).
  apply lift_inv_ok in Hadd as [Hadd ->].
  apply stats_add_inv in Hadd as (v & Hv & ->).
  apply execute_count_bounds in Hexec as [Hlo Hhi]. specialize (Hhi ltac:(lia)).
  right. exists v.
  apply IH in Hrun as [[Hdone ->] | (v1 & d1 & Hv1 & Hd1 & ->)].
  - exists success. split; [exact Hv |]. split; [lia | reflexivity].
  - rewrite lookup_insert_eq in Hv1. injection Hv1 as <-.
    exists (success + d1). split; [exact Hv |]. split; [lia |].
    rewrite insert_insert_eq. f_equal. lia.
Qed.

Lemma single_run_delta (cfg : Config) (bearer_token : string) (idx : Z)
    (action : string) (target : Z) (stats : gmap string Z) (w : World)
    (stats' : gmap string Z) (w' : World) :
  bind (execute_focused_action cfg bearer_token idx action target)
       (fun success => lift (stats_add action success stats)) w = (Ok stats', w') ->
  0 < target ->
  exists v d, stats !! action = Some v /\ 0 <= d <= target
              /\ stats' = <[action := v + d]> stats.
Proof.
  intros Hrun Hpos.
  apply bind_inv_ok in Hrun as (success & w1 & Hexec & Hadd).
  apply lift_inv_ok in Hadd as [Hadd _].
  apply stats_add_inv in Hadd as (v & Hv & ->).
  apply execute_count_bounds in Hexec as [Hlo Hhi].
  exists v, success. split; [exact Hv |]. split; [lia | reflexivity].
Qed.

Lemma action_delta_focus (cfg : Config) (bearer_token : string) (idx : Z)
    (action_targets : gmap string Z) (action : string) (target : Z) :
  0 < batch_size cfg ->
  action_targets !! action = Some target ->
  0 < target ->
  forall fuel stats w stats' w',
    focused_action fuel cfg bearer_token idx action_targets action stats w
      = (Ok stats', w') ->
    exists v d, stats !! action = Some v /\ 0 <= d <= target
                /\ stats' = <[action := v + d]> stats.
Proof.
  intros Hb Htarget Hpos fuel stats w stats' w' Hrun.
  unfold focused_action, lookup_target in Hrun.
  rewrite Htarget in Hrun. unfold bind at 1, lift in Hrun.
  destruct (batch_size cfg <? target);
    [| exact (single_run_delta _ _ _ _ _ _ _ _ _ Hrun Hpos)].
  apply batch_loop_delta in Hrun as [[Hdone _] | H]; [lia | exact H | lia].
Qed.

Lemma action_delta_cycle (cfg : Config) (bearer_token : string) (idx : Z)
    (action_targets : gmap string Z) (action : string) (target : Z) :
  action_targets !! action = Some target ->
  0 < target ->
  forall stats w stats' w',
    continuous_action cfg bearer_token idx action_targets action stats w
      = (Ok stats', w') ->
    exists v d, stats !! action = Some v /\ 0 <= d <= target
                /\ stats' = <[action := v + d]> stats.
Proof.
  intros Htarget Hpos stats w stats' w' Hrun.
  unfold continuous_action, lookup_target in Hrun.
  rewrite Htarget in Hrun. unfold bind at 1, lift in Hrun.
  exact (single_run_delta _ _ _ _ _ _ _ _ _ Hrun Hpos).
Qed.

(** One action of the plan for one account, in focus mode and in a cycle of
    continuous mode alike, adds between 0 and the target to the counter of
    that action and leaves every other counter as it was (for a positive
    target and, in focus mode, a positive batch size). *)
Theorem action_counter_delta (cfg : Config) (bearer_token : string) (idx : Z)
    (action_targets : gmap string Z) (action : string) (target : Z) :
  0 < batch_size cfg ->
  action_targets !! action = Some target ->
  0 < target ->
  (forall fuel stats w stats' w',
     focused_action fuel cfg bearer_token idx action_targets action stats w
       = (Ok stats', w') ->
     exists v d, stats !! action = Some v /\ 0 <= d <= target
                 /\ stats' = <[action := v + d]> stats)
  /\ (forall stats w stats' w',
        continuous_action cfg bearer_token idx action_targets action stats w
          = (Ok stats', w') ->
        exists v d, stats !! action = Some v /\ 0 <= d <= target
                    /\ stats' = <[action := v + d]> stats).
Proof.
  intros Hb Htarget Hpos. split.
  - apply action_delta_focus; assumption.
  - apply action_delta_cycle; assumption.
Qed.

Lemma action_counter_delta_witness :
  let stats := init_stats ["like"%string] false in
  let run := focused_action 120 default_config "token" 1 like_120 "like" stats
               (generous_world 150 130) in
  run.1 = Ok (<["like"%string := 120]> stats)
  /\ exists v d, stats !! "like"%string = Some v /\ 0 <= d <= 120
                 /\ <["like"%string := 120]> stats = <["like"%string := v + d]> stats.
Proof.
  intros stats run.
  assert (Hrun : run = (Ok (<["like"%string := 120]> stats), run.2))
    by (vm_compute; reflexivity).
  split; [rewrite Hrun; reflexivity |].
  destruct (action_counter_delta default_config "token" 1 like_120 "like" 120)
    as [Hfocus _]; [vm_compute; reflexivity | reflexivity | lia |].
  exact (Hfocus 120%nat stats (generous_world 150 130) _ run.2 Hrun).
Defined.

Lemma grows_trans (b1 b2 b : string -> Z) (s s1 s2 : gmap string Z) :
  (forall key, b1 key + b2 key <= b key) ->
  grows b1 s s1 -> grows b2 s1 s2 -> grows b s s2.
Proof.
  intros Hb [Hd1 Hv1] [Hd2 Hv2]. split; [congruence |].
  intros key v Hkey.
  destruct (Hv1 key v Hkey) as (v1 & Hkey1 & Hle1).
  destruct (Hv2 key v1 Hkey1) as (v2 & Hkey2 & Hle2).
  exists v2. split; [exact Hkey2 |]. specialize (Hb key). lia.
Qed.

Lemma grows_same (b : string -> Z) (s : gmap string Z) :
  (forall key, 0 <= b key) -> grows b s s.
Proof.
  intros Hb. split; [reflexivity |]. intros key v Hkey. exists v.
  split; [exact Hkey |]. specialize (Hb key). lia.
Qed.

Lemma grows_insert (b : string -> Z) (s : gmap string Z) (key : string) (v d : Z) :
  s !! key = Some v ->
  0 <= d <= b key ->
  (forall k, 0 <= b k) ->
  grows b s (<[key := v + d]> s).
Proof.
  intros Hkey Hd Hb. split.
  - rewrite dom_insert_L. apply elem_of_dom_2 in Hkey. set_solver.
  - intros k vk Hk. destruct (decide (key = k)) as [<- | Hne].
    + rewrite lookup_insert_eq. exists (v + d). split; [reflexivity |].
      rewrite Hkey in Hk. injection Hk as <-. lia.
    + rewrite lookup_insert_ne by exact Hne. exists vk. split; [exact Hk |].
      specialize (Hb k). lia.
Qed.

Lemma account_bound_nonneg (selected_actions : list string)
    (action_targets : gmap string Z) (post_cast : bool) (key : string) :
  (forall action, action ∈ selected_actions ->
     exists target, action_targets !! action = Some target /\ 0 < target) ->
  0 <= account_bound selected_actions action_targets post_cast key.
Proof.
  intros Hpos. unfold account_bound.
  assert (0 <= (if post_cast && String.eqb key "posts" then 1 else 0))
    by (destruct (post_cast && String.eqb key "posts"); lia).
  destruct (bool_decide (key ∈ selected_actions)) eqn:E; [| lia].
  apply bool_decide_eq_true in E. destruct (Hpos key E) as (t & -> & Ht). cbn. lia.
Qed.

(** The loop over the actions of the plan, for any body that obeys the
    bound of its action. *)
Lemma for_actions_grows (body : string -> gmap string Z -> M (gmap string Z))
    (action_targets : gmap string Z) :
  forall (actions : list string) (stats : gmap string Z) (w : World)
         (stats' : gmap string Z) (w' : World),
    NoDup actions ->
    (forall action, action ∈ actions ->
       exists target, action_targets !! action = Some target /\ 0 < target) ->
    (forall action target s w0 s' w1,
       action ∈ actions ->
       action_targets !! action = Some target ->
       body action s w0 = (Ok s', w1) ->
       exists v d, s !! action = Some v /\ 0 <= d <= target
                   /\ s' = <[action := v + d]> s) ->
    for_actions body actions stats w = (Ok stats', w') ->
    grows (account_bound actions action_targets false) stats stats'.
Proof.
  induction actions as [|action actions IH];
    intros stats w stats' w' Hnodup Hpos Hbody Hrun.
  - injection Hrun as <- <-. apply grows_same. intros key.
    apply account_bound_nonneg. exact Hpos.
  - cbn [for_actions] in Hrun.
    apply bind_inv_ok in Hrun as (stats1 & w1 & Hfirst & Hrest).
    apply NoDup_cons in Hnodup as [Hnotin Hnodup].
    destruct (Hpos action ltac:(left)) as (target & Htarget & Ht).
    destruct (Hbody action target _ _ _ _ ltac:(left) Htarget Hfirst)
      as (v & d & Hv & Hd & ->).
    apply IH in Hrest; [| exact Hnodup
                        | intros a Ha; apply Hpos; right; exact Ha
                        | intros a t s w0 s' w2 Ha; apply Hbody; right; exact Ha].
    eapply (grows_trans
              (fun key => if bool_decide (key = action) then target else 0));
      [| | exact Hrest].
    + intros key. unfold account_bound. cbn [andb].
      destruct (bool_decide_reflect (key = action)) as [-> | Hne].
      * rewrite (bool_decide_eq_false_2 _ Hnotin).
        rewrite (bool_decide_eq_true_2 (action ∈ action :: actions)) by left.
        rewrite Htarget. cbn. lia.
      * destruct (bool_decide_reflect (key ∈ actions)) as [Hin | Hout].
        -- rewrite (bool_decide_eq_true_2 (key ∈ action :: actions)) by (right; exact Hin).
           lia.
        -- rewrite (bool_decide_eq_false_2 (key ∈ action :: actions)); [lia |].
           intros [? | ?]%elem_of_cons; contradiction.
    + apply grows_insert; [exact Hv | | ].
      * rewrite bool_decide_eq_true_2 by reflexivity. exact Hd.
      * intros k. destruct (bool_decide (k = action)); lia.
Qed.

Lemma post_grows (stats stats' : gmap string Z) (m : M (gmap string Z))
    (w w' : World) :
  "posts"%string ∈ dom stats ->
  (stats' = stats
   \/ stats' = <["posts"%string := default 0 (stats !! "posts"%string) + 1]> stats) ->
  grows (fun key => if String.eqb key "posts" then 1 else 0) stats stats'.
Proof.
  intros Hin Hcases.
  assert (Hb : forall k, 0 <= (if String.eqb k "posts" then 1 else 0))
    by (intros k; destruct (String.eqb k "posts"); lia).
  destruct Hcases as [-> | ->]; [apply grows_same; exact Hb |].
  apply elem_of_dom in Hin as [v Hv]. rewrite Hv. cbn [default].
  apply grows_insert; [exact Hv | cbn; lia | exact Hb].
Qed.

Lemma focused_post_cases (cfg : Config) (messages : list string)
    (bearer_token : string) (stats : gmap string Z) (w : World)
    (stats' : gmap string Z) (w' : World) :
  focused_post cfg messages bearer_token stats w = (Ok stats', w') ->
  stats' = stats
  \/ stats' = <["posts"%string := default 0 (stats !! "posts"%string) + 1]> stats.
Proof.
  unfold focused_post. intros Hrun.
  apply bind_inv_ok in Hrun as (message & w1 & _ & Hrun).
  apply bind_inv_ok in Hrun as (ok & w2 & _ & Hrun).
  apply bind_inv_ok in Hrun as ([] & w3 & _ & Hrun).
  injection Hrun as <- <-. destruct ok; [right | left]; reflexivity.
Qed.

Lemma continuous_post_cases (cfg : Config) (messages : list string)
    (bearer_token : string) (stats : gmap string Z) (w : World)
    (stats' : gmap string Z) (w' : World) :
  continuous_post cfg messages bearer_token stats w = (Ok stats', w') ->
  stats' = stats
  \/ stats' = <["posts"%string := default 0 (stats !! "posts"%string) + 1]> stats.
Proof.
  unfold continuous_post. intros Hrun.
  apply bind_inv_ok in Hrun as (message & w1 & _ & Hrun).
  apply bind_inv_ok in Hrun as (ok & w2 & _ & Hrun).
  apply bind_inv_ok in Hrun as (stats1 & w3 & Hadd & Hrun).
  apply bind_inv_ok in Hrun as ([] & w4 & _ & Hrun).
  injection Hrun as <- <-. destruct ok.
  - apply lift_inv_ok in Hadd as [Hadd _].
    apply stats_add_inv in Hadd as (v & Hv & ->). rewrite Hv. right. reflexivity.
  - injection Hadd as <- <-. left. reflexivity.
Qed.

(** One account: the posting step, then the actions, then the pause. *)
Lemma account_grows (post : gmap string Z -> M (gmap string Z))
    (body : string -> gmap string Z -> M (gmap string Z))
    (selected_actions messages : list string) (action_targets : gmap string Z)
    (post_cast : bool) (pause : M unit)
    (stats : gmap string Z) (w : World) (stats' : gmap string Z) (w' : World) :
  NoDup selected_actions ->
  (forall action, action ∈ selected_actions ->
     exists target, action_targets !! action = Some target /\ 0 < target) ->
  (forall action target s w0 s' w1,
     action ∈ selected_actions ->
     action_targets !! action = Some target ->
     body action s w0 = (Ok s', w1) ->
     exists v d, s !! action = Some v /\ 0 <= d <= target
                 /\ s' = <[action := v + d]> s) ->
  (forall s w0 s' w1,
     post s w0 = (Ok s', w1) ->
     s' = s \/ s' = <["posts"%string := default 0 (s !! "posts"%string) + 1]> s) ->
  (post_cast = true -> "posts"%string ∈ dom stats) ->
  bind (if post_cast && nonempty messages then post stats else ret stats)
       (fun stats1 =>
          bind (for_actions body selected_actions stats1)
               (fun stats2 => bind pause (fun _ => ret stats2))) w
    = (Ok stats', w') ->
  grows (account_bound selected_actions action_targets post_cast) stats stats'.
Proof.
  intros Hnodup Hpos Hbody Hpost Hkey Hrun.
  apply bind_inv_ok in Hrun as (stats1 & w1 & Hfirst & Hrun).
  apply bind_inv_ok in Hrun as (stats2 & w2 & Hacts & Hrun).
  apply bind_inv_ok in Hrun as ([] & w3 & _ & Hrun).
  injection Hrun as <- <-.
  apply (for_actions_grows body action_targets) in Hacts; try assumption.
  eapply (grows_trans
            (fun key => if post_cast && String.eqb key "posts" then 1 else 0));
    [| | exact Hacts].
  - intros key. unfold account_bound. cbn [andb]. lia.
  - destruct post_cast; cbn [andb] in *.
    + destruct (nonempty messages).
      * apply (post_grows _ _ (post stats) w w1); [apply Hkey; reflexivity |].
        exact (Hpost _ _ _ _ Hfirst).
      * injection Hfirst as <- <-. apply grows_same.
        intros k. destruct (String.eqb k "posts"); lia.
    + injection Hfirst as <- <-. apply grows_same. intros k. lia.
Qed.

Lemma for_accounts_grows
    (body : Z -> string -> gmap string Z -> M (gmap string Z))
    (b : string -> Z) (Inv : gmap string Z -> Prop) :
  (forall key, 0 <= b key) ->
  (forall idx token s w0 s' w1,
     Inv s -> body idx token s w0 = (Ok s', w1) -> grows b s s') ->
  (forall s s', Inv s -> dom s' = dom s -> Inv s') ->
  forall (accounts : list string) (idx : Z) (stats : gmap string Z) (w : World)
         (stats' : gmap string Z) (w' : World),
    Inv stats ->
    for_accounts body idx accounts stats w = (Ok stats', w') ->
    grows (fun key => len accounts * b key) stats stats'.
Proof.
  intros Hb Hbody Hinv.
  induction accounts as [|token accounts IH]; intros idx stats w stats' w' HI Hrun.
  - injection Hrun as <- <-. apply grows_same. intros key.
    change (len (@nil string)) with 0. lia.
  - cbn [for_accounts] in Hrun.
    apply bind_inv_ok in Hrun as (stats1 & w1 & Hfirst & Hrest).
    pose proof (Hbody _ _ _ _ _ _ HI Hfirst) as Hg1.
    apply IH in Hrest; [| apply (Hinv stats); [exact HI | apply Hg1]].
    eapply (grows_trans b); [| exact Hg1 | exact Hrest].
    intros key. assert (Hl : len (token :: accounts) = len accounts + 1)
      by (unfold len; cbn; lia).
    rewrite Hl. lia.
Qed.

Lemma init_stats_spec (selected_actions : list string) (post_cast : bool) :
  dom (init_stats selected_actions post_cast) =
    list_to_set selected_actions ∪ (if post_cast then {["posts"%string]} else ∅)
  /\ forall key v, init_stats selected_actions post_cast !! key = Some v -> v = 0.
Proof.
  assert (Hfold : forall (actions : list string) (m : gmap string Z),
    dom (foldl (fun m action => <[action := 0]> m) m actions)
      = list_to_set actions ∪ dom m
    /\ forall key v,
         foldl (fun m action => <[action := 0]> m) m actions !! key = Some v ->
         v = 0 \/ m !! key = Some v).
  { induction actions as [|a actions IH]; intros m.
    - cbn. split; [set_solver | auto].
    - cbn [foldl]. destruct (IH (<[a := 0]> m)) as [Hd Hv]. split.
      + rewrite Hd, dom_insert_L. set_solver.
      + intros key v Hkey. destruct (Hv key v Hkey) as [-> | Hold]; [left; reflexivity |].
        destruct (decide (a = key)) as [-> | Hne].
        * rewrite lookup_insert_eq in Hold. left. congruence.
        * rewrite lookup_insert_ne in Hold by exact Hne. right. exact Hold. }
  unfold init_stats. destruct (Hfold selected_actions ∅) as [Hd Hv].
  destruct post_cast.
  - split; [rewrite dom_insert_L, Hd; set_solver |].
    intros key v Hkey. destruct (decide ("posts"%string = key)) as [<- | Hne].
    + rewrite lookup_insert_eq in Hkey. congruence.
    + rewrite lookup_insert_ne in Hkey by exact Hne.
      destruct (Hv key v Hkey) as [-> | Hold]; [reflexivity |].
      rewrite lookup_empty in Hold. discriminate.
  - split; [rewrite Hd; set_solver |].
    intros key v Hkey. destruct (Hv key v Hkey) as [-> | Hold]; [reflexivity |].
    rewrite lookup_empty in Hold. discriminate.
Qed.

Lemma report_from_init (selected_actions : list string)
    (action_targets : gmap string Z) (post_cast : bool) (n : Z)
    (stats : gmap string Z) :
  grows (fun key => n * account_bound selected_actions action_targets post_cast key)
        (init_stats selected_actions post_cast) stats ->
  dom stats =
    list_to_set selected_actions ∪ (if post_cast then {["posts"%string]} else ∅)
  /\ forall key v, stats !! key = Some v ->
       0 <= v <= n * account_bound selected_actions action_targets post_cast key.
Proof.
  intros [Hd Hv]. destruct (init_stats_spec selected_actions post_cast) as [Hd0 Hz].
  split; [rewrite Hd; exact Hd0 |].
  intros key v Hkey.
  assert (Hin : key ∈ dom (init_stats selected_actions post_cast))
    by (rewrite <- Hd; apply elem_of_dom; eauto).
  apply elem_of_dom in Hin as [v0 Hv0]. pose proof (Hz key v0 Hv0) as ->.
  destruct (Hv key 0 Hv0) as (v' & Hkey' & Hle). rewrite Hkey in Hkey'.
  injection Hkey' as <-. lia.
Qed.

(** The report of a run never overstates the plan.  For a plan without
    repeated actions and with positive targets: the statistics that focus
    mode returns (positive batch size, at least one account), and those of
    a cycle of continuous mode, have exactly the selected actions as keys,
    plus ["posts"] when posting is on, and every counter lies between 0 and
    the number of accounts times the target of its action (times 1 for
    ["posts"]). *)
Theorem report_within_plan (fuel : nat) (cfg : Config)
    (accounts messages selected_actions : list string)
    (action_targets : gmap string Z) (post_cast : bool) :
  NoDup selected_actions ->
  (forall action, action ∈ selected_actions ->
     exists target, action_targets !! action = Some target /\ 0 < target) ->
  (forall w stats w',
     0 < batch_size cfg ->
     accounts <> [] ->
     run_focused_mode fuel cfg accounts messages selected_actions
       action_targets post_cast w = (Ok stats, w') ->
     dom stats =
       list_to_set selected_actions ∪ (if post_cast then {["posts"%string]} else ∅)
     /\ forall key v, stats !! key = Some v ->
          0 <= v <= len accounts
                    * account_bound selected_actions action_targets post_cast key)
  /\ (forall w stats w',
        continuous_cycle cfg accounts messages selected_actions
          action_targets post_cast w = (Ok stats, w') ->
        dom stats =
          list_to_set selected_actions ∪ (if post_cast then {["posts"%string]} else ∅)
        /\ forall key v, stats !! key = Some v ->
             0 <= v <= len accounts
                       * account_bound selected_actions action_targets post_cast key).
Proof.
  intros Hnodup Hpos.
  assert (Hb : forall key,
            0 <= account_bound selected_actions action_targets post_cast key)
    by (intros key; apply account_bound_nonneg; exact Hpos).
  set (Inv := fun s : gmap string Z =>
                post_cast = true -> "posts"%string ∈ dom s).
  assert (Hinv : forall s s', Inv s -> dom s' = dom s -> Inv s').
  { intros s s' HI Hd Hp. rewrite Hd. exact (HI Hp). }
  assert (Hinit : Inv (init_stats selected_actions post_cast)).
  { intros ->. rewrite (proj1 (init_stats_spec selected_actions true)). set_solver. }
  split.
  - intros w stats w' Hbatch Hne Hrun. unfold run_focused_mode in Hrun.
    destruct accounts as [|token accounts]; [congruence |]. cbn [nonempty] in Hrun.
    apply report_from_init.
    eapply (for_accounts_grows _ _ Inv Hb); [| exact Hinv | exact Hinit | exact Hrun].
    intros idx tok s w0 s' w1 HI Hacc.
    eapply (account_grows (focused_post cfg messages tok)
              (focused_action fuel cfg tok idx action_targets));
      [exact Hnodup | exact Hpos | | | exact HI | exact Hacc].
    + intros action target s0 w2 s1 w3 Hin Htarget Hbody.
      destruct (Hpos action Hin) as (t & Ht & Htpos).
      rewrite Htarget in Ht. injection Ht as <-.
      destruct (action_delta_focus cfg tok idx action_targets action target
                  Hbatch Htarget Htpos fuel s0 w2 s1 w3 Hbody) as (v & d & H).
      exists v, d. exact H.
    + intros s0 w2 s1 w3. apply focused_post_cases.
  - intros w stats w' Hrun. unfold continuous_cycle in Hrun.
    apply report_from_init.
    eapply (for_accounts_grows _ _ Inv Hb); [| exact Hinv | exact Hinit | exact Hrun].
    intros idx tok s w0 s' w1 HI Hacc.
    eapply (account_grows (continuous_post cfg messages tok)
              (continuous_action cfg tok idx action_targets));
      [exact Hnodup | exact Hpos | | | exact HI | exact Hacc].
    + intros action target s0 w2 s1 w3 Hin Htarget Hbody.
      destruct (Hpos action Hin) as (t & Ht & Htpos).
      rewrite Htarget in Ht. injection Ht as <-.
      destruct (action_delta_cycle cfg tok idx action_targets action target
                  Htarget Htpos s0 w2 s1 w3 Hbody) as (v & d & H).
      exists v, d. exact H.
    + intros s0 w2 s1 w3. apply continuous_post_cases.
Qed.

Lemma report_within_plan_witness :
  let run := run_focused_mode 120 default_config ["token"%string] []
               ["like"%string] like_120 false (generous_world 150 130) in
  run.1 = Ok (<["like"%string := 120]> ∅)
  /\ forall key v,
       (<["like"%string := 120]> (∅ : gmap string Z)) !! key = Some v ->
       0 <= v <= len ["token"%string]
                 * account_bound ["like"%string] like_120 false key.
Proof.
  intros run.
  assert (Hrun : run = (Ok (<["like"%string := 120]> ∅), run.2))
    by (vm_compute; reflexivity).
  split; [rewrite Hrun; reflexivity |].
  destruct (report_within_plan 120 default_config ["token"%string] []
              ["like"%string] like_120 false) as [Hfocus _].
  - apply NoDup_singleton.
  - intros action Hin. apply list_elem_of_singleton in Hin as ->.
    exists 120. split; [reflexivity | lia].
  - apply (Hfocus (generous_world 150 130) _ run.2);
      [vm_compute; reflexivity | discriminate | exact Hrun].
Defined.

(** ** A batch size that is not positive *)

Lemma batch_loop_never_ends (cfg : Config) (bearer_token : string) (idx : Z)
    (action : string) (batch_size : Z) :
  batch_size <= 0 ->
  forall (fuel : nat) (remaining batch_count : Z) (stats : gmap string Z)
         (w : World) (stats' : gmap string Z) (w' : World),
    0 < remaining ->
    batch_loop fuel cfg bearer_token idx action batch_size remaining
               batch_count stats w <> (Ok stats', w').
Proof.
  intros Hb. induction fuel as [|fuel IH];
    intros remaining batch_count stats w stats' w' Hpos Hrun;
    cbn [batch_loop] in Hrun;
    destruct (Z.ltb_spec 0 remaining); try lia; [discriminate |].
  apply bind_inv_ok in Hrun as ([] & w1 & _ & Hrun).
  apply bind_inv_ok in Hrun as (success & w2 & _ & Hrun).
  apply bind_inv_ok in Hrun as (stats1 & w3 & _ & Hrun).
  apply bind_inv_ok in Hrun as ([] & w4 & _ & Hrun).
  apply IH in Hrun; [exact Hrun | lia].
Qed.

(** With a batch size of 0 or less in the configuration, an action with a
    positive target never completes in focus mode: every batch has a size
    that is not positive, [remaining] never decreases, and the loop keeps
    fetching the feed; no number of iterations brings it to an end, and
    there is no schedule for the target. *)
Theorem nonpositive_batch_size_hangs (cfg : Config) (bearer_token : string)
    (idx : Z) (action_targets : gmap string Z) (action : string) (target : Z) :
  batch_size cfg <= 0 ->
  action_targets !! action = Some target ->
  0 < target ->
  forall (fuel : nat) (stats : gmap string Z) (w : World),
    (forall stats' w',
       focused_action fuel cfg bearer_token idx action_targets action stats w
       <> (Ok stats', w'))
    /\ schedule fuel target (batch_size cfg) = None.
Proof.
  intros Hb Htarget Hpos fuel stats w. split.
  - intros stats' w' Hrun. unfold focused_action, lookup_target in Hrun.
    rewrite Htarget in Hrun. unfold bind at 1, lift in Hrun.
    destruct (Z.ltb_spec (batch_size cfg) target); [| lia].
    apply batch_loop_never_ends in Hrun; [exact Hrun | lia | exact Hpos].
  - unfold schedule. destruct (Z.ltb_spec (batch_size cfg) target); [| lia].
    rewrite Z.min_l by lia. revert Hpos. generalize target. clear -Hb.
    induction fuel as [|fuel IH]; intros remaining Hpos; cbn [batch_sizes];
      destruct (Z.ltb_spec 0 remaining); try lia; [reflexivity |].
    rewrite IH by lia. reflexivity.
Qed.

Lemma nonpositive_batch_size_hangs_witness :
  (forall stats' w',
     focused_action 5 zero_batch_config "token" 1 like_120 "like"
       (init_stats ["like"%string] false) (generous_world 150 130)
     <> (Ok stats', w'))
  /\ schedule 5 120 (batch_size zero_batch_config) = None
  /\ (focused_action 5 zero_batch_config "token" 1 like_120 "like"
        (init_stats ["like"%string] false) (generous_world 150 130)).1
     = OutOfFuel.
Proof.
  destruct (nonpositive_batch_size_hangs zero_batch_config "token" 1 like_120
              "like" 120 ltac:(vm_compute; discriminate) eq_refl ltac:(lia)
              5%nat (init_stats ["like"%string] false) (generous_world 150 130))
    as [Hnever Hnone].
  split; [exact Hnever |]. split; [exact Hnone |]. vm_compute. reflexivity.
Defined.

(** ** The posting step *)

Lemma choice_member (seq : list string) (w : World) :
  seq <> [] ->
  exists message draws,
    choice seq w = (Ok message, mkWorld (net w) draws (trace w))
    /\ message ∈ seq.
Proof.
  intros Hne. unfold choice, bind, randbelow, ret.
  assert (Hlen : (0 < length seq)%nat) by (destruct seq; [congruence | cbn; lia]).
  destruct (rnd w) as [|r rest] eqn:Hrnd.
  - destruct (lookup_lt_is_Some_2 seq 0%nat Hlen) as [m Hm].
    exists m, (rnd w). rewrite Hm. cbn. rewrite Hrnd.
    split; [destruct w; cbn in *; subst; reflexivity |].
    apply list_elem_of_lookup. eauto.
  - assert (Hmod : (r mod length seq < length seq)%nat)
      by (apply Nat.mod_upper_bound; lia).
    destruct (lookup_lt_is_Some_2 seq _ Hmod) as [m Hm].
    exists m, rest. cbn [net rnd trace]. rewrite Hm. split; [reflexivity |].
    apply list_elem_of_lookup. eauto.
Qed.

(** The posting step of an account, in both modes, when messages are
    loaded: the text posted is one of the loaded messages, only post
    requests for that text are sent, the pause of 5 to 10 seconds follows
    whether the post succeeded or not, and the counter of posts goes up by
    one or stays. *)
Theorem post_step (cfg : Config) (messages : list string)
    (bearer_token : string) (stats : gmap string Z) (w : World) :
  messages <> [] ->
  forall (post : M (gmap string Z)) (stats' : gmap string Z) (w' : World),
    post = focused_post cfg messages bearer_token stats
    \/ post = continuous_post cfg messages bearer_token stats ->
    post w = (Ok stats', w') ->
    exists message evs,
      message ∈ messages
      /\ trace w' = trace w ++ evs ++ [EvJitter 5 10]
      /\ Forall (io_event (the_request cfg "POST" "casts" bearer_token
                                       (PText message))) evs
      /\ (stats' = stats
          \/ stats' = <["posts"%string := default 0 (stats !! "posts"%string) + 1]> stats).
Proof.
  intros Hne post stats' w' Hpost Hrun.
  assert (Hcases : stats' = stats
                   \/ stats' = <["posts"%string :=
                                   default 0 (stats !! "posts"%string) + 1]> stats).
  { destruct Hpost as [-> | ->];
      [eapply focused_post_cases | eapply continuous_post_cases]; exact Hrun. }
  destruct (choice_member messages w Hne) as (message & draws & Hchoice & Hin).
  exists message.
  assert (Hshape : exists (k : bool -> M (gmap string Z)),
            post w = bind (post_cast cfg bearer_token message)
                          (fun ok => bind (k ok) (fun s =>
                             bind (sleep_uniform 5 10) (fun _ => ret s)))
                          (mkWorld (net w) draws (trace w))
            /\ forall ok s w0 w1, k ok w0 = (Ok s, w1) -> w1 = w0).
  { destruct Hpost as [-> | ->].
    - exists (fun ok : bool =>
                ret (if ok
                     then <["posts"%string := default 0 (stats !! "posts"%string) + 1]> stats
                     else stats)).
      split; [| intros ok s w0 w1 [= _ ->]; reflexivity].
      unfold focused_post. rewrite (bind_ok _ _ _ _ _ Hchoice). reflexivity.
    - exists (fun ok : bool =>
                if ok then lift (stats_add "posts" 1 stats) else ret stats).
      split.
      + unfold continuous_post. rewrite (bind_ok _ _ _ _ _ Hchoice). reflexivity.
      + intros [] s w0 w1 H; [apply lift_inv_ok in H as [_ ->] | injection H as _ ->];
          reflexivity. }
  destruct Hshape as (k & Heq & Hk). rewrite Heq in Hrun.
  apply bind_inv_ok in Hrun as (ok & w2 & Hcall & Hrun).
  apply bind_inv_ok in Hrun as (s & w3 & Hks & Hrun).
  apply Hk in Hks. subst w3. injection Hrun as _ <-.
  unfold post_cast in Hcall.
  apply executor_io in Hcall as [(evs & Htr & Hio & _) _].
  exists evs. cbn [trace] in *. rewrite Htr, <- app_assoc.
  repeat split; assumption.
Qed.

Lemma post_step_witness :
  let w := mkWorld [NetResponse (mkResponse 201 HAbsent None)] [2%nat] [] in
  let run := focused_post default_config ["gm"; "hello"; "gn"]%string "token"
               (init_stats [] true) w in
  run.1 = Ok (<["posts"%string := 1]> (init_stats [] true))
  /\ exists message evs,
       message ∈ ["gm"; "hello"; "gn"]%string
       /\ trace run.2 = [] ++ evs ++ [EvJitter 5 10]
       /\ Forall (io_event (the_request default_config "POST" "casts" "token"
                                        (PText message))) evs
       /\ (<["posts"%string := 1]> (init_stats [] true) = init_stats [] true
           \/ <["posts"%string := 1]> (init_stats [] true)
              = <["posts"%string :=
                    default 0 (init_stats [] true !! "posts"%string) + 1]>
                  (init_stats [] true)).
Proof.
  intros w run.
  assert (Hrun : run = (Ok (<["posts"%string := 1]> (init_stats [] true)), run.2))
    by (vm_compute; reflexivity).
  split; [rewrite Hrun; reflexivity |].
  apply (post_step default_config ["gm"; "hello"; "gn"]%string "token"
           (init_stats [] true) w ltac:(discriminate)
           (focused_post default_config ["gm"; "hello"; "gn"]%string "token"
              (init_stats [] true)) _ run.2);
    [left; reflexivity | exact Hrun].
Defined.
